(** * pyjoomatic.admin: a shallow embedding of [src/pyjoomatic/admin.py]

    The module drives the Joomla administration panel through Selenium.
    Two kinds of code live in it:

    - [update_url_params], a pure function over URL strings built from
      [urllib.parse] ([urlparse], [parse_qs], [urlencode], [urlunparse]);
    - the element wrapper, the form driver and the admin driver, which
      talk to a browser.  They are embedded as programs over the Selenium
      calls they issue ([prog]), run against an arbitrary browser
      ([run]), with the sequence of calls kept as a trace.

    Python strings are [string]s holding the UTF-8 bytes of the text. *)

From Stdlib Require Import String Ascii List ZArith Bool Arith Lia DecimalString Eqdep_dec.
Import ListNotations.
Open Scope list_scope.
Open Scope string_scope.

(** ** Python strings

    The functions below are those of CPython on ASCII text.  On other
    text CPython goes by the Unicode tables, which are not embedded:
    [str.strip] and [int] also take white space such as U+00A0, [int]
    takes the decimal digits of other scripts, and [repr] escapes the
    characters that are not printable.  Here the bytes of such characters
    are bytes like the others: [strip], [to_Z] and [PyRepr.repr_str] agree
    with CPython on the texts that hold none of them. *)

Module PyStr.

Definition code (c : ascii) : nat := nat_of_ascii c.

Definition between (lo hi : nat) (c : ascii) : bool :=
  Nat.leb lo (code c) && Nat.leb (code c) hi.

Definition is_digit (c : ascii) : bool := between 48 57 c.
Definition is_upper (c : ascii) : bool := between 65 90 c.
Definition is_lower (c : ascii) : bool := between 97 122 c.
Definition is_alpha (c : ascii) : bool := is_upper c || is_lower c.
Definition is_alnum (c : ascii) : bool := is_alpha c || is_digit c.

(** [str.isspace] on ASCII: TAB..CR, FS..US and the space. *)
Definition is_space (c : ascii) : bool :=
  between 9 13 c || between 28 32 c.

Definition lower_char (c : ascii) : ascii :=
  if is_upper c then ascii_of_nat (code c + 32) else c.

Fixpoint map_chars (f : ascii -> ascii) (s : string) : string :=
  match s with
  | EmptyString => EmptyString
  | String c s' => String (f c) (map_chars f s')
  end.

(** [s.lower()] on ASCII letters. *)
Definition lower (s : string) : string := map_chars lower_char s.

(** [all(p(c) for c in s)] *)
Fixpoint all_chars (p : ascii -> bool) (s : string) : bool :=
  match s with
  | EmptyString => true
  | String c s' => p c && all_chars p s'
  end.

(** [c in s] for a one-character [c] *)
Fixpoint mem (c : ascii) (s : string) : bool :=
  match s with
  | EmptyString => false
  | String a s' => Ascii.eqb a c || mem c s'
  end.

Definition is_empty (s : string) : bool :=
  match s with EmptyString => true | _ => false end.

(** [s.startswith(p)] *)
Fixpoint starts_with (p s : string) : bool :=
  match p, s with
  | EmptyString, _ => true
  | String a p', String b s' => Ascii.eqb a b && starts_with p' s'
  | String _ _, EmptyString => false
  end.

(** [p in s] for strings: some suffix of [s] starts with [p]. *)
Fixpoint contains (p s : string) : bool :=
  starts_with p s ||
  match s with
  | EmptyString => false
  | String _ s' => contains p s'
  end.

(** [s.split(c, 1)]: the text before the first [c], and the text after it
    when there is one. *)
Fixpoint split_once (c : ascii) (s : string) : string * option string :=
  match s with
  | EmptyString => (EmptyString, None)
  | String a s' =>
      if Ascii.eqb a c then (EmptyString, Some s')
      else let (h, t) := split_once c s' in (String a h, t)
  end.

(** Split at every character satisfying [p]: [re.split] on a class of
    single characters, [s.split(c)] for the class of one. *)
Fixpoint split_by (p : ascii -> bool) (s : string) : list string :=
  match s with
  | EmptyString => [EmptyString]
  | String a s' =>
      if p a then EmptyString :: split_by p s'
      else match split_by p s' with
           | h :: t => String a h :: t
           | [] => [String a EmptyString]
           end
  end.

(** [sep.join(l)] *)
Fixpoint join (sep : string) (l : list string) : string :=
  match l with
  | [] => EmptyString
  | [x] => x
  | x :: l' => x ++ sep ++ join sep l'
  end.

(** [s.replace(a, b)] for one-character [a] and [b] *)
Definition replace_char (a b : ascii) (s : string) : string :=
  map_chars (fun c => if Ascii.eqb c a then b else c) s.

(** The longest prefix whose characters satisfy [p], and the rest. *)
Fixpoint span (p : ascii -> bool) (s : string) : string * string :=
  match s with
  | EmptyString => (EmptyString, EmptyString)
  | String a s' =>
      if p a then let (h, t) := span p s' in (String a h, t)
      else (EmptyString, s)
  end.

Fixpoint rev_acc (s acc : string) : string :=
  match s with
  | EmptyString => acc
  | String c s' => rev_acc s' (String c acc)
  end.

Definition rev (s : string) : string := rev_acc s EmptyString.

(** Drop the characters satisfying [p] at both ends. *)
Definition strip_by (p : ascii -> bool) (s : string) : string :=
  rev (snd (span p (rev (snd (span p s))))).

(** [s.strip()] on ASCII white space; the white space outside ASCII
    (U+0085, U+00A0, U+2000 and the like) is not stripped here. *)
Definition strip (s : string) : string := strip_by is_space s.

(** The white space [int] accepts around a number: TAB..CR and the space. *)
Definition is_blank (c : ascii) : bool := between 9 13 c || Nat.eqb (code c) 32.

(** [str(z)] for an [int] *)
Definition of_Z (z : Z) : string := NilZero.string_of_int (Z.to_int z).

(** ["%d" % n] for a length *)
Definition of_nat (n : nat) : string := NilZero.string_of_uint (Nat.to_uint n).

(** [str(x)] for the result of [get_attribute]: the text, or [None] *)
Definition of_option (o : option string) : string :=
  match o with Some s => s | None => "None" end.

Fixpoint digits_value (s : string) (acc : Z) : option Z :=
  match s with
  | EmptyString => Some acc
  | String c s' =>
      if is_digit c then digits_value s' (10 * acc + Z.of_nat (code c - 48))%Z
      else if Ascii.eqb c "_" then
        match s' with
        | String d _ => if is_digit d then digits_value s' acc else None
        | EmptyString => None
        end
      else None
  end.

Definition unsigned_value (s : string) : option Z :=
  match s with
  | String c _ => if is_digit c then digits_value s 0%Z else None
  | EmptyString => None
  end.

(** [int(s)] on ASCII text: surrounding white space, an optional sign,
    decimal digits with single underscores between them; [None] stands for
    ValueError.  On a text with a character outside ASCII, CPython first
    turns every Unicode white space into a space and every Unicode decimal
    digit into its ASCII digit; that step is not modelled, and such a text
    is refused here. *)
Definition to_Z (s : string) : option Z :=
  match strip_by is_blank s with
  | String "-" s' => option_map Z.opp (unsigned_value s')
  | String "+" s' => unsigned_value s'
  | s' => unsigned_value s'
  end.

End PyStr.

(** ** Exceptions and results *)

(** The exception classes the module raises, catches or lets through.
    [WebDriverException] stands for any other failure of a browser call. *)
Inductive exn : Type :=
| NoSuchElementException
| TimeoutException
| WebDriverException (msg : string)
| AdminError (msg : string)
| ValueError (msg : string)
| AssertionError (msg : string)
| TypeError (msg : string)
| AttributeError (msg : string)
| KeyError (key : string)
| IndexError (msg : string).

(** What a call gives back: an exception raised, or a value returned. *)
Definition result (A : Type) : Type := (exn + A)%type.

(** ** [urllib.parse]

    A model of the functions of the Python standard library that
    [update_url_params] and the workflows call, after CPython 3.6
    ([Lib/urllib/parse.py]), on [str] arguments.  The memoisation cache of
    [urlsplit] is left out.  Percent-escapes are decoded to the bytes they
    name; CPython then decodes those bytes as UTF-8 and substitutes U+FFFD
    for a malformed sequence, which the model does not do: it agrees with
    CPython wherever the escapes decode to well-formed UTF-8. *)

Module Urllib.
Import PyStr.

(** [ParseResult(scheme, netloc, path, params, query, fragment)] *)
Record ParseResult : Type := mkParseResult {
  scheme : string;
  netloc : string;
  path : string;
  params : string;
  query : string;
  fragment : string
}.

Definition uses_netloc : list string :=
  [""; "ftp"; "http"; "gopher"; "nntp"; "telnet"; "imap"; "wais"; "file";
   "mms"; "https"; "shttp"; "snews"; "prospero"; "rtsp"; "rtspu"; "rsync";
   "svn"; "svn+ssh"; "sftp"; "nfs"; "git"; "git+ssh"; "ws"; "wss"].

Definition uses_params : list string :=
  [""; "ftp"; "hdl"; "prospero"; "http"; "imap"; "https"; "shttp"; "rtsp";
   "rtspu"; "sip"; "sips"; "mms"; "sftp"; "tel"].

Definition in_list (s : string) (l : list string) : bool :=
  existsb (String.eqb s) l.

(** [scheme_chars]: letters, digits and [+-.] *)
Definition scheme_char (c : ascii) : bool := is_alnum c || mem c "+-.".

(** The scheme step of [urlsplit]: [i = url.find(':')]; when [i > 0], the
    text before the colon is the scheme if it is [http], or if it is made
    of scheme characters and what follows is not a port number. *)
Definition split_scheme (url : string) : string * string :=
  match split_once ":" url with
  | (pre, Some rest) =>
      if is_empty pre then (EmptyString, url)
      else if String.eqb pre "http" then (lower pre, rest)
      else if all_chars scheme_char pre then
        if is_empty rest || negb (all_chars is_digit rest)
        then (lower pre, rest)
        else (EmptyString, url)
      else (EmptyString, url)
  | (_, None) => (EmptyString, url)
  end.

Definition netloc_char (c : ascii) : bool := negb (mem c "/?#").

(** [_splitnetloc(url, 2)]: after the two slashes, the text up to the
    first of [/], [?] and [#], and what is left. *)
Definition _splitnetloc (url : string) : string * string :=
  match url with
  | String _ (String _ rest) => span netloc_char rest
  | _ => (EmptyString, EmptyString)
  end.

(** [url, x = url.split(c, 1)] under [if c in url], else [x = ''] *)
Definition split_off (c : ascii) (url : string) : string * string :=
  match split_once c url with
  | (u, Some x) => (u, x)
  | (u, None) => (u, EmptyString)
  end.

Definition invalid_brackets (netloc : string) : bool :=
  (mem "[" netloc && negb (mem "]" netloc))
  || (mem "]" netloc && negb (mem "[" netloc)).

Definition urlsplit (url : string)
  : result (string * string * string * string * string) :=
  let '(scheme, url) := split_scheme url in
  let '(netloc, url) :=
    if starts_with "//" url then _splitnetloc url else (EmptyString, url) in
  if invalid_brackets netloc then inl (ValueError "Invalid IPv6 URL")
  else
    let '(url, fragment) := split_off "#" url in
    let '(url, query) := split_off "?" url in
    inr (scheme, netloc, url, query, fragment).

(** [(s[:j], s[j:])] for [j = s.rfind('/')], and [j = 0] without a slash *)
Fixpoint rsplit_slash (s : string) : string * string :=
  match s with
  | EmptyString => (EmptyString, EmptyString)
  | String a s' =>
      let (h, t) := rsplit_slash s' in
      if mem "/" s' then (String a h, t) else (EmptyString, s)
  end.

(** [_splitparams]: cut at the first [;] of the last path segment. *)
Definition _splitparams (url : string) : string * string :=
  let (h, t) := rsplit_slash url in
  match split_once ";" t with
  | (p, Some q) => (h ++ p, q)
  | (_, None) => (url, EmptyString)
  end.

Definition urlparse (url : string) : result ParseResult :=
  match urlsplit url with
  | inl e => inl e
  | inr (scheme, netloc, url, query, fragment) =>
      let '(url, params) :=
        if in_list scheme uses_params && mem ";" url
        then _splitparams url else (url, EmptyString) in
      inr (mkParseResult scheme netloc url params query fragment)
  end.

Definition urlunsplit (scheme netloc url query fragment : string) : string :=
  let url :=
    if negb (is_empty netloc)
       || (negb (is_empty scheme) && in_list scheme uses_netloc
           && negb (starts_with "//" url))
    then
      let url :=
        if negb (is_empty url) && negb (starts_with "/" url)
        then "/" ++ url else url in
      "//" ++ netloc ++ url
    else url in
  let url := if negb (is_empty scheme) then scheme ++ ":" ++ url else url in
  let url := if negb (is_empty query) then url ++ "?" ++ query else url in
  let url := if negb (is_empty fragment) then url ++ "#" ++ fragment else url in
  url.

Definition urlunparse (c : ParseResult) : string :=
  let url :=
    if negb (is_empty (params c)) then path c ++ ";" ++ params c else path c in
  urlunsplit (scheme c) (netloc c) url (query c) (fragment c).

(** *** Quoting *)

(** [_ALWAYS_SAFE]: letters, digits and [_.-] *)
Definition always_safe (c : ascii) : bool := is_alnum c || mem c "_.-".

Definition hex_digit (n : nat) : ascii :=
  match get n "0123456789ABCDEF" with Some c => c | None => "0"%char end.

(** ['%{:02X}'.format(byte)] *)
Definition percent (c : ascii) : string :=
  String "%" (String (hex_digit (code c / 16))
                     (String (hex_digit (code c mod 16)) EmptyString)).

(** [quote_plus(s)] with the default [safe='']: a safe byte stays, a space
    becomes [+], any other byte is percent-escaped. *)
Fixpoint quote_plus (s : string) : string :=
  match s with
  | EmptyString => EmptyString
  | String c s' =>
      (if always_safe c then String c EmptyString
       else if Ascii.eqb c " " then "+"
       else percent c) ++ quote_plus s'
  end.

Definition hex_value (c : ascii) : option nat :=
  if is_digit c then Some (code c - 48)
  else if between 65 70 c then Some (code c - 55)
  else if between 97 102 c then Some (code c - 87)
  else None.

(** [unquote(s)]: every [%] followed by two hexadecimal digits is
    replaced by the byte they name; any other [%] stays. *)
Fixpoint unquote (s : string) : string :=
  match s with
  | EmptyString => EmptyString
  | String c rest =>
      if Ascii.eqb c "%" then
        match rest with
        | String h1 (String h2 rest') =>
            match hex_value h1, hex_value h2 with
            | Some a, Some b =>
                String (ascii_of_nat (16 * a + b)) (unquote rest')
            | _, _ => String c (unquote rest)
            end
        | _ => String c (unquote rest)
        end
      else String c (unquote rest)
  end.

(** [unquote(s.replace('+', ' '))] *)
Definition unquote_plus (s : string) : string :=
  unquote (replace_char "+" " " s).

(** *** Query strings *)

Definition is_separator (c : ascii) : bool :=
  Ascii.eqb c "&" || Ascii.eqb c ";".

(** One [name=value] field of [parse_qsl], with [keep_blank_values] and
    [strict_parsing] off: a field without [=] or with an empty value is
    skipped. *)
Definition parse_field (name_value : string) : list (string * string) :=
  if is_empty name_value then []
  else match split_once "=" name_value with
       | (n, Some v) =>
           if is_empty v then [] else [(unquote_plus n, unquote_plus v)]
       | (_, None) => []
       end.

(** [parse_qsl(qs)]: the fields are separated by [&] or [;]. *)
Definition parse_qsl (qs : string) : list (string * string) :=
  flat_map parse_field (split_by is_separator qs).

(** [parsed_result[name].append(value)], or
    [parsed_result[name] = [value]] for a new name *)
Fixpoint dict_append (name value : string)
    (d : list (string * list string)) : list (string * list string) :=
  match d with
  | [] => [(name, [value])]
  | (k, vs) :: d' =>
      if String.eqb k name then (k, (vs ++ [value])%list) :: d'
      else (k, vs) :: dict_append name value d'
  end.

(** [parse_qs(qs)]: a [dict] from each name to the list of its values,
    kept in insertion order. *)
Definition parse_qs (qs : string) : list (string * list string) :=
  fold_left (fun d nv => dict_append (fst nv) (snd nv) d) (parse_qsl qs) [].

End Urllib.

(** ** Values of a query mapping *)

(** What the mapping built by [update_url_params] holds under a name: the
    [list] of [str] that [parse_qs] stored, or a keyword argument, taken to
    be a [str] or an [int]. *)
Inductive qvalue : Type :=
| QStr (s : string)
| QInt (z : Z)
| QList (l : list string).

Module PyRepr.
Import PyStr.

Definition dquote : ascii := ascii_of_nat 34.
Definition squote : ascii := ascii_of_nat 39.
Definition backslash : ascii := ascii_of_nat 92.

(** [repr] of a [str] picks double quotes when the text holds a single
    quote and no double quote. *)
Definition repr_quote (s : string) : ascii :=
  if mem squote s && negb (mem dquote s) then dquote else squote.

Definition hex_lower (n : nat) : ascii :=
  match get n "0123456789abcdef" with Some c => c | None => "0"%char end.

Definition repr_char (q c : ascii) : string :=
  if Ascii.eqb c q || Ascii.eqb c backslash then String backslash (String c EmptyString)
  else if Nat.eqb (code c) 9 then String backslash "t"
  else if Nat.eqb (code c) 10 then String backslash "n"
  else if Nat.eqb (code c) 13 then String backslash "r"
  else if Nat.ltb (code c) 32 || Nat.eqb (code c) 127
  then String backslash
         (String "x" (String (hex_lower (code c / 16))
                             (String (hex_lower (code c mod 16)) EmptyString)))
  else String c EmptyString.

Fixpoint repr_body (q : ascii) (s : string) : string :=
  match s with
  | EmptyString => EmptyString
  | String c s' => repr_char q c ++ repr_body q s'
  end.

(** [repr(s)] for a [str]; bytes above ASCII are kept, as CPython keeps
    the printable characters they encode.  The characters outside ASCII
    that are not printable (U+00A0, U+0085 and the like), which CPython
    writes as [\xa0], [\x85] and so on, are kept as well: on a text that
    holds one the model differs. *)
Definition repr_str (s : string) : string :=
  let q := repr_quote s in
  String q (repr_body q s ++ String q EmptyString).

(** [str(v)] *)
Definition str (v : qvalue) : string :=
  match v with
  | QStr s => s
  | QInt z => of_Z z
  | QList l => "[" ++ join ", " (map repr_str l) ++ "]"
  end.

End PyRepr.

(** ** [dict] as an insertion-ordered association list *)

Module Dict.

Definition t (V : Type) : Type := list (string * V).

(** [d.get(k)] *)
Fixpoint get {V} (k : string) (d : t V) : option V :=
  match d with
  | [] => None
  | (k', v) :: d' => if String.eqb k' k then Some v else get k d'
  end.

(** [d[k] = v]: an existing key keeps its place. *)
Fixpoint set {V} (k : string) (v : V) (d : t V) : t V :=
  match d with
  | [] => [(k, v)]
  | (k', v') :: d' =>
      if String.eqb k' k then (k', v) :: d' else (k', v') :: set k v d'
  end.

(** [d.update(other)] *)
Definition update {V} (d other : t V) : t V :=
  fold_left (fun acc kv => set (fst kv) (snd kv) acc) other d.

Definition keys {V} (d : t V) : list string := map fst d.

End Dict.

(** [urlencode(query)] with [doseq] off: [str] of every value is quoted,
    whatever the value is. *)
Definition urlencode (query : Dict.t qvalue) : string :=
  PyStr.join "&"
    (map (fun kv => Urllib.quote_plus (fst kv) ++ "="
                    ++ Urllib.quote_plus (PyRepr.str (snd kv))) query).

(** ** [update_url_params] (admin.py, lines 62-75) *)

(** [elements = list(parsed_url); elements[4] = q] *)
Definition set_query (p : Urllib.ParseResult) (q : string) : Urllib.ParseResult :=
  Urllib.mkParseResult (Urllib.scheme p) (Urllib.netloc p) (Urllib.path p)
    (Urllib.params p) q (Urllib.fragment p).

(** The mapping after [params = parse_qs(...)] and [params.update(kwargs)] *)
Definition merged_params (parsed_url : Urllib.ParseResult)
    (kwargs : Dict.t qvalue) : Dict.t qvalue :=
  let params :=
    map (fun kv => (fst kv, QList (snd kv)))
        (Urllib.parse_qs (Urllib.query parsed_url)) in
  Dict.update params kwargs.

(** The body of the function, on the mapping Python binds to [**kwargs].
    That mapping never holds the name [url]: a call that gives [url] as a
    keyword too is refused with TypeError before the body runs.  The
    values are [str], [int] and lists of [str] ([qvalue]). *)
Definition update_url_params (url : string) (kwargs : Dict.t qvalue)
  : result string :=
  match Urllib.urlparse url with
  | inl e => inl e
  | inr parsed_url =>
      let params := merged_params parsed_url kwargs in
      let elements := set_query parsed_url (urlencode params) in
      inr (Urllib.urlunparse elements)
  end.

(** ** The browser, as seen from the module *)

(** What an [EltWrapper] wraps: the web driver itself (the [Browser]) or an
    element of the page. *)
Inductive handle : Type :=
| Driver
| WebElement (id : nat).

(** The selector kinds behind [find_element_by_*] and [find_elements_by_*] *)
Inductive By : Type := ByTag | ByName | ByCss | ByXpath | ById.

(** The calls that leave the module: Selenium, [time.sleep] and [os.path]. *)
Inductive event : Type :=
| FindElement (by_ : By) (ctx : handle) (selector : string)
| FindElements (by_ : By) (ctx : handle) (selector : string)
| Click (elt : handle)
| Clear (elt : handle)
| SendKeys (elt : handle) (keys : string)
| GetAttribute (elt : handle) (name : string)
| IsDisplayed (elt : handle)
| TagName (elt : handle)
| Text (elt : handle)
| Get (url : string)
| CurrentUrl
| WaitFrameAvailable (xpath : string)
| WaitPresence (xpath : string)
| WaitNotPresence (xpath : string)
| WaitDisplayed (elt : handle)
| SwitchToParentFrame
| Sleep (seconds : nat)
| OsPathAbspath (p : string)
| OsPathExists (p : string)
| OsPathIsfile (p : string).

(** What each call returns when it does not raise. *)
Definition resp (ev : event) : Type :=
  match ev with
  | FindElement _ _ _ => handle
  | FindElements _ _ _ => list handle
  | GetAttribute _ _ => option string
  | IsDisplayed _ => bool
  | TagName _ => string
  | Text _ => string
  | CurrentUrl => string
  | WaitPresence _ => handle
  | OsPathAbspath _ => string
  | OsPathExists _ => bool
  | OsPathIsfile _ => bool
  | _ => unit
  end.

(** A call that acts on the page rather than reading it. *)
Definition is_action (ev : event) : bool :=
  match ev with
  | Click _ | Clear _ | SendKeys _ _ | Get _ => true
  | _ => false
  end.

(** ** Python values that cross the wrapper

    The decorated lookups return an [EltWrapper], a list of them, or the
    caller's default, which can be any object. *)
#[local] Unset Elimination Schemes.
Inductive pyval : Type :=
| VNone
| VBool (b : bool)
| VInt (z : Z)
| VStr (s : string)
| VList (l : list pyval)
| VElt (elt : handle).
#[local] Set Elimination Schemes.

(** [bool(v)]: [EltWrapper] defines neither [__bool__] nor [__len__], and
    [__getattr__] is not consulted for them, so a wrapper is always true. *)
Definition truthy (v : pyval) : bool :=
  match v with
  | VNone => false
  | VBool b => b
  | VInt z => negb (Z.eqb z 0)
  | VStr s => negb (PyStr.is_empty s)
  | VList l => match l with [] => false | _ => true end
  | VElt _ => true
  end.

(** ** Programs *)

(** A computation of the module: it returns, raises, or issues a call and
    goes on with what the call gave back. *)
Inductive prog (A : Type) : Type :=
| Ret (a : A)
| Raise (e : exn)
| Vis (ev : event) (k : result (resp ev) -> prog A).

Arguments Ret {A} a.
Arguments Raise {A} e.
Arguments Vis {A} ev k.

Fixpoint bind {A B} (p : prog A) (f : A -> prog B) : prog B :=
  match p with
  | Ret a => f a
  | Raise e => Raise e
  | Vis ev k => Vis ev (fun r => bind (k r) f)
  end.

Declare Scope prog_scope.
Delimit Scope prog_scope with prog.
Notation "x <- p ;; q" := (bind p (fun x => q))
  (at level 61, p at next level, right associativity) : prog_scope.
Notation "p ;; q" := (bind p (fun _ => q))
  (at level 61, right associativity) : prog_scope.
Open Scope prog_scope.

(** Issue a call; an exception it raises propagates. *)
Definition call (ev : event) : prog (resp ev) :=
  Vis ev (fun r => match r with inl e => Raise e | inr x => Ret x end).

(** [try: body  except <caught>: handler] *)
Fixpoint try_except {A} (body : prog A) (caught : exn -> bool)
    (handler : exn -> prog A) : prog A :=
  match body with
  | Ret a => Ret a
  | Raise e => if caught e then handler e else Raise e
  | Vis ev k => Vis ev (fun r => try_except (k r) caught handler)
  end.

Definition is_NoSuchElementException (e : exn) : bool :=
  match e with NoSuchElementException => true | _ => false end.

(** [for x in l: body(x)] *)
Fixpoint for_each {A} (l : list A) (body : A -> prog unit) : prog unit :=
  match l with
  | [] => Ret tt
  | x :: l' => body x ;; for_each l' body
  end.

(** [assert cond, msg], with assertions enabled: the message is evaluated
    only when the condition fails. *)
Definition assert_ (cond : bool) (msg : prog string) : prog unit :=
  if cond then Ret tt else (m <- msg ;; Raise (AssertionError m)).

(** *** Running a program against a browser *)

(** A call together with what it is answered. *)
Definition answer : Type := { ev : event & result (resp ev) }.
Definition gives (ev : event) (r : resp ev) : answer := existT _ ev (inr r).
Definition fails (ev : event) (e : exn) : answer := existT _ ev (inl e).
Definition asked (a : answer) : event := projT1 a.

Section Run.
(** The state of everything outside the module, and how it answers. *)
Variable World : Type.
Variable respond : forall ev : event, World -> result (resp ev) * World.

(** The outcome, the final state and the calls issued, in order. *)
Fixpoint run {A} (p : prog A) (w : World) : result A * World * list event :=
  match p with
  | Ret a => (inr a, w, [])
  | Raise e => (inl e, w, [])
  | Vis ev k =>
      let (r, w1) := respond ev w in
      let '(out, w2, tr) := run (k r) w1 in
      (out, w2, ev :: tr)
  end.

Definition outcome {A} (p : prog A) (w : World) : result A := fst (fst (run p w)).
Definition trace {A} (p : prog A) (w : World) : list event := snd (run p w).

(** [answers w s w']: from [w], the calls of [s] made in that order get
    the answers listed with them and leave the browser in [w']. *)
Fixpoint answers (w : World) (s : list answer) (w' : World) : Prop :=
  match s with
  | [] => w' = w
  | existT _ ev r :: s' =>
      exists w1, respond ev w = (r, w1) /\ answers w1 s' w'
  end.
End Run.

Arguments run {World} respond {A} p w.
Arguments outcome {World} respond {A} p w.
Arguments trace {World} respond {A} p w.
Arguments answers {World} respond w s w'.

(** ** [no_such_element_default] (admin.py, lines 29-42)

    [default = kwargs.pop('default', marker)]: the module-private sentinel
    [marker] stands for "no default given", which is [None] here; a given
    default is [Some d]. *)
Definition no_such_element_default (fn : handle -> string -> prog pyval)
    (self : handle) (arg : string) (default : option pyval) : prog pyval :=
  try_except (fn self arg) is_NoSuchElementException
    (fun e => match default with
              | Some d => Ret d
              | None => Raise e
              end).

(** ** [EltWrapper] (admin.py, lines 78-123)

    A wrapper is identified with the element it wraps ([self.elt]). *)

Definition find_one (by_ : By) (self : handle) (selector : string) : prog pyval :=
  e <- call (FindElement by_ self selector) ;; Ret (VElt e).

Definition find_all (by_ : By) (self : handle) (selector : string) : prog pyval :=
  es <- call (FindElements by_ self selector) ;; Ret (VList (map VElt es)).

Definition by_tag := no_such_element_default (find_one ByTag).
Definition all_tag := no_such_element_default (find_all ByTag).
Definition by_name := no_such_element_default (find_one ByName).
Definition all_name := no_such_element_default (find_all ByName).
Definition by_css := no_such_element_default (find_one ByCss).
Definition all_css := no_such_element_default (find_all ByCss).
Definition by_xpath := no_such_element_default (find_one ByXpath).
Definition all_xpath := no_such_element_default (find_all ByXpath).
Definition by_id := no_such_element_default (find_one ById).

(** The nine decorated lookups, by name. *)
Inductive lookup : Type :=
| By_tag | All_tag | By_name | All_name | By_css | All_css
| By_xpath | All_xpath | By_id.

Definition lookup_fn (l : lookup)
  : handle -> string -> option pyval -> prog pyval :=
  match l with
  | By_tag => by_tag | All_tag => all_tag
  | By_name => by_name | All_name => all_name
  | By_css => by_css | All_css => all_css
  | By_xpath => by_xpath | All_xpath => all_xpath
  | By_id => by_id
  end.

(** The Selenium call under each lookup *)
Definition lookup_find (l : lookup) (self : handle) (selector : string) : event :=
  match l with
  | By_tag => FindElement ByTag self selector
  | All_tag => FindElements ByTag self selector
  | By_name => FindElement ByName self selector
  | All_name => FindElements ByName self selector
  | By_css => FindElement ByCss self selector
  | All_css => FindElements ByCss self selector
  | By_xpath => FindElement ByXpath self selector
  | All_xpath => FindElements ByXpath self selector
  | By_id => FindElement ById self selector
  end.

(** *** Attribute access on what a lookup returned

    [EltWrapper.__getattr__] hands any other attribute to the wrapped
    element; a [list] or another default has none of the element's methods. *)
Definition elt_of (v : pyval) (attr : string) : prog handle :=
  match v with
  | VElt e => Ret e
  | _ => Raise (AttributeError attr)
  end.

(** [v[i]]: [EltWrapper] has no [__getitem__], and [__getattr__] is not
    consulted for it. *)
Definition getitem (v : pyval) (i : nat) : prog pyval :=
  match v with
  | VList l =>
      match nth_error l i with
      | Some x => Ret x
      | None => Raise (IndexError "list index out of range")
      end
  | VStr s =>
      match String.get i s with
      | Some c => Ret (VStr (String c EmptyString))
      | None => Raise (IndexError "string index out of range")
      end
  | VElt _ => Raise (TypeError "'EltWrapper' object is not subscriptable")
  | _ => Raise (TypeError "object is not subscriptable")
  end.

(** [iter(v)] of a [for] statement *)
Definition iter_of (v : pyval) : prog (list pyval) :=
  match v with
  | VList l => Ret l
  | VStr s => Ret (map (fun c => VStr (String c EmptyString)) (list_ascii_of_string s))
  | _ => Raise (TypeError "object is not iterable")
  end.

(** [v.textContent]: a Selenium [WebElement] has no such attribute (the DOM
    property is read with [get_attribute]), nor has any other value here. *)
Definition textContent (v : pyval) : prog string :=
  Raise (AttributeError "textContent").

Definition click (v : pyval) : prog unit := e <- elt_of v "click" ;; call (Click e).
Definition clear (v : pyval) : prog unit := e <- elt_of v "clear" ;; call (Clear e).
Definition send_keys (v : pyval) (keys : string) : prog unit :=
  e <- elt_of v "send_keys" ;; call (SendKeys e keys).
Definition get_attribute (v : pyval) (name : string) : prog (option string) :=
  e <- elt_of v "get_attribute" ;; call (GetAttribute e name).
Definition is_displayed (v : pyval) : prog bool :=
  e <- elt_of v "is_displayed" ;; call (IsDisplayed e).
Definition tag_name (v : pyval) : prog string :=
  e <- elt_of v "tag_name" ;; call (TagName e).
Definition text (v : pyval) : prog string :=
  e <- elt_of v "text" ;; call (Text e).

(** A lookup made on what another lookup returned, as in
    [selector.by_tag("a")]. *)
Definition on (v : pyval) (attr : string)
    (m : handle -> string -> option pyval -> prog pyval)
    (selector : string) (default : option pyval) : prog pyval :=
  e <- elt_of v attr ;; m e selector default.

(** ** [Browser] (admin.py, lines 126-140): [self.b] wraps the web driver. *)
Definition b : handle := Driver.

(** ** [JoomlaAdminParts] (admin.py, lines 143-195) *)
Module jap.
Definition logout : prog pyval :=
  by_xpath b "//a[contains(@href, 'task=logout')]" None.
Definition subheader : prog pyval := by_css b "div.subhead" None.
Definition menu_contents : prog pyval :=
  by_xpath b "//a[contains(@class, 'menu-article')]/ancestor::ul/preceding-sibling::a" None.
Definition menu_components : prog pyval :=
  by_xpath b "//a[contains(@class, 'menu-tags')]/ancestor::ul/preceding-sibling::a" None.
Definition menu_user : prog pyval :=
  by_xpath b "//a[./span[contains(@class, 'icon-user')]]" None.
Definition menu_article : prog pyval := by_css b "a.menu-article" None.
Definition menu_attachments : prog pyval := by_css b "a.menu-attachments" None.
Definition jform_action (name : string) : prog pyval :=
  by_xpath b ("//button[contains(@onclick, '" ++ name ++ "')]") None.
Definition jaction_link (name : string) : prog pyval :=
  by_xpath b ("//a[contains(@href, 'task=" ++ name ++ "')]") None.
Definition jform_error : prog pyval :=
  by_css b ".alert-error" (Some (VList [])).
Definition jform_invalid_fields : prog pyval :=
  by_xpath b "//label[contains(@class, 'invalid')]/@for" None.
End jap.

(** [len(v)] *)
Definition len (v : pyval) : prog nat :=
  match v with
  | VList l => Ret (List.length l)
  | VStr s => Ret (String.length s)
  | _ => Raise (TypeError "object has no len()")
  end.

(** Typing what [get_attribute] returned: Selenium takes the length of its
    argument, which [None] does not have. *)
Definition send_keys_opt (v : pyval) (keys : option string) : prog unit :=
  match keys with
  | Some k => send_keys v k
  | None => e <- elt_of v "send_keys" ;;
            Raise (TypeError "object of type 'NoneType' has no len()")
  end.

(** ** [JoomlaFormDriver] (admin.py, lines 198-341) *)

(** [ensure_field_tab] (lines 202-216) *)
Definition ensure_field_tab (field : pyval) : prog unit :=
  shown <- is_displayed field ;;
  if negb shown then
    try_except
      (tab <- on field "by_xpath" by_xpath
                "./ancestor::div[contains(@class, 'tab-pane')]" None ;;
       if truthy tab then
         tabid <- get_attribute tab "id" ;;
         tab_selector <- by_xpath b
           ("//ul[@id='myTabTabs']//a[@href='#" ++ PyStr.of_option tabid ++ "']")
           None ;;
         if truthy tab_selector then
           selector_shown <- is_displayed tab_selector ;;
           if selector_shown then click tab_selector else Ret tt
         else Ret tt
       else Ret tt)
      is_NoSuchElementException
      (fun _ => Ret tt)
  else Ret tt.

(** [fill_input_text] (lines 225-227) *)
Definition fill_input_text (fname : string) (field : pyval) (value : string)
  : prog unit :=
  clear field ;;
  send_keys field value.

(** [fill_input_file] (lines 229-238) *)
Definition fill_input_file (fname : string) (field : pyval) (value : string)
  : prog unit :=
  clear field ;;
  fpath <- call (OsPathAbspath value) ;;
  file_exists <- call (OsPathExists fpath) ;;
  if negb file_exists then
    Raise (ValueError (value ++ " does not exists, can't feed it as an upload value"))
  else
    is_file <- call (OsPathIsfile fpath) ;;
    if negb is_file then
      Raise (ValueError (value ++ " is not a file, can't feed it as an upload value"))
    else send_keys field fpath.

(** [fill_input_radio] (lines 240-243): the attribute read is the one
    named by [value]. *)
Definition fill_input_radio (fname : string) (field : pyval) (value : string)
  : prog unit :=
  fvalue <- get_attribute field value ;;
  if String.eqb (PyStr.of_option fvalue) value then click field else Ret tt.

(** [getattr(self, "fill_input_" + ftype, self.fill_input_text)] *)
Definition fill_input_filler (ftype : string)
  : string -> pyval -> string -> prog unit :=
  if String.eqb ftype "text" then fill_input_text
  else if String.eqb ftype "file" then fill_input_file
  else if String.eqb ftype "radio" then fill_input_radio
  else fill_input_text.

(** [field.get_attribute("type") or "text"] *)
Definition or_text (o : option string) : string :=
  match o with
  | Some s => if PyStr.is_empty s then "text" else s
  | None => "text"
  end.

(** [fill_input] (lines 218-223) *)
Definition fill_input (fname : string) (field : pyval) (value : string)
  : prog unit :=
  ftype_attr <- get_attribute field "type" ;;
  let ftype := or_text ftype_attr in
  let filler := fill_input_filler ftype in
  filler fname field value.

(** The message of the assertion of [fill_select] *)
Definition found_results_message (n : nat) (option_text fname value : string)
  : string :=
  "Found " ++ PyStr.of_nat n ++ " results for " ++ option_text
  ++ " for " ++ fname ++ " = " ++ value.

(** [fill_select] (lines 245-266) *)
Definition fill_select (fname : string) (field : pyval) (value : string)
  : prog unit :=
  option <- on field "by_xpath" by_xpath (".//option[@value='" ++ value ++ "']") None ;;
  shown <- is_displayed field ;;
  if shown then click option
  else
    text_ <- get_attribute option "text" ;;
    selector <- by_id b ("jform_" ++ fname ++ "_chzn") None ;;
    link <- on selector "by_tag" by_tag "a" None ;;
    click link ;;
    box <- on selector "by_tag" by_tag "input" None ;;
    send_keys_opt box text_ ;;
    listing <- on selector "by_css" by_css ".chzn-results" None ;;
    results <- on listing "all_tag" all_tag "li" None ;;
    n <- len results ;;
    assert_ (Nat.eqb n 1)
      (option_text <- text option ;;
       Ret (found_results_message n option_text fname value)) ;;
    first <- getitem results 0 ;;
    click first.

(** [fill_textarea] (lines 317-330) *)
Definition fill_textarea (fname : string) (field : pyval) (value : string)
  : prog unit :=
  shown <- is_displayed field ;;
  (if negb shown then
     class <- get_attribute field "class" ;;
     match class with
     | None => Raise (TypeError "argument of type 'NoneType' is not iterable")
     | Some cl =>
         assert_ (PyStr.contains "mce_editable" cl)
           (Ret "field not visible and not a tinymce one")
     end ;;
     toggle <- by_id b ("wf_editor_jform_" ++ fname ++ "_toggle") None ;;
     click toggle ;;
     e <- elt_of field "is_displayed" ;;
     call (WaitDisplayed e)
   else Ret tt) ;;
  clear field ;;
  send_keys field value.

(** [select_article_in_popup] (lines 268-295); [article_id] is already an
    [int] at both call sites of the module. *)
Definition select_article_in_popup (article_id : Z) (article_title fname : string)
  : prog unit :=
  let popup_xpath := "//iframe[contains(@src, 'function=" ++ fname ++ "')]" in
  call (WaitFrameAvailable popup_xpath) ;;
  call (Sleep 1) ;;
  let link_xpath :=
    "//a[contains(@onclick, " ++ String PyRepr.dquote
      (fname ++ "('" ++ PyStr.of_Z article_id ++ "'"
       ++ String PyRepr.dquote ")][1]") in
  link <- try_except (by_xpath b link_xpath None)
            is_NoSuchElementException
            (fun _ =>
               search_field <- by_name b "filter[search]" None ;;
               clear search_field ;;
               send_keys search_field article_title ;;
               button <- on search_field "by_xpath" by_xpath
                           "./following-sibling::button" None ;;
               click button ;;
               found <- call (WaitPresence link_xpath) ;;
               Ret (VElt found)) ;;
  click link ;;
  call (WaitNotPresence popup_xpath) ;;
  call SwitchToParentFrame ;;
  call (Sleep 1).

Definition is_bracket (c : ascii) : bool := Ascii.eqb c "[" || Ascii.eqb c "]".

(** [a, b = l[:2]] *)
Definition unpack2 (l : list string) : prog (string * string) :=
  match firstn 2 l with
  | [x; y] => Ret (x, y)
  | _ => Raise (ValueError "not enough values to unpack (expected 2, got 1)")
  end.

(** [int(s)] *)
Definition int_of_str (s : string) : prog Z :=
  match PyStr.to_Z s with
  | Some z => Ret z
  | None => Raise (ValueError ("invalid literal for int() with base 10: "
                               ++ PyRepr.repr_str s))
  end.

(** [fill_association] (lines 297-315) *)
Definition fill_association (fname value : string) : prog unit :=
  names <- unpack2 (PyStr.split_by is_bracket fname) ;;
  let (fname, lang_code) := names in
  field <- by_name b
    ("jform[" ++ fname ++ "][" ++ PyStr.replace_char "_" "-" lang_code ++ "]") None ;;
  ensure_field_tab field ;;
  button <- on field "by_xpath" by_xpath "..//a" None ;;
  click button ;;
  parts <- match PyStr.split_once "-" value with
           | (i, Some t) => Ret (i, t)
           | (_, None) =>
               Raise (ValueError "not enough values to unpack (expected 2, got 1)")
           end ;;
  let (_article_id, _article_title) := parts in
  article_id <- int_of_str _article_id ;;
  let article_title := PyStr.strip _article_title in
  let fname := "jSelectArticle_jform_associations_" ++ lang_code in
  select_article_in_popup article_id article_title fname.

Section FormDriver.

(** [self.fill_field(name, field, value)], the call the dispatch of
    [fill_field] makes when the tag name of the element is [field]: the
    method is entered again with the element as its value. *)
Variable fill_field_again : string -> pyval -> string -> prog unit.

(** [getattr(self, "fill_" + tag)]: the methods of the driver named
    [fill_...]; [fill_association] takes one argument less than the three
    it is called with. *)
Definition filler_named (tag : string)
  : prog (string -> pyval -> string -> prog unit) :=
  if String.eqb tag "input" then Ret fill_input
  else if String.eqb tag "input_text" then Ret fill_input_text
  else if String.eqb tag "input_file" then Ret fill_input_file
  else if String.eqb tag "input_radio" then Ret fill_input_radio
  else if String.eqb tag "select" then Ret fill_select
  else if String.eqb tag "textarea" then Ret fill_textarea
  else if String.eqb tag "field" then Ret fill_field_again
  else if String.eqb tag "association" then
    Ret (fun _ _ _ =>
           Raise (TypeError "fill_association() takes 3 positional arguments but 4 were given"))
  else Raise (AttributeError ("fill_" ++ tag)).

(** The body of the loop of [fill_field] (lines 338-341); [field] is the
    loop variable, overwritten at once. *)
Definition fill_field_body (name value : string) (fields field : pyval)
  : prog unit :=
  field <- getitem fields 0 ;;
  ensure_field_tab field ;;
  tag <- tag_name field ;;
  filler <- filler_named tag ;;
  filler name field value.

(** [fill_field] (lines 332-341) *)
Definition fill_field (name value : string) (jform : bool) : prog unit :=
  let fname := if jform then "jform[" ++ name ++ "]" else name in
  fields <- all_name b fname None ;;
  items <- iter_of fields ;;
  for_each items (fill_field_body name value fields).

(** ** [JoomlaAdminDriver] (admin.py, lines 344-401) *)

(** [open_articles] (lines 370-372) *)
Definition open_articles : prog unit :=
  menu <- jap.menu_contents ;;
  click menu ;;
  entry <- jap.menu_article ;;
  click entry.

(** [add_article], lines 381-392: open the form, fill it, hit save. *)
Definition add_article_submit (fields : list (string * string)) : prog unit :=
  open_articles ;;
  add <- jap.jform_action "article.add" ;;
  click add ;;
  for_each fields
    (fun kv =>
       let (k, v) := kv in
       if PyStr.contains "associations" k then fill_association k v
       else fill_field k v true) ;;
  apply <- jap.jform_action "article.apply" ;;
  click apply.

(** [add_article], lines 393-401: look for the error banner, else read
    the id from the URL. *)
Definition add_article_result : prog string :=
  banner <- jap.jform_error ;;
  (if truthy banner then
     banner_again <- jap.jform_error ;;
     first <- getitem banner_again 0 ;;
     message <- textContent first ;;
     Raise (AdminError message)
   else Ret tt) ;;
  current_url <- call CurrentUrl ;;
  match Urllib.urlparse current_url with
  | inl e => Raise e
  | inr parsed_url =>
      let params := Urllib.parse_qs (Urllib.query parsed_url) in
      match Dict.get "id" params with
      | None => Raise (KeyError "id")
      | Some ids =>
          match nth_error ids 0 with
          | None => Raise (IndexError "list index out of range")
          | Some article_id =>
              cancel <- jap.jform_action "article.cancel" ;;
              click cancel ;;
              Ret article_id
          end
      end
  end.

(** [add_article] (lines 374-401) *)
Definition add_article (fields : list (string * string)) : prog string :=
  add_article_submit fields ;;
  add_article_result.

End FormDriver.

(** ** A small browser to run the programs on

    A page that does not change: what each selector matches, the
    attributes, tag names and texts of its elements, which of them are
    hidden, the address shown and the regular files of the disk. *)
Module Demo.

Definition handle_eqb (x y : handle) : bool :=
  match x, y with
  | Driver, Driver => true
  | WebElement i, WebElement j => Nat.eqb i j
  | _, _ => false
  end.

Definition By_eqb (x y : By) : bool :=
  match x, y with
  | ByTag, ByTag | ByName, ByName | ByCss, ByCss
  | ByXpath, ByXpath | ById, ById => true
  | _, _ => false
  end.

Record page : Type := mkPage {
  matches : list (By * handle * string * list handle);
  attributes : list (handle * string * string);
  hidden : list handle;
  tags : list (handle * string);
  texts : list (handle * string);
  url : string;
  files : list string
}.

Fixpoint matching (by_ : By) (ctx : handle) (selector : string)
    (l : list (By * handle * string * list handle)) : list handle :=
  match l with
  | [] => []
  | (by', ctx', selector', es) :: l' =>
      if By_eqb by' by_ && handle_eqb ctx' ctx && String.eqb selector' selector
      then es else matching by_ ctx selector l'
  end.

Fixpoint attribute (e : handle) (name : string)
    (l : list (handle * string * string)) : option string :=
  match l with
  | [] => None
  | (e', name', v) :: l' =>
      if handle_eqb e' e && String.eqb name' name then Some v
      else attribute e name l'
  end.

Fixpoint property (e : handle) (default : string)
    (l : list (handle * string)) : string :=
  match l with
  | [] => default
  | (e', v) :: l' => if handle_eqb e' e then v else property e default l'
  end.

Definition first_match (by_ : By) (ctx : handle) (selector : string) (p : page)
  : result handle :=
  match matching by_ ctx selector (matches p) with
  | e :: _ => inr e
  | [] => inl NoSuchElementException
  end.

Definition respond (ev : event) (p : page) : result (resp ev) * page :=
  (match ev as ev0 return result (resp ev0) with
   | FindElement by_ ctx selector => first_match by_ ctx selector p
   | FindElements by_ ctx selector => inr (matching by_ ctx selector (matches p))
   | Click _ => inr tt
   | Clear _ => inr tt
   | SendKeys _ _ => inr tt
   | GetAttribute e name => inr (attribute e name (attributes p))
   | IsDisplayed e => inr (negb (existsb (handle_eqb e) (hidden p)))
   | TagName e => inr (property e "div" (tags p))
   | Text e => inr (property e "" (texts p))
   | Get _ => inr tt
   | CurrentUrl => inr (url p)
   | WaitFrameAvailable _ => inr tt
   | WaitPresence xpath =>
       match first_match ByXpath Driver xpath p with
       | inr e => inr e
       | inl _ => inl TimeoutException
       end
   | WaitNotPresence _ => inr tt
   | WaitDisplayed _ => inr tt
   | SwitchToParentFrame => inr tt
   | Sleep _ => inr tt
   | OsPathAbspath f => inr (if PyStr.starts_with "/" f then f else "/home/" ++ f)
   | OsPathExists f => inr (existsb (String.eqb f) (files p))
   | OsPathIsfile f => inr (existsb (String.eqb f) (files p))
   end, p).

(** A page without anything on it. *)
Definition blank : page := mkPage [] [] [] [] [] "about:blank" [].

(** The article form after a save: one text input named [jform[title]],
    two radio buttons named [jform[featured]] whose [value] attributes are
    [0] and [1], a native select, and two selects drawn as search boxes,
    one listing two results and one listing a single result; [banner]
    tells whether the page shows an error banner. *)
Definition article_form (banner : bool) : page :=
  mkPage
    ([ (ByXpath, Driver,
        "//a[contains(@class, 'menu-article')]/ancestor::ul/preceding-sibling::a",
        [WebElement 1]);
       (ByCss, Driver, "a.menu-article", [WebElement 2]);
       (ByXpath, Driver, "//button[contains(@onclick, 'article.add')]", [WebElement 3]);
       (ByXpath, Driver, "//button[contains(@onclick, 'article.apply')]", [WebElement 4]);
       (ByXpath, Driver, "//button[contains(@onclick, 'article.cancel')]", [WebElement 5]);
       (ByName, Driver, "jform[title]", [WebElement 10]);
       (ByName, Driver, "jform[featured]", [WebElement 20; WebElement 21]);
       (ByName, Driver, "jform[state]", [WebElement 30]);
       (ByXpath, WebElement 30, ".//option[@value='1']", [WebElement 31]);
       (ByName, Driver, "jform[catid]", [WebElement 40]);
       (ByXpath, WebElement 40, ".//option[@value='8']", [WebElement 41]);
       (ById, Driver, "jform_catid_chzn", [WebElement 42]);
       (ByTag, WebElement 42, "a", [WebElement 43]);
       (ByTag, WebElement 42, "input", [WebElement 44]);
       (ByCss, WebElement 42, ".chzn-results", [WebElement 45]);
       (ByTag, WebElement 45, "li", [WebElement 46; WebElement 47]);
       (ByName, Driver, "jform[language]", [WebElement 60]);
       (ByXpath, WebElement 60, ".//option[@value='fr-FR']", [WebElement 61]);
       (ById, Driver, "jform_language_chzn", [WebElement 62]);
       (ByTag, WebElement 62, "a", [WebElement 63]);
       (ByTag, WebElement 62, "input", [WebElement 64]);
       (ByCss, WebElement 62, ".chzn-results", [WebElement 65]);
       (ByTag, WebElement 65, "li", [WebElement 66]) ]
     ++ (if banner then [(ByCss, Driver, ".alert-error", [WebElement 6])] else []))%list
    [ (WebElement 10, "type", "text");
      (WebElement 20, "type", "radio"); (WebElement 20, "value", "0");
      (WebElement 21, "type", "radio"); (WebElement 21, "value", "1");
      (WebElement 41, "text", "News"); (WebElement 61, "text", "French") ]
    [ WebElement 40; WebElement 60 ]
    [ (WebElement 10, "input"); (WebElement 20, "input"); (WebElement 21, "input");
      (WebElement 30, "select"); (WebElement 40, "select"); (WebElement 60, "select") ]
    [ (WebElement 6, "Save failed with the following error: Title is required");
      (WebElement 41, "News"); (WebElement 61, "French") ]
    "http://joomla.test/administrator/index.php?option=com_content&view=article&layout=edit&id=42"
    [ "/home/report.pdf" ].

(** Nothing re-enters [fill_field] on these pages. *)
Definition again (name : string) (field : pyval) (value : string) : prog unit :=
  Raise (TypeError "fill_field entered with an element as value").

End Demo.


(** ** Scripts of calls used to state the properties *)

(** The four lookups that return the list of all the elements found. *)
Definition is_plural (l : lookup) : bool :=
  match l with
  | All_tag | All_name | All_css | All_xpath => true
  | By_tag | By_name | By_css | By_xpath | By_id => false
  end.

(** What Selenium answers the find under [l] when the selector matches
    no element: [find_element_by_...] raises NoSuchElementException,
    [find_elements_by_...] returns the empty list. *)
Definition no_match (l : lookup) (self : handle) (selector : string) : answer :=
  match l with
  | By_tag => fails (FindElement ByTag self selector) NoSuchElementException
  | All_tag => gives (FindElements ByTag self selector) []
  | By_name => fails (FindElement ByName self selector) NoSuchElementException
  | All_name => gives (FindElements ByName self selector) []
  | By_css => fails (FindElement ByCss self selector) NoSuchElementException
  | All_css => gives (FindElements ByCss self selector) []
  | By_xpath => fails (FindElement ByXpath self selector) NoSuchElementException
  | All_xpath => gives (FindElements ByXpath self selector) []
  | By_id => fails (FindElement ById self selector) NoSuchElementException
  end.

(** The calls of [fill_select] on a select drawn as a search box, up to
    the listing of the results, with their answers: the option is found,
    the field is not displayed, the text of the option is typed into the
    box of the widget. *)
Definition chosen_search (fname : string) (field : handle) (value : string)
    (opt sel link box listing : handle) (txt : string) (results : list handle)
  : list answer :=
  [ gives (FindElement ByXpath field (".//option[@value='" ++ value ++ "']")) opt;
    gives (IsDisplayed field) false;
    gives (GetAttribute opt "text") (Some txt);
    gives (FindElement ById b ("jform_" ++ fname ++ "_chzn")) sel;
    gives (FindElement ByTag sel "a") link;
    gives (Click link) tt;
    gives (FindElement ByTag sel "input") box;
    gives (SendKeys box txt) tt;
    gives (FindElement ByCss sel ".chzn-results") listing;
    gives (FindElements ByTag listing "li") results ].

(** The calls [fill_input_file] makes before it gives up on a path that
    does not exist, or that is not a regular file. *)
Definition file_checks (field : handle) (value fpath : string) (exists_ : bool)
  : list event :=
  ([Clear field; OsPathAbspath value; OsPathExists fpath]
   ++ (if exists_ then [OsPathIsfile fpath] else []))%list.

Definition not_a_file_message (value : string) (exists_ : bool) : string :=
  if exists_ then value ++ " is not a file, can't feed it as an upload value"
  else value ++ " does not exists, can't feed it as an upload value".

(** Tab activation and filler dispatch applied to one element, as one
    round of the loop of [fill_field] applies them. *)
Definition fill_element (again : string -> pyval -> string -> prog unit)
    (name value : string) (field : handle) : prog unit :=
  ensure_field_tab (VElt field) ;;
  tag <- tag_name (VElt field) ;;
  filler <- filler_named again tag ;;
  filler name (VElt field) value.

(** The name [fill_field] looks the elements up by. *)
Definition field_name (name : string) (jform : bool) : string :=
  if jform then "jform[" ++ name ++ "]" else name.

(** The same program [n] times in a row. *)
Fixpoint times (n : nat) (p : prog unit) : prog unit :=
  match n with
  | O => Ret tt
  | S n' => p ;; times n' p
  end.

(** A run that comes after the call [ev]. *)
Definition after {World A : Type} (ev : event)
    (r : result A * World * list event) : result A * World * list event :=
  let '(out, w, tr) := r in (out, w, ev :: tr).

(** ** Notions used to state the properties of [update_url_params] *)

(** The first character of a string, if any, fails [p]. *)
Definition stops (p : ascii -> bool) (s : string) : Prop :=
  match s with
  | EmptyString => True
  | String c _ => p c = false
  end.

(** A scheme as [urlsplit] returns it: scheme characters, in lower case. *)
Definition good_scheme (s : string) : Prop :=
  PyStr.all_chars Urllib.scheme_char s = true /\ PyStr.lower s = s.

(** [s[1:]] *)
Definition tail (s : string) : string :=
  match s with
  | EmptyString => EmptyString
  | String _ t => t
  end.

(** The path with its parameters, as [urlunparse] joins them. *)
Definition path_with_params (p : Urllib.ParseResult) : string :=
  if negb (PyStr.is_empty (Urllib.params p))
  then Urllib.path p ++ ";" ++ Urllib.params p
  else Urllib.path p.

(** What [urlparse] returns for a URL that names a host: a good scheme, a
    network location without [/], [?] and [#], a path that is empty or
    starts with a slash and that, joined with its parameters, is cut by
    [urlparse] in the same way again. *)
Record hosted (p : Urllib.ParseResult) : Prop := mkHosted {
  hosted_scheme : good_scheme (Urllib.scheme p);
  hosted_netloc : Urllib.netloc p <> ""
                  /\ PyStr.all_chars Urllib.netloc_char (Urllib.netloc p) = true
                  /\ Urllib.invalid_brackets (Urllib.netloc p) = false;
  hosted_path : stops Urllib.netloc_char (path_with_params p)
                /\ PyStr.mem "#" (path_with_params p) = false
                /\ PyStr.mem "?" (path_with_params p) = false;
  hosted_params :
    (if Urllib.in_list (Urllib.scheme p) Urllib.uses_params
        && PyStr.mem ";" (path_with_params p)
     then Urllib._splitparams (path_with_params p)
     else (path_with_params p, "")) = (Urllib.path p, Urllib.params p);
  hosted_query : PyStr.mem "#" (Urllib.query p) = false
}.

(** The characters [quote_plus] writes: the safe ones, [+] and [%]. *)
Definition quoted_char (c : ascii) : bool :=
  Urllib.always_safe c || Ascii.eqb c "+" || Ascii.eqb c "%".

(** The characters of a query built by [urlencode] *)
Definition query_char (c : ascii) : bool :=
  quoted_char c || Ascii.eqb c "=" || Ascii.eqb c "&".

(** One [name=value] field of [urlencode] *)
Definition encoded (kv : string * qvalue) : string :=
  Urllib.quote_plus (fst kv) ++ "=" ++ Urllib.quote_plus (PyRepr.str (snd kv)).

(** The text of the value is empty: [parse_qs] drops such a field. *)
Definition blank (kv : string * qvalue) : bool :=
  PyStr.is_empty (PyRepr.str (snd kv)).

(** What [parse_qs] reads back from one field of [urlencode] *)
Definition read_back (kv : string * qvalue) : string * list string :=
  (fst kv, [PyRepr.str (snd kv)]).

(** [k in d] *)
Definition key_in {V} (k : string) (d : Dict.t V) : bool :=
  existsb (String.eqb k) (Dict.keys d).

(** No key occurs twice, as in any [dict]. *)
Fixpoint unique_keys {V} (d : Dict.t V) : bool :=
  match d with
  | [] => true
  | (k, _) :: d' => negb (key_in k d') && unique_keys d'
  end.

(** The items of [d], each with the value [other] gives its key if it
    gives one. *)
Definition overwrite {V} (other d : Dict.t V) : Dict.t V :=
  map (fun kv => (fst kv, match Dict.get (fst kv) other with
                          | Some v => v
                          | None => snd kv
                          end)) d.

(** The items of [other] whose key is not in [d]. *)
Definition fresh {V} (d other : Dict.t V) : Dict.t V :=
  filter (fun kv => negb (key_in (fst kv) d)) other.

(** * The rest of the module *)

(** ** [chord] (admin.py, lines 45-59)

    The calls made on the [ActionChains] object before [perform] sends
    them to the browser. *)
Inductive chain_call : Type :=
| key_down (k : string)
| chain_send_keys (keys : string)
| key_up (k : string).

(** [Keys.CONTROL], the code point U+E009 *)
Definition Keys_CONTROL : string :=
  String (ascii_of_nat 238) (String (ascii_of_nat 128)
    (String (ascii_of_nat 137) EmptyString)).

(** The first argument of [chord]: a list of keys, or anything else,
    taken to be one key. *)
Inductive ctrl_keys_arg : Type :=
| OneKey (k : string)
| KeyList (l : list string).

(** [chord(ctrl_keys, key, driver)]: the chain it performs. *)
Definition chord (ctrl_keys : ctrl_keys_arg) (key : string) : list chain_call :=
  let ctrl_keys :=
    match ctrl_keys with
    | KeyList l => l
    | OneKey k => [k]
    end in
  let a := [] in
  let a := fold_left (fun a k => (a ++ [key_down k])%list) ctrl_keys a in
  let a := (a ++ [chain_send_keys key])%list in
  let a := fold_left (fun a k => (a ++ [key_up Keys_CONTROL])%list) (rev ctrl_keys) a in
  a.

(** ** [Browser.abs_url], [login], [logout], [modify_article] and
    [add_attachment] (admin.py, lines 136-137 and 357-459) *)

Section AdminDriver.

(** [urllib.parse.urljoin], and the [base_url] the browser was made with *)
Variable urljoin : string -> string -> string.
Variable base_url : string.

(** As in [filler_named], the call that enters [fill_field] again *)
Variable fill_field_again : string -> pyval -> string -> prog unit.

(** [Browser.abs_url] (lines 136-137) *)
Definition abs_url (relative : string) : string := urljoin base_url relative.

(** [login] (lines 357-364) *)
Definition login (username passwd : string) : prog unit :=
  call (Get (abs_url "/administrator")) ;;
  user_box <- by_name b "username" None ;;
  send_keys user_box username ;;
  passwd_box <- by_name b "passwd" None ;;
  send_keys passwd_box passwd ;;
  button <- by_css b "button.btn-primary" None ;;
  click button ;;
  link <- jap.logout ;;
  assert_ (truthy link) (Ret "No logout, after login, so it may have went wrong").

(** [logout] (lines 366-368) *)
Definition logout : prog unit :=
  menu <- jap.menu_user ;;
  click menu ;;
  link <- jap.logout ;;
  click link.

(** [self.b.jaction_link]: [jaction_link] is a method of
    [JoomlaAdminParts]; the [Browser] has no attribute of that name, and
    [__getattr__] asks the web driver, which has none either. *)
Definition b_jaction_link : prog (string -> prog pyval) :=
  Raise (AttributeError "jaction_link").

(** [update_url_params(edit_url, id=id)] on what [get_attribute] returned:
    with [None], [urlunparse] is handed [bytes] and a [str]. *)
Definition update_edit_url (edit_url : option string) (id : qvalue) : prog string :=
  match edit_url with
  | Some u =>
      match update_url_params u [("id", id)] with
      | inl e => Raise e
      | inr u' => Ret u'
      end
  | None => Raise (TypeError "Cannot mix str and non-str arguments")
  end.

(** The error check after a save, written out in [add_article],
    [modify_article] and [add_attachment] alike (lines 393-394, 424-425,
    451-452) *)
Definition raise_on_error : prog unit :=
  banner <- jap.jform_error ;;
  if truthy banner then
    banner_again <- jap.jform_error ;;
    first <- getitem banner_again 0 ;;
    message <- textContent first ;;
    Raise (AdminError message)
  else Ret tt.

(** [modify_article] (lines 403-426) *)
Definition modify_article (id : qvalue) (fields : list (string * string))
  : prog qvalue :=
  open_articles ;;
  jaction_link <- b_jaction_link ;;
  link <- jaction_link "article.edit" ;;
  edit_url <- get_attribute link "href" ;;
  edit_url <- update_edit_url edit_url id ;;
  call (Get (abs_url edit_url)) ;;
  for_each fields
    (fun kv =>
       let (k, v) := kv in
       if PyStr.contains "associations" k then fill_association k v
       else fill_field fill_field_again k v true) ;;
  save <- jap.jform_action "article.save" ;;
  click save ;;
  raise_on_error ;;
  Ret id.

(** [params[key][0]] on the address the browser shows (lines 396-398 and
    454-456) *)
Definition url_param (key : string) : prog string :=
  current_url <- call CurrentUrl ;;
  match Urllib.urlparse current_url with
  | inl e => Raise e
  | inr parsed_url =>
      let params := Urllib.parse_qs (Urllib.query parsed_url) in
      match Dict.get key params with
      | None => Raise (KeyError key)
      | Some values =>
          match nth_error values 0 with
          | None => Raise (IndexError "list index out of range")
          | Some v => Ret v
          end
      end
  end.

(** [add_attachment], lines 436-450, for an [int] article id: open the
    form, choose the article, fill the fields, hit save. *)
Definition add_attachment_submit (article_id : Z) (article_title : string)
    (fields : list (string * string)) : prog unit :=
  menu <- jap.menu_components ;;
  click menu ;;
  entry <- jap.menu_attachments ;;
  click entry ;;
  add <- jap.jform_action "attachment.add" ;;
  click add ;;
  chooser <- by_xpath b "//a[contains(@href, 'function=jSelectArticle')]" None ;;
  click chooser ;;
  select_article_in_popup article_id article_title "jSelectArticle" ;;
  for_each fields (fun kv => let (k, v) := kv in fill_field fill_field_again k v false) ;;
  apply <- jap.jform_action "attachment.applyNew" ;;
  click apply.

(** [add_attachment], lines 451-459: look for the error banner, else read
    the id from the URL. *)
Definition add_attachment_result : prog string :=
  raise_on_error ;;
  attachment_id <- url_param "cid[]" ;;
  cancel <- jap.jform_action "attachment.cancel" ;;
  click cancel ;;
  Ret attachment_id.

(** [add_attachment] (lines 428-459) *)
Definition add_attachment (article_id : Z) (article_title : string)
    (fields : list (string * string)) : prog string :=
  add_attachment_submit article_id article_title fields ;;
  add_attachment_result.

End AdminDriver.

(** ** Properties of all the runs of a program *)

Section History.
Variable World : Type.
Variable respond : forall ev : event, World -> result (resp ev) * World.

(** The calls of a run with the answers they got, in order. *)
Fixpoint history {A} (p : prog A) (w : World) : list answer :=
  match p with
  | Ret _ => []
  | Raise _ => []
  | Vis ev k =>
      let (r, w1) := respond ev w in
      existT _ ev r :: history (k r) w1
  end.
End History.

Arguments history {World} respond {A} p w.

(** [always P p]: whatever the browser answers, the calls of [p] with
    their answers and its outcome satisfy [P]. *)
Fixpoint always {A} (P : list answer -> result A -> Prop) (p : prog A) : Prop :=
  match p with
  | Ret a => P [] (inr a)
  | Raise e => P [] (inl e)
  | Vis ev k =>
      forall r : result (resp ev),
        always (fun h out => P (existT _ ev r :: h) out) (k r)
  end.

(** The calls that were made, and the actions among them. *)
Definition calls (h : list answer) : list event := map asked h.
Definition actions (h : list answer) : list event := filter is_action (calls h).

(** The call was answered by an exception. *)
Definition failed (a : answer) : bool :=
  match projT2 a with
  | inl _ => true
  | inr _ => false
  end.

(** The two selectors of [select_article_in_popup] *)
Definition popup_xpath (fname : string) : string :=
  "//iframe[contains(@src, 'function=" ++ fname ++ "')]".

Definition link_xpath (fname : string) (article_id : Z) : string :=
  "//a[contains(@onclick, " ++ String PyRepr.dquote
    (fname ++ "('" ++ PyStr.of_Z article_id ++ "'"
     ++ String PyRepr.dquote ")][1]").


(** No character of [s] is a bracket. *)
Definition no_bracket (s : string) : bool :=
  PyStr.all_chars (fun c => negb (is_bracket c)) s.

(** The keys [chord] presses: its first argument, made a list. *)
Definition pressed (ctrl_keys : ctrl_keys_arg) : list string :=
  match ctrl_keys with
  | KeyList l => l
  | OneKey k => [k]
  end.

(** ** A browser that answers from a script *)

(** Equality of calls is decidable. *)
Definition handle_eq_dec (x y : handle) : {x = y} + {x <> y}.
Proof. decide equality. apply Nat.eq_dec. Defined.

Definition By_eq_dec (x y : By) : {x = y} + {x <> y}.
Proof. decide equality. Defined.

Definition event_eq_dec (x y : event) : {x = y} + {x <> y}.
Proof.
  decide equality;
    first [apply string_dec | apply handle_eq_dec | apply Nat.eq_dec
          | apply By_eq_dec].
Defined.

(** The browser holds the answered calls it expects, in order; it answers
    the call at the head of the script as written there, and any other
    call with a WebDriverException, the script left as it is. *)
Definition replay (ev : event) (script : list answer)
  : result (resp ev) * list answer :=
  match script with
  | existT _ ev' r :: rest =>
      match event_eq_dec ev' ev with
      | left same => (eq_rect ev' (fun x => result (resp x)) r ev same, rest)
      | right _ => (inl (WebDriverException "unexpected call"), script)
      end
  | [] => (inl (WebDriverException "unexpected call"), script)
  end.

(** Scripts for [add_attachment]: the calls up to the save, with a
    popup that lists the article at once and one text field to fill; the
    calls after a save that went through; the calls after a save that left
    an error banner. *)
Module Script.

Definition attachment_submit : list answer :=
  [ gives (FindElement ByXpath b
             "//a[contains(@class, 'menu-tags')]/ancestor::ul/preceding-sibling::a")
          (WebElement 1);
    gives (Click (WebElement 1)) tt;
    gives (FindElement ByCss b "a.menu-attachments") (WebElement 2);
    gives (Click (WebElement 2)) tt;
    gives (FindElement ByXpath b "//button[contains(@onclick, 'attachment.add')]")
          (WebElement 3);
    gives (Click (WebElement 3)) tt;
    gives (FindElement ByXpath b "//a[contains(@href, 'function=jSelectArticle')]")
          (WebElement 4);
    gives (Click (WebElement 4)) tt;
    gives (WaitFrameAvailable (popup_xpath "jSelectArticle")) tt;
    gives (Sleep 1) tt;
    gives (FindElement ByXpath b (link_xpath "jSelectArticle" 42)) (WebElement 7);
    gives (Click (WebElement 7)) tt;
    gives (WaitNotPresence (popup_xpath "jSelectArticle")) tt;
    gives SwitchToParentFrame tt;
    gives (Sleep 1) tt;
    gives (FindElements ByName b "display_name") [WebElement 20];
    gives (IsDisplayed (WebElement 20)) true;
    gives (TagName (WebElement 20)) "input";
    gives (GetAttribute (WebElement 20) "type") None;
    gives (Clear (WebElement 20)) tt;
    gives (SendKeys (WebElement 20) "Report") tt;
    gives (FindElement ByXpath b "//button[contains(@onclick, 'attachment.applyNew')]")
          (WebElement 5);
    gives (Click (WebElement 5)) tt ].

Definition attachment_saved : list answer :=
  [ fails (FindElement ByCss b ".alert-error") NoSuchElementException;
    gives CurrentUrl
      "http://joomla.test/administrator/index.php?option=com_attachments&task=attachment.edit&cid[]=7";
    gives (FindElement ByXpath b "//button[contains(@onclick, 'attachment.cancel')]")
          (WebElement 6);
    gives (Click (WebElement 6)) tt ].

Definition attachment_refused : list answer :=
  [ gives (FindElement ByCss b ".alert-error") (WebElement 9);
    gives (FindElement ByCss b ".alert-error") (WebElement 9) ].

End Script.

(** * Properties *)

(** Facts on single characters are checked on all of them. *)
Ltac all_ascii c :=
  destruct c as [[] [] [] [] [] [] [] []]; try reflexivity; try discriminate.

(** ** Strings *)

Section StringFacts.
Import PyStr.

Lemma append_assoc (a b c : string) : (a ++ b) ++ c = a ++ (b ++ c).
Proof. induction a as [| x a IH]; simpl; [reflexivity | now rewrite IH]. Qed.

Lemma append_empty_r (a : string) : a ++ "" = a.
Proof. induction a as [| x a IH]; simpl; [reflexivity | now rewrite IH]. Qed.

Lemma is_empty_true (s : string) : is_empty s = true <-> s = "".
Proof. destruct s; simpl; split; congruence. Qed.

Lemma is_empty_false (s : string) : is_empty s = false <-> s <> "".
Proof. destruct s; simpl; split; congruence. Qed.

Lemma mem_app (c : ascii) (a b : string) : mem c (a ++ b) = mem c a || mem c b.
Proof.
  induction a as [| x a IH]; simpl; [reflexivity |].
  now rewrite IH, orb_assoc.
Qed.

Lemma all_chars_app (p : ascii -> bool) (a b : string) :
  all_chars p (a ++ b) = all_chars p a && all_chars p b.
Proof.
  induction a as [| x a IH]; simpl; [reflexivity |].
  now rewrite IH, andb_assoc.
Qed.

(** A string made of characters satisfying [p] holds no character that
    fails it. *)
Lemma all_chars_not_mem (p : ascii -> bool) (c : ascii) (s : string) :
  all_chars p s = true -> p c = false -> mem c s = false.
Proof.
  intros Hs Hc. induction s as [| x s IH]; simpl in *; [reflexivity |].
  apply andb_true_iff in Hs as [Hx Hs]. rewrite (IH Hs), orb_false_r.
  destruct (Ascii.eqb_spec x c) as [-> | _]; [congruence | reflexivity].
Qed.

Lemma all_chars_weaken (p q : ascii -> bool) (s : string) :
  (forall c, p c = true -> q c = true) ->
  all_chars p s = true -> all_chars q s = true.
Proof.
  intros Hpq. induction s as [| x s IH]; simpl; [reflexivity |].
  intro H. apply andb_true_iff in H as [Hx Hs].
  now rewrite (Hpq _ Hx), (IH Hs).
Qed.

(** [split_once] cuts at the first occurrence. *)
Lemma split_once_found (c : ascii) (a b : string) :
  mem c a = false -> split_once c (a ++ String c b) = (a, Some b).
Proof.
  induction a as [| x a IH]; simpl; intro H.
  - now rewrite Ascii.eqb_refl.
  - apply orb_false_iff in H as [Hx Ha]. rewrite Hx, (IH Ha). reflexivity.
Qed.

Lemma split_once_absent (c : ascii) (s : string) :
  mem c s = false -> split_once c s = (s, None).
Proof.
  induction s as [| x s IH]; simpl; intro H; [reflexivity |].
  apply orb_false_iff in H as [Hx Hs]. rewrite Hx, (IH Hs). reflexivity.
Qed.

Lemma split_once_some (c : ascii) (s h t : string) :
  split_once c s = (h, Some t) -> s = h ++ String c t /\ mem c h = false.
Proof.
  revert h. induction s as [| x s IH]; simpl; intros h H; [discriminate |].
  destruct (Ascii.eqb_spec x c) as [-> | Hx].
  - inversion H; subst. split; reflexivity.
  - destruct (split_once c s) as [h' t'] eqn:E. inversion H; subst.
    destruct (IH h' eq_refl) as [-> Hm]. split; [reflexivity |].
    simpl. rewrite Hm, orb_false_r. now apply Ascii.eqb_neq.
Qed.

Lemma split_once_none (c : ascii) (s h : string) :
  split_once c s = (h, None) -> h = s /\ mem c s = false.
Proof.
  revert h. induction s as [| x s IH]; simpl; intros h H.
  - inversion H. split; reflexivity.
  - destruct (Ascii.eqb_spec x c) as [-> | Hx]; [discriminate |].
    destruct (split_once c s) as [h' t'] eqn:E. inversion H; subst.
    destruct (IH h' eq_refl) as [-> Hm]. split; [reflexivity |].
    now rewrite Hm.
Qed.

Lemma span_app (p : ascii -> bool) (a b : string) :
  all_chars p a = true -> stops p b -> span p (a ++ b) = (a, b).
Proof.
  intros Ha Hb. induction a as [| x a IH]; simpl in *.
  - destruct b as [| y b]; simpl in *; [reflexivity | now rewrite Hb].
  - apply andb_true_iff in Ha as [Hx Ha]. rewrite Hx, (IH Ha). reflexivity.
Qed.

Lemma span_spec (p : ascii -> bool) (s h t : string) :
  span p s = (h, t) -> s = h ++ t /\ all_chars p h = true /\ stops p t.
Proof.
  revert h t. induction s as [| x s IH]; simpl; intros h t H.
  - inversion H. repeat split.
  - destruct (p x) eqn:Hx.
    + destruct (span p s) as [h' t'] eqn:E. inversion H; subst.
      destruct (IH h' t eq_refl) as (-> & Hh & Ht). simpl. rewrite Hx. auto.
    + inversion H; subst. simpl. auto.
Qed.

Lemma starts_with_app (p s : string) : starts_with p (p ++ s) = true.
Proof.
  induction p as [| x p IH]; simpl; [reflexivity |].
  now rewrite Ascii.eqb_refl, IH.
Qed.

End StringFacts.

(** ** [urlparse] on what [urlunparse] assembled *)

Section ReparseFacts.
Import PyStr Urllib.

Lemma scheme_char_lower (c : ascii) :
  scheme_char c = true ->
  scheme_char (lower_char c) = true /\ lower_char (lower_char c) = lower_char c.
Proof. all_ascii c; intros _; split; reflexivity. Qed.

Lemma scheme_lower (s : string) :
  all_chars scheme_char s = true ->
  all_chars scheme_char (lower s) = true /\ lower (lower s) = lower s.
Proof.
  unfold lower. induction s as [| x s IH]; simpl; intro H; [split; reflexivity |].
  apply andb_true_iff in H as [Hx Hs].
  destruct (scheme_char_lower x Hx) as [H1 H2], (IH Hs) as [H3 H4].
  now rewrite H1, H2, H3, H4.
Qed.

(** The scheme [urlsplit] finds is made of scheme characters and is in
    lower case. *)
Lemma split_scheme_good (url s rest : string) :
  split_scheme url = (s, rest) -> good_scheme s.
Proof.
  unfold split_scheme, good_scheme.
  destruct (split_once ":" url) as [pre [r |]] eqn:E; intro H.
  - destruct (is_empty pre); [inversion H; split; reflexivity |].
    destruct (String.eqb_spec pre "http") as [-> | _].
    + inversion H. split; reflexivity.
    + destruct (all_chars scheme_char pre) eqn:Hp;
        [| inversion H; split; reflexivity].
      destruct (is_empty r || negb (all_chars is_digit r));
        inversion H; subst; [apply scheme_lower, Hp | split; reflexivity].
  - inversion H. split; reflexivity.
Qed.

(** Put back in front of a network location, a good scheme is found again. *)
Lemma split_scheme_again (s rest : string) :
  good_scheme s ->
  split_scheme ((if negb (is_empty s) then s ++ ":" else "") ++ "//" ++ rest)
  = (s, "//" ++ rest).
Proof.
  intros [Hs Hl]. unfold split_scheme.
  destruct s as [| c s]; cbn [is_empty negb].
  - simpl. destruct (split_once ":" rest) as [h [t |]]; reflexivity.
  - rewrite append_assoc.
    change (":" ++ "//" ++ rest) with (String ":" ("//" ++ rest)).
    rewrite split_once_found
      by (apply (all_chars_not_mem scheme_char); [exact Hs | reflexivity]).
    cbn [is_empty]. rewrite Hl.
    destruct (String.eqb (String c s) "http"); [reflexivity |].
    rewrite Hs. reflexivity.
Qed.

End ReparseFacts.

Section ParamsFacts.
Import PyStr Urllib.
Local Arguments Ascii.eqb : simpl never.

Lemma rsplit_slash_spec (s h t : string) :
  rsplit_slash s = (h, t) ->
  s = h ++ t /\ mem "/" (tail t) = false
  /\ (h = "" \/ starts_with "/" t = true).
Proof.
  revert h t. induction s as [| x s IH]; simpl; intros h t H.
  - inversion H. auto.
  - destruct (rsplit_slash s) as [h' t'] eqn:E.
    destruct (mem "/" s) eqn:Hm; inversion H; subst; clear H.
    + destruct (IH h' t eq_refl) as (-> & Ht & Hh). repeat split; auto.
      right. destruct Hh as [-> | Hh]; [| exact Hh].
      simpl in Hm. destruct t as [| y t]; simpl in *; [discriminate |].
      rewrite Ht, orb_false_r in Hm. apply Ascii.eqb_eq in Hm. now subst y.
    + simpl. auto.
Qed.

Lemma rsplit_slash_unique (h t : string) :
  mem "/" (tail t) = false ->
  h = "" \/ starts_with "/" t = true ->
  rsplit_slash (h ++ t) = (h, t).
Proof.
  intros Ht Hh. induction h as [| x h IH]; simpl.
  - destruct t as [| y t]; simpl in *; [reflexivity |].
    destruct (rsplit_slash t). now rewrite Ht.
  - destruct Hh as [Hh | Hh]; [discriminate |].
    rewrite IH by (right; exact Hh).
    assert (Hm : mem "/" (h ++ t) = true).
    { rewrite mem_app. destruct t as [| y t]; simpl in *; [discriminate |].
      apply andb_true_iff in Hh as [Hy _]. apply Ascii.eqb_eq in Hy. subst y.
      rewrite Ascii.eqb_refl. apply orb_true_r. }
    now rewrite Hm.
Qed.

(** Joined again, the path and the parameters that [_splitparams] found
    are cut at the same place. *)
Lemma splitparams_stable (pa a b : string) :
  _splitparams pa = (a, b) ->
  let pp := if negb (is_empty b) then a ++ ";" ++ b else a in
  (pp = pa \/ pp ++ ";" = pa)
  /\ (mem ";" pp = true -> _splitparams pp = (a, b))
  /\ (mem ";" pp = false -> b = "").
Proof.
  unfold _splitparams. destruct (rsplit_slash pa) as [h t] eqn:E.
  destruct (rsplit_slash_spec _ _ _ E) as (-> & Ht & Hh).
  destruct (split_once ";" t) as [p1 [q |]] eqn:Es; intro H;
    injection H as Ha Hb; subst a b.
  - destruct (split_once_some _ _ _ _ Es) as [-> Hp1].
    destruct q as [| c q]; cbn [is_empty negb].
    + (* the path ended with a semicolon *)
      assert (Hr : rsplit_slash (h ++ p1) = (h, p1)).
      { apply rsplit_slash_unique.
        - destruct p1 as [| y p1]; simpl in *; [reflexivity |].
          rewrite mem_app in Ht. now apply orb_false_iff in Ht.
        - destruct Hh as [-> | Hh]; [now left | right].
          destruct p1 as [| y p1]; simpl in *; [discriminate | exact Hh]. }
      repeat split.
      * right. now rewrite append_assoc.
      * intros _. rewrite Hr, (split_once_absent _ _ Hp1). reflexivity.
    + repeat split.
      * left. now rewrite append_assoc.
      * intros _. change (";" ++ String c q) with (String ";" (String c q)).
        rewrite append_assoc.
        rewrite (rsplit_slash_unique h (p1 ++ String ";" (String c q)) Ht Hh).
        rewrite (split_once_found _ _ _ Hp1). reflexivity.
      * rewrite !mem_app. simpl. rewrite orb_true_r. discriminate.
  - repeat split; cbn [is_empty negb]; auto.
    intros _. rewrite E, Es. reflexivity.
Qed.

End ParamsFacts.

Section HostedFacts.
Import PyStr Urllib.
Local Arguments Ascii.eqb : simpl never.

Lemma split_off_spec (c : ascii) (s u x : string) :
  split_off c s = (u, x) ->
  mem c u = false /\ ((s = u /\ x = "") \/ s = u ++ String c x).
Proof.
  unfold split_off. destruct (split_once c s) as [h [t |]] eqn:E;
    intro H; injection H as <- <-.
  - destruct (split_once_some _ _ _ _ E) as [-> Hm]. auto.
  - destruct (split_once_none _ _ _ E) as [-> Hm]. auto.
Qed.

(** [split_off] undoes the joining of a part that holds no [c] with what
    follows it, when something follows. *)
Lemma split_off_joined (c : ascii) (a b : string) :
  mem c a = false ->
  split_off c (a ++ (if negb (is_empty b) then String c b else "")) = (a, b).
Proof.
  intro H. unfold split_off. destruct b as [| y b]; cbn [is_empty negb].
  - now rewrite append_empty_r, (split_once_absent _ _ H).
  - now rewrite (split_once_found _ _ _ H).
Qed.

Lemma stops_prefix (p : ascii -> bool) (a b : string) :
  stops p (a ++ b) -> stops p a.
Proof. destruct a; simpl; auto. Qed.

Lemma stops_app (p : ascii -> bool) (a b : string) :
  stops p a -> stops p b -> stops p (a ++ b).
Proof. destruct a; simpl; auto. Qed.

(** A path that stops a network location and holds neither [?] nor [#]
    is empty or starts with a slash. *)
Lemma stops_netloc_slash (pp : string) :
  stops netloc_char pp -> mem "#" pp = false -> mem "?" pp = false ->
  negb (is_empty pp) && negb (starts_with "/" pp) = false.
Proof.
  destruct pp as [| c pp]; [reflexivity |].
  cbn [stops mem is_empty negb starts_with andb]. intros Hc H1 H2.
  apply orb_false_iff in H1 as [H1 _]. apply orb_false_iff in H2 as [H2 _].
  unfold netloc_char in Hc. cbn [mem] in Hc.
  rewrite (Ascii.eqb_sym "?" c), (Ascii.eqb_sym "#" c), H1, H2 in Hc.
  destruct (Ascii.eqb "/" c); [reflexivity | discriminate].
Qed.

(** What [urlparse] returns for a URL with a network location. *)
Lemma urlparse_hosted (url : string) (p : ParseResult) :
  urlparse url = inr p -> netloc p <> "" -> hosted p.
Proof.
  unfold urlparse, urlsplit.
  destruct (split_scheme url) as [s r0] eqn:Es.
  pose proof (split_scheme_good _ _ _ Es) as Hs.
  destruct (starts_with "//" r0) eqn:E2.
  2: { cbn [invalid_brackets mem andb orb negb].
       destruct (split_off "#" r0) as [u f], (split_off "?" u) as [pa q].
       destruct (in_list s uses_params && mem ";" pa);
         [destruct (_splitparams pa) |];
         intros H Hn; injection H as <-; now elim Hn. }
  destruct (_splitnetloc r0) as [n r1] eqn:En.
  destruct (invalid_brackets n) eqn:Eb; [discriminate |].
  destruct (split_off "#" r1) as [u f] eqn:Ef.
  destruct (split_off "?" u) as [pa q] eqn:Eq.
  destruct r0 as [| c0 [| c1 r0]]; cbn [starts_with] in E2;
    rewrite ?andb_false_r in E2; try discriminate.
  cbn [_splitnetloc] in En.
  destruct (span_spec _ _ _ _ En) as (_ & Hn & Hr1).
  destruct (split_off_spec _ _ _ _ Ef) as (Hu & Hru).
  destruct (split_off_spec _ _ _ _ Eq) as (Hpa & Hupa).
  assert (Hsu : stops netloc_char u).
  { destruct Hru as [[-> _] | ->]; [exact Hr1 | exact (stops_prefix _ _ _ Hr1)]. }
  assert (Hspa : stops netloc_char pa).
  { destruct Hupa as [[-> _] | ->]; [exact Hsu | exact (stops_prefix _ _ _ Hsu)]. }
  assert (Hhpa : mem "#" pa = false /\ mem "#" q = false).
  { destruct Hupa as [[-> ->] | ->]; [auto |].
    rewrite mem_app in Hu. apply orb_false_iff in Hu as [H1 H2].
    cbn [mem] in H2. apply orb_false_iff in H2 as [_ H2]. auto. }
  destruct Hhpa as [Hhpa Hhq].
  destruct (in_list s uses_params && mem ";" pa) eqn:Ep.
  - destruct (_splitparams pa) as [a b] eqn:Esp.
    intros H Hne. injection H as <-. cbn [netloc] in Hne.
    destruct (splitparams_stable _ _ _ Esp) as (Hpp & Hyes & Hno).
    apply andb_true_iff in Ep as [Ep1 Ep2].
    constructor; unfold path_with_params; cbn [scheme netloc path params query];
      auto.
    + set (pp := if negb (is_empty b) then a ++ ";" ++ b else a) in *.
      destruct Hpp as [-> | <-]; [auto |].
      rewrite !mem_app in Hhpa, Hpa.
      apply orb_false_iff in Hhpa as [H1 _]. apply orb_false_iff in Hpa as [H2 _].
      repeat split; auto. exact (stops_prefix _ _ _ Hspa).
    + rewrite Ep1. cbn [andb].
      destruct (mem ";" (if negb (is_empty b) then a ++ ";" ++ b else a)) eqn:Hm;
        [exact (Hyes eq_refl) | rewrite (Hno eq_refl); reflexivity].
  - intros H Hne. injection H as <-. cbn [netloc] in Hne.
    constructor; unfold path_with_params; cbn [scheme netloc path params query is_empty negb];
      auto.
    now rewrite Ep.
Qed.

End HostedFacts.

Section Reparse.
Import PyStr Urllib.
Local Arguments Ascii.eqb : simpl never.

(** The URL [urlunsplit] assembles when there is a network location and
    the path is empty or starts with a slash. *)
Lemma urlunsplit_hosted (s n pp q f : string) :
  n <> "" ->
  negb (is_empty pp) && negb (starts_with "/" pp) = false ->
  urlunsplit s n pp q f
  = (if negb (is_empty s) then s ++ ":" else "")
    ++ "//" ++ n ++ (pp ++ (if negb (is_empty q) then String "?" q else ""))
    ++ (if negb (is_empty f) then String "#" f else "").
Proof.
  intros Hn Hpp. unfold urlunsplit. rewrite Hpp.
  apply is_empty_false in Hn. rewrite Hn. cbn [negb orb].
  destruct s as [| c s], q as [| d q], f as [| e f]; cbn [is_empty negb];
    rewrite ?append_empty_r, ?append_assoc; cbn [append];
    rewrite ?append_empty_r, ?append_assoc; reflexivity.
Qed.

(** [urlparse] finds again the parts [urlunparse] was given, for the
    parts of a URL with a host and any query without [#]. *)
Lemma urlparse_urlunparse (p : ParseResult) (q : string) :
  hosted p -> mem "#" q = false ->
  urlparse (urlunparse (set_query p q)) = inr (set_query p q).
Proof.
  intros [Hs (Hn & Hnc & Hb) (Hst & Hh & Hq) Hpar _] Hq'.
  destruct p as [s n pa pr q0 f].
  unfold path_with_params in *. cbn [scheme netloc path params query] in *.
  unfold urlunparse, set_query. cbn [scheme netloc path params query fragment].
  set (pp := if negb (is_empty pr) then pa ++ ";" ++ pr else pa) in *.
  rewrite (urlunsplit_hosted s n pp q f Hn (stops_netloc_slash pp Hst Hh Hq)).
  unfold urlparse, urlsplit.
  rewrite (split_scheme_again s _ Hs).
  cbn [append starts_with]. rewrite !Ascii.eqb_refl. cbn [andb _splitnetloc].
  rewrite (span_app netloc_char n _ Hnc).
  2: { repeat apply stops_app; [exact Hst | |].
       - destruct q; cbn [is_empty negb]; [exact I | reflexivity].
       - destruct f; cbn [is_empty negb]; [exact I | reflexivity]. }
  rewrite Hb.
  rewrite split_off_joined
    by (rewrite mem_app, Hh; destruct q; cbn [is_empty negb mem];
        [reflexivity | cbn [orb] in *; exact Hq']).
  rewrite split_off_joined by exact Hq.
  rewrite Hpar. reflexivity.
Qed.

End Reparse.

(** ** [parse_qs] on what [urlencode] wrote *)

Section QuoteFacts.
Import PyStr Urllib.

Lemma map_chars_app (f : ascii -> ascii) (a b : string) :
  map_chars f (a ++ b) = map_chars f a ++ map_chars f b.
Proof. induction a as [| x a IH]; simpl; [reflexivity | now rewrite IH]. Qed.

Lemma quote_char_quoted (c : ascii) :
  all_chars quoted_char
    (if always_safe c then String c "" else if Ascii.eqb c " " then "+" else percent c)
  = true.
Proof. all_ascii c. Qed.

Lemma quote_plus_quoted (s : string) : all_chars quoted_char (quote_plus s) = true.
Proof.
  induction s as [| c s IH]; [reflexivity |].
  cbn [quote_plus]. now rewrite all_chars_app, quote_char_quoted, IH.
Qed.

Lemma unquote_quote_char (c : ascii) (rest : string) :
  unquote_plus
    ((if always_safe c then String c "" else if Ascii.eqb c " " then "+" else percent c)
     ++ rest)
  = String c (unquote_plus rest).
Proof. unfold unquote_plus. all_ascii c. Qed.

(** Unquoting undoes quoting. *)
Lemma unquote_plus_quote_plus (s : string) : unquote_plus (quote_plus s) = s.
Proof.
  induction s as [| c s IH]; [reflexivity |].
  cbn [quote_plus]. now rewrite unquote_quote_char, IH.
Qed.

Lemma quote_plus_empty (s : string) : is_empty (quote_plus s) = is_empty s.
Proof. destruct s as [| c s]; [reflexivity |]. cbn [quote_plus]. all_ascii c. Qed.

End QuoteFacts.

Section ParseQsFacts.
Import PyStr Urllib.
Local Arguments Ascii.eqb : simpl never.

Lemma quoted_not_special (c : ascii) :
  quoted_char c = true ->
  is_separator c = false /\ Ascii.eqb c "=" = false /\ Ascii.eqb c "#" = false.
Proof. destruct c as [[] [] [] [] [] [] [] []]; try discriminate; intros _; repeat split. Qed.

Lemma encoded_chars (kv : string * qvalue) :
  all_chars (fun c => negb (is_separator c)) (encoded kv) = true
  /\ mem "#" (encoded kv) = false.
Proof.
  assert (H : all_chars (fun c => negb (is_separator c) && negb (Ascii.eqb c "#"))
                (encoded kv) = true).
  { unfold encoded. rewrite !all_chars_app. cbn [all_chars].
    assert (Hq : forall s, all_chars (fun c => negb (is_separator c) && negb (Ascii.eqb c "#"))
                             (quote_plus s) = true).
    { intro s. apply (all_chars_weaken quoted_char); [| apply quote_plus_quoted].
      intros c Hc. destruct (quoted_not_special c Hc) as (-> & _ & ->). reflexivity. }
    now rewrite !Hq. }
  split.
  - revert H. apply all_chars_weaken. intros c Hc.
    now apply andb_true_iff in Hc as [-> _].
  - apply (all_chars_not_mem _ _ _ H). reflexivity.
Qed.

(** [split_by] on a part free of separators followed by a separator *)
Lemma split_by_part (p : ascii -> bool) (a b : string) (c : ascii) :
  all_chars (fun x => negb (p x)) a = true -> p c = true ->
  split_by p (a ++ String c b) = a :: split_by p b.
Proof.
  intros Ha Hc. induction a as [| x a IH]; cbn [append split_by all_chars] in *.
  - now rewrite Hc.
  - apply andb_true_iff in Ha as [Hx Ha]. apply negb_true_iff in Hx.
    now rewrite Hx, (IH Ha).
Qed.

Lemma split_by_last (p : ascii -> bool) (a : string) :
  all_chars (fun x => negb (p x)) a = true -> split_by p a = [a].
Proof.
  intros Ha. induction a as [| x a IH]; cbn [split_by all_chars] in *; [reflexivity |].
  apply andb_true_iff in Ha as [Hx Ha]. apply negb_true_iff in Hx.
  now rewrite Hx, (IH Ha).
Qed.

(** Splitting what [join] joined gives the parts back. *)
Lemma split_by_join (parts : list string) :
  parts <> [] ->
  Forall (fun a => all_chars (fun c => negb (is_separator c)) a = true) parts ->
  split_by is_separator (join "&" parts) = parts.
Proof.
  intros Hne H. induction H as [| a parts Ha H IH]; [now elim Hne |].
  destruct parts as [| b parts].
  - cbn [join]. now apply split_by_last.
  - change (join "&" (a :: b :: parts)) with (a ++ String "&" (join "&" (b :: parts))).
    rewrite split_by_part by (auto; reflexivity).
    now rewrite IH.
Qed.

(** [parse_qsl] reads a field of [urlencode] back, unless its value is
    empty. *)
Lemma parse_field_encoded (kv : string * qvalue) :
  parse_field (encoded kv)
  = if blank kv then [] else [(fst kv, PyRepr.str (snd kv))].
Proof.
  unfold parse_field, encoded, blank.
  assert (Hk : mem "=" (quote_plus (fst kv)) = false).
  { apply (all_chars_not_mem quoted_char); [apply quote_plus_quoted | reflexivity]. }
  change ("=" ++ quote_plus (PyRepr.str (snd kv)))
    with (String "=" (quote_plus (PyRepr.str (snd kv)))).
  rewrite (split_once_found _ _ _ Hk), quote_plus_empty.
  replace (is_empty (quote_plus (fst kv) ++ String "=" (quote_plus (PyRepr.str (snd kv)))))
    with false by (destruct (quote_plus (fst kv)); reflexivity).
  now rewrite !unquote_plus_quote_plus.
Qed.

Lemma parse_qsl_urlencode (m : Dict.t qvalue) :
  parse_qsl (urlencode m)
  = map (fun kv => (fst kv, PyRepr.str (snd kv))) (filter (fun kv => negb (blank kv)) m).
Proof.
  unfold parse_qsl, urlencode. fold encoded.
  destruct m as [| kv m]; [reflexivity |].
  change (map (fun kv0 => quote_plus (fst kv0) ++ "=" ++ quote_plus (PyRepr.str (snd kv0))))
    with (map encoded).
  rewrite split_by_join.
  - generalize (kv :: m). intro l. induction l as [| x l IH]; [reflexivity |].
    cbn [map flat_map filter]. rewrite parse_field_encoded, IH.
    destruct (blank x); reflexivity.
  - discriminate.
  - apply Forall_forall. intros a Ha. apply in_map_iff in Ha as (x & <- & _).
    apply encoded_chars.
Qed.

End ParseQsFacts.

(** ** [dict.update] *)

Section DictFacts.
Context {V : Type}.
Implicit Types (d other : Dict.t V) (k : string) (v : V).

Lemma key_in_cons k k' v d :
  key_in k ((k', v) :: d) = String.eqb k k' || key_in k d.
Proof. reflexivity. Qed.

Lemma key_in_app k d d' : key_in k (d ++ d')%list = key_in k d || key_in k d'.
Proof. unfold key_in, Dict.keys. now rewrite map_app, existsb_app. Qed.

Lemma get_absent k d : key_in k d = false -> Dict.get k d = None.
Proof.
  induction d as [| [k' v'] d IH]; [reflexivity |].
  rewrite key_in_cons. intro H. apply orb_false_iff in H as [Hk Hd].
  cbn [Dict.get]. now rewrite String.eqb_sym, Hk, IH.
Qed.

Lemma overwrite_nil d : overwrite [] d = d.
Proof.
  unfold overwrite. induction d as [| [k v] d IH]; [reflexivity |].
  cbn [map]. now rewrite IH.
Qed.

(** A binding of [other] for a key that [d] does not have changes nothing
    in [d]. *)
Lemma overwrite_cons_absent k v other d :
  key_in k d = false -> overwrite ((k, v) :: other) d = overwrite other d.
Proof.
  unfold overwrite. induction d as [| [k' v'] d IH]; [reflexivity |].
  rewrite key_in_cons. intro H. apply orb_false_iff in H as [Hk Hd].
  cbn [map]. rewrite (IH Hd). f_equal.
  cbn [fst snd Dict.get]. now rewrite Hk.
Qed.

Lemma set_absent k v d : key_in k d = false -> Dict.set k v d = (d ++ [(k, v)])%list.
Proof.
  induction d as [| [k' v'] d IH]; [reflexivity |].
  rewrite key_in_cons. intro H. apply orb_false_iff in H as [Hk Hd].
  cbn [Dict.set app]. now rewrite String.eqb_sym, Hk, (IH Hd).
Qed.

Lemma keys_set_present k v d :
  key_in k d = true -> Dict.keys (Dict.set k v d) = Dict.keys d.
Proof.
  induction d as [| [k' v'] d IH]; [discriminate |].
  rewrite key_in_cons. cbn [Dict.set]. rewrite (String.eqb_sym k' k).
  destruct (String.eqb k k'); [reflexivity |].
  cbn [orb]. intro H. cbn [Dict.keys map fst]. f_equal. now apply IH.
Qed.

(** Setting a key that [d] has, to the value that a longer [other] gives
    it. *)
Lemma overwrite_set_present k v other d :
  key_in k d = true -> unique_keys d = true -> key_in k other = false ->
  overwrite other (Dict.set k v d) = overwrite ((k, v) :: other) d.
Proof.
  intros Hin Hu Ho. induction d as [| [k' v'] d IH]; [discriminate |].
  rewrite key_in_cons in Hin. cbn [unique_keys] in Hu.
  apply andb_true_iff in Hu as [Hk' Hu]. apply negb_true_iff in Hk'.
  cbn [Dict.set]. rewrite (String.eqb_sym k' k).
  destruct (String.eqb_spec k k') as [<- | Hne].
  - unfold overwrite at 1 2. cbn [map]. f_equal.
    + cbn [fst snd Dict.get]. now rewrite String.eqb_refl, (get_absent _ _ Ho).
    + symmetry. now apply overwrite_cons_absent.
  - cbn [orb] in Hin. unfold overwrite at 1 2. cbn [map]. f_equal.
    + cbn [fst snd Dict.get]. apply String.eqb_neq in Hne. now rewrite Hne.
    + now apply IH.
Qed.

Lemma unique_keys_app_one k v d :
  unique_keys d = true -> key_in k d = false ->
  unique_keys (d ++ [(k, v)])%list = true.
Proof.
  induction d as [| [k' v'] d IH]; [reflexivity |].
  cbn [unique_keys app]. rewrite key_in_cons, key_in_app.
  intros Hu Hk. apply andb_true_iff in Hu as [Hk' Hu].
  apply orb_false_iff in Hk as [Hne Hk].
  rewrite (IH Hu Hk), andb_true_r. apply negb_true_iff in Hk'.
  rewrite Hk'. cbn [key_in Dict.keys map fst existsb].
  now rewrite String.eqb_sym, Hne.
Qed.

Lemma key_in_keys_eq {W} k (d : Dict.t V) (d' : Dict.t W) :
  Dict.keys d = Dict.keys d' -> key_in k d = key_in k d'.
Proof. unfold key_in. now intros ->. Qed.

Lemma unique_keys_keys_eq {W} (d : Dict.t V) (d' : Dict.t W) :
  Dict.keys d = Dict.keys d' -> unique_keys d = unique_keys d'.
Proof.
  revert d'. induction d as [| [k v] d IH]; intros [| [k' v'] d'] H;
    try discriminate; [reflexivity |].
  cbn [Dict.keys map fst] in H. injection H as -> H.
  cbn [unique_keys]. now rewrite (IH d' H), (key_in_keys_eq k' d d' H).
Qed.

Lemma unique_keys_set k v d : unique_keys d = true -> unique_keys (Dict.set k v d) = true.
Proof.
  intro Hu. destruct (key_in k d) eqn:Hk.
  - now rewrite (unique_keys_keys_eq _ d (keys_set_present k v d Hk)).
  - rewrite (set_absent _ _ _ Hk). now apply unique_keys_app_one.
Qed.

(** [d.update(other)]: the items of [d] stay in place, with the values of
    [other] where it has their key, and the other items of [other] come
    after them. *)
Lemma update_spec other d :
  unique_keys other = true -> unique_keys d = true ->
  Dict.update d other = (overwrite other d ++ fresh d other)%list.
Proof.
  revert d. induction other as [| [k v] other IH]; intros d Ho Hd.
  - cbn. now rewrite overwrite_nil, app_nil_r.
  - cbn [unique_keys] in Ho. apply andb_true_iff in Ho as [Hk Ho].
    apply negb_true_iff in Hk.
    change (Dict.update d ((k, v) :: other)) with (Dict.update (Dict.set k v d) other).
    rewrite (IH _ Ho (unique_keys_set k v d Hd)).
    unfold fresh at 2. cbn [filter fst].
    destruct (key_in k d) eqn:Hin; cbn [negb].
    + rewrite (overwrite_set_present _ _ _ _ Hin Hd Hk). f_equal.
      unfold fresh. apply filter_ext. intros [k' v']. cbn [fst].
      now rewrite (key_in_keys_eq k' _ d (keys_set_present k v d Hin)).
    + rewrite (set_absent _ _ _ Hin), (overwrite_cons_absent _ _ _ _ Hin).
      unfold overwrite at 1. rewrite map_app. cbn [map fst snd].
      rewrite (get_absent _ _ Hk). fold (overwrite other d).
      rewrite <- app_assoc. cbn [app]. do 2 f_equal.
      unfold fresh. apply filter_ext_in. intros [k' v'] Hin'.
      rewrite key_in_app. cbn [fst key_in Dict.keys map existsb].
      destruct (String.eqb_spec k' k) as [-> | _]; [| now rewrite !orb_false_r].
      exfalso. assert (key_in k other = true); [| congruence].
      unfold key_in. apply existsb_exists. exists k. split; [| apply String.eqb_refl].
      apply in_map_iff. now exists (k, v').
Qed.

End DictFacts.

Section MoreDictFacts.
Context {V : Type}.
Implicit Types (d other : Dict.t V) (k : string) (v : V).

Lemma key_in_In k d : key_in k d = true <-> In k (Dict.keys d).
Proof.
  unfold key_in. rewrite existsb_exists. split.
  - intros (x & Hx & He). apply String.eqb_eq in He. now subst.
  - intro H. exists k. split; [exact H | apply String.eqb_refl].
Qed.

Lemma unique_keys_NoDup d : unique_keys d = true <-> NoDup (Dict.keys d).
Proof.
  induction d as [| [k v] d IH]; cbn [unique_keys Dict.keys map fst].
  - split; [constructor | reflexivity].
  - rewrite andb_true_iff, negb_true_iff, IH. split.
    + intros [Hk Hd]. constructor; [| exact Hd].
      intro Hin. apply key_in_In in Hin. congruence.
    + intro H. inversion H as [| x l Hk Hd]; subst. split; [| exact Hd].
      destruct (key_in k d) eqn:E; [| reflexivity].
      apply key_in_In in E. contradiction.
Qed.

Lemma get_present k d : key_in k d = true -> exists v, Dict.get k d = Some v.
Proof.
  induction d as [| [k' v'] d IH]; [discriminate |].
  rewrite key_in_cons. cbn [Dict.get]. rewrite (String.eqb_sym k' k).
  destruct (String.eqb k k'); [now exists v' | exact IH].
Qed.

Lemma get_in_unique k v d :
  unique_keys d = true -> In (k, v) d -> Dict.get k d = Some v.
Proof.
  induction d as [| [k' v'] d IH]; [contradiction |].
  cbn [unique_keys Dict.get]. intros Hu [He | Hin].
  - injection He as -> ->. now rewrite String.eqb_refl.
  - apply andb_true_iff in Hu as [Hk Hu]. apply negb_true_iff in Hk.
    destruct (String.eqb_spec k' k) as [-> | _]; [| now apply IH].
    assert (key_in k d = true); [| congruence].
    apply key_in_In. apply in_map_iff. now exists (k, v).
Qed.

Lemma keys_overwrite other d : Dict.keys (overwrite other d) = Dict.keys d.
Proof.
  unfold overwrite, Dict.keys. rewrite map_map. reflexivity.
Qed.

Lemma unique_keys_update d other :
  unique_keys d = true -> unique_keys (Dict.update d other) = true.
Proof.
  revert d. induction other as [| [k v] other IH]; intros d Hd; [exact Hd |].
  change (Dict.update d ((k, v) :: other)) with (Dict.update (Dict.set k v d) other).
  apply IH. now apply unique_keys_set.
Qed.

Lemma filter_none {A} (f : A -> bool) (l : list A) :
  (forall x, In x l -> f x = false) -> filter f l = [].
Proof.
  induction l as [| x l IH]; intro H; [reflexivity |].
  cbn [filter]. rewrite (H x (or_introl eq_refl)). apply IH.
  intros y Hy. apply H. now right.
Qed.

(** After the update, every key of [other] is a key of the mapping. *)
Lemma fresh_after_update d d' other :
  unique_keys other = true -> unique_keys d = true ->
  Dict.keys d' = Dict.keys (Dict.update d other) ->
  fresh d' other = [].
Proof.
  intros Ho Hd Hk. unfold fresh.
  apply filter_none. intros [k v] Hin. cbn [fst]. apply negb_false_iff.
  rewrite (key_in_keys_eq k d' _ Hk), (update_spec _ _ Ho Hd), key_in_app.
  destruct (key_in k d) eqn:E.
  - now rewrite (key_in_keys_eq k _ d (keys_overwrite other d)), E.
  - apply orb_true_iff. right. apply key_in_In. apply in_map_iff.
    exists (k, v). split; [reflexivity |]. apply filter_In. cbn [fst].
    now rewrite E.
Qed.

(** When [other] has every key of [d], every item of the updated mapping
    is an item of [other]. *)
Lemma update_items d other (kv : string * V) :
  unique_keys other = true -> unique_keys d = true ->
  forallb (fun k => key_in k other) (Dict.keys d) = true ->
  In kv (Dict.update d other) -> Dict.get (fst kv) other = Some (snd kv).
Proof.
  intros Ho Hd Hall. rewrite (update_spec _ _ Ho Hd), in_app_iff.
  intros [Hin | Hin].
  - unfold overwrite in Hin. apply in_map_iff in Hin as ([k v] & <- & Hin).
    cbn [fst snd].
    assert (Hk : key_in k other = true).
    { rewrite forallb_forall in Hall. apply Hall. apply in_map_iff. now exists (k, v). }
    destruct (get_present _ _ Hk) as [v' ->]. reflexivity.
  - apply filter_In in Hin as [Hin _]. destruct kv as [k v].
    now apply get_in_unique.
Qed.

End MoreDictFacts.

Section ParseQsDict.
Import PyStr Urllib.

Lemma dict_append_absent k v (d : Dict.t (list string)) :
  key_in k d = false -> dict_append k v d = (d ++ [(k, [v])])%list.
Proof.
  induction d as [| [k' v'] d IH]; [reflexivity |].
  rewrite key_in_cons. intro H. apply orb_false_iff in H as [Hk Hd].
  cbn [dict_append app]. now rewrite String.eqb_sym, Hk, (IH Hd).
Qed.

Lemma keys_dict_append_present k v (d : Dict.t (list string)) :
  key_in k d = true -> Dict.keys (dict_append k v d) = Dict.keys d.
Proof.
  induction d as [| [k' v'] d IH]; [discriminate |].
  rewrite key_in_cons. cbn [dict_append]. rewrite (String.eqb_sym k' k).
  destruct (String.eqb k k'); [reflexivity |].
  cbn [orb]. intro H. cbn [Dict.keys map fst]. f_equal. now apply IH.
Qed.

Lemma unique_keys_dict_append k v (d : Dict.t (list string)) :
  unique_keys d = true -> unique_keys (dict_append k v d) = true.
Proof.
  intro Hu. destruct (key_in k d) eqn:Hk.
  - now rewrite (unique_keys_keys_eq _ d (keys_dict_append_present k v d Hk)).
  - rewrite (dict_append_absent _ _ _ Hk). now apply unique_keys_app_one.
Qed.

(** No name occurs twice in what [parse_qs] returns. *)
Lemma parse_qs_unique (qs : string) : unique_keys (parse_qs qs) = true.
Proof.
  unfold parse_qs.
  assert (H : forall l acc, unique_keys acc = true ->
                unique_keys (fold_left (fun d nv => dict_append (fst nv) (snd nv) d) l acc)
                = true).
  { induction l as [| nv l IH]; intros acc Ha; [exact Ha |].
    cbn [fold_left]. apply IH. now apply unique_keys_dict_append. }
  now apply H.
Qed.

(** Names that all differ are stored one after the other, each with its
    one value. *)
Lemma fold_dict_append (l : list (string * string)) (acc : Dict.t (list string)) :
  NoDup (Dict.keys acc ++ map fst l)%list ->
  fold_left (fun d nv => dict_append (fst nv) (snd nv) d) l acc
  = (acc ++ map (fun nv => (fst nv, [snd nv])) l)%list.
Proof.
  revert acc. induction l as [| [k v] l IH]; intros acc H.
  - cbn. now rewrite app_nil_r.
  - cbn [fold_left map fst snd] in *.
    assert (Hk : key_in k acc = false).
    { destruct (key_in k acc) eqn:E; [| reflexivity].
      apply key_in_In in E. apply NoDup_remove_2 in H.
      elim H. apply in_or_app. now left. }
    rewrite (dict_append_absent _ _ _ Hk), IH.
    + now rewrite <- app_assoc.
    + unfold Dict.keys in *. rewrite map_app, <- app_assoc. exact H.
Qed.

Lemma NoDup_keys_filter {V} (f : string * V -> bool) (d : Dict.t V) :
  NoDup (Dict.keys d) -> NoDup (Dict.keys (filter f d)).
Proof.
  unfold Dict.keys. induction d as [| [k v] d IH]; intro H; [constructor |].
  cbn [map fst] in H. inversion H as [| x l Hk Hd]; subst.
  cbn [filter]. destruct (f (k, v)); [| now apply IH].
  cbn [map fst]. constructor; [| now apply IH].
  intro Hin. apply Hk. apply in_map_iff in Hin as (x & Hx & Hin).
  apply filter_In in Hin as [Hin _]. apply in_map_iff. now exists x.
Qed.

(** [parse_qs] reads back the items [urlencode] wrote, but those whose
    value has an empty text. *)
Lemma parse_qs_urlencode (m : Dict.t qvalue) :
  unique_keys m = true ->
  parse_qs (urlencode m) = map read_back (filter (fun kv => negb (blank kv)) m).
Proof.
  intro Hu. unfold parse_qs. rewrite parse_qsl_urlencode, fold_dict_append.
  - cbn [app]. rewrite map_map. reflexivity.
  - cbn [Dict.keys map app]. rewrite map_map. cbn [fst].
    apply unique_keys_NoDup in Hu.
    exact (NoDup_keys_filter _ _ Hu).
Qed.

Lemma mem_join_encoded (m : Dict.t qvalue) : mem "#" (urlencode m) = false.
Proof.
  unfold urlencode. fold encoded.
  change (map (fun kv => quote_plus (fst kv) ++ "=" ++ quote_plus (PyRepr.str (snd kv))))
    with (map encoded).
  induction m as [| kv m IH]; [reflexivity |].
  destruct m as [| kv' m]; cbn [map join] in *.
  - apply encoded_chars.
  - rewrite !mem_app, IH, (proj2 (encoded_chars kv)). reflexivity.
Qed.

End ParseQsDict.

(** ** [update_url_params] *)

Section UpdateUrlParams.
Import PyStr Urllib.

Lemma get_app {V} k (a b : Dict.t V) :
  Dict.get k (a ++ b)%list
  = match Dict.get k a with Some v => Some v | None => Dict.get k b end.
Proof.
  induction a as [| [k' v'] a IH]; [reflexivity |].
  cbn [app Dict.get]. destruct (String.eqb k' k); [reflexivity | exact IH].
Qed.

Lemma get_overwrite {V} k (other d : Dict.t V) :
  Dict.get k (overwrite other d)
  = match Dict.get k d with
    | Some v0 => Some (match Dict.get k other with Some v => v | None => v0 end)
    | None => None
    end.
Proof.
  unfold overwrite. induction d as [| [k' v'] d IH]; [reflexivity |].
  cbn [map fst snd Dict.get]. destruct (String.eqb_spec k' k) as [-> | _];
    [reflexivity | exact IH].
Qed.

Lemma get_fresh {V} k (d other : Dict.t V) :
  Dict.get k (fresh d other) = if key_in k d then None else Dict.get k other.
Proof.
  unfold fresh. induction other as [| [k' v'] other IH].
  - now destruct (key_in k d).
  - cbn [filter fst]. destruct (key_in k' d) eqn:E; cbn [negb Dict.get].
    + rewrite IH. destruct (String.eqb_spec k' k) as [-> | _]; [now rewrite E |].
      reflexivity.
    + destruct (String.eqb_spec k' k) as [-> | _]; [now rewrite E | exact IH].
Qed.

Lemma get_map_value {V W} (f : V -> W) k (d : Dict.t V) :
  Dict.get k (map (fun kv => (fst kv, f (snd kv))) d) = option_map f (Dict.get k d).
Proof.
  induction d as [| [k' v'] d IH]; [reflexivity |].
  cbn [map fst snd Dict.get]. destruct (String.eqb k' k); [reflexivity | exact IH].
Qed.

(** [d.update(other)] is last-write-wins per key. *)
Lemma get_update {V} k (d other : Dict.t V) :
  unique_keys other = true -> unique_keys d = true ->
  Dict.get k (Dict.update d other)
  = match Dict.get k other with Some v => Some v | None => Dict.get k d end.
Proof.
  intros Ho Hd. rewrite (update_spec _ _ Ho Hd), get_app, get_overwrite, get_fresh.
  destruct (Dict.get k d) as [v0 |] eqn:E.
  - now destruct (Dict.get k other).
  - destruct (key_in k d) eqn:Hk.
    + destruct (get_present _ _ Hk) as [v Hv]. congruence.
    + now destruct (Dict.get k other).
Qed.

Lemma unique_keys_old (p : ParseResult) :
  unique_keys (map (fun kv => (fst kv, QList (snd kv))) (parse_qs (query p))) = true.
Proof.
  rewrite (unique_keys_keys_eq _ (parse_qs (query p))); [apply parse_qs_unique |].
  unfold Dict.keys. now rewrite map_map.
Qed.

(** What [update_url_params] returns, what its merged mapping holds under
    each name, what [parse_qs] reads back from the new query, and how
    [urlparse] reads the URL returned when the input names a host. *)
Lemma update_url_params_spec (url : string) (kwargs : Dict.t qvalue)
    (p : ParseResult) :
  urlparse url = inr p ->
  unique_keys kwargs = true ->
  let merged := merged_params p kwargs in
  let new_url := urlunparse (set_query p (urlencode merged)) in
  update_url_params url kwargs = inr new_url
  /\ (forall k,
        Dict.get k merged
        = match Dict.get k kwargs with
          | Some v => Some v
          | None => option_map QList (Dict.get k (parse_qs (query p)))
          end)
  /\ parse_qs (urlencode merged)
     = map read_back (filter (fun kv => negb (blank kv)) merged)
  /\ (netloc p <> "" -> urlparse new_url = inr (set_query p (urlencode merged))).
Proof.
  intros Hp Hk merged new_url. repeat split.
  - unfold update_url_params. now rewrite Hp.
  - intro k. unfold merged, merged_params.
    rewrite (get_update _ _ _ Hk (unique_keys_old p)), get_map_value. reflexivity.
  - apply parse_qs_urlencode. apply unique_keys_update, unique_keys_old.
  - intro Hn. apply urlparse_urlunparse.
    + exact (urlparse_hosted url p Hp Hn).
    + apply mem_join_encoded.
Qed.

Lemma get_filter {V} (f : string * V -> bool) k v (d : Dict.t V) :
  Dict.get k d = Some v -> f (k, v) = true -> Dict.get k (filter f d) = Some v.
Proof.
  intros Hg Hf. induction d as [| [k' v'] d IH]; [discriminate |].
  cbn [Dict.get] in Hg. cbn [filter].
  destruct (String.eqb_spec k' k) as [-> | Hne].
  - injection Hg as ->. rewrite Hf. cbn [Dict.get]. now rewrite String.eqb_refl.
  - destruct (f (k', v')); [| now apply IH].
    cbn [Dict.get]. apply String.eqb_neq in Hne. rewrite Hne. now apply IH.
Qed.

Lemma get_key_in {V} k v (d : Dict.t V) : Dict.get k d = Some v -> key_in k d = true.
Proof.
  intro H. destruct (key_in k d) eqn:E; [reflexivity |].
  rewrite (get_absent _ _ E) in H. discriminate.
Qed.

(** What [parse_qs] reads in the new query under a name whose merged
    value has a non-empty text. *)
Lemma read_back_get (m : Dict.t qvalue) k v :
  unique_keys m = true -> Dict.get k m = Some v -> blank (k, v) = false ->
  Dict.get k (parse_qs (urlencode m)) = Some [PyRepr.str v].
Proof.
  intros Hu Hg Hb. rewrite (parse_qs_urlencode m Hu).
  change read_back with (fun kv : string * qvalue => (fst kv, (fun x => [PyRepr.str x]) (snd kv))).
  rewrite get_map_value, (get_filter _ k v m Hg); [reflexivity |].
  now rewrite Hb.
Qed.

(** What holds of the merge.  For every URL that [urlparse] accepts and
    every mapping of keyword arguments, [update_url_params] returns the URL that
    [urlunparse] assembles from the scheme, host, path, path parameters and
    fragment of the parsed input, unchanged, and a new query.  In the new
    query, as [parse_qs] reads it, every keyword argument whose value has a
    non-empty text has that text as its one value, whether the input had a
    parameter of that name or not, and every parameter of the input that is
    not a keyword argument is still there under its name.  When the input
    names a host, [urlparse] finds in the URL returned the scheme, host,
    path, path parameters and fragment of the input.  *)
Theorem update_url_params_merges (url : string) (kwargs : Dict.t qvalue)
    (p : ParseResult) :
  urlparse url = inr p ->
  unique_keys kwargs = true ->
  let new_query := urlencode (merged_params p kwargs) in
  let new_url := urlunparse (set_query p new_query) in
  update_url_params url kwargs = inr new_url
  /\ (forall k v,
        Dict.get k kwargs = Some v -> blank (k, v) = false ->
        Dict.get k (parse_qs new_query) = Some [PyRepr.str v])
  /\ (forall k,
        key_in k (parse_qs (query p)) = true -> key_in k kwargs = false ->
        key_in k (parse_qs new_query) = true)
  /\ (netloc p <> "" -> urlparse new_url = inr (set_query p new_query)).
Proof.
  intros Hp Hk new_query new_url.
  destruct (update_url_params_spec url kwargs p Hp Hk) as (H1 & H2 & _ & H4).
  assert (Hu : unique_keys (merged_params p kwargs) = true)
    by apply unique_keys_update, unique_keys_old.
  repeat split.
  - exact H1.
  - intros k v Hg Hb. apply read_back_get; [exact Hu | | exact Hb].
    now rewrite H2, Hg.
  - intros k Hin Hout. destruct (get_present _ _ Hin) as [vs Hvs].
    apply (get_key_in k [PyRepr.str (QList vs)]).
    apply read_back_get; [exact Hu | | reflexivity].
    now rewrite H2, (get_absent _ _ Hout), Hvs.
  - exact H4.
Qed.

Lemma set_query_twice (p : ParseResult) (q q' : string) :
  set_query (set_query p q) q' = set_query p q'.
Proof. reflexivity. Qed.

Lemma not_blank_list (k : string) (l : list string) : blank (k, QList l) = false.
Proof. reflexivity. Qed.

(** Where the second application changes nothing.  For a URL that names
    a host, whose query parameters are all given again as keyword
    arguments, and keyword arguments whose values all have a non-empty
    text, applying [update_url_params] twice with the same arguments
    returns the same URL as applying it once.  *)
Theorem update_url_params_idempotent (url : string) (kwargs : Dict.t qvalue)
    (p : ParseResult) :
  urlparse url = inr p ->
  netloc p <> "" ->
  unique_keys kwargs = true ->
  forallb (fun k => key_in k kwargs) (Dict.keys (parse_qs (query p))) = true ->
  forallb (fun kv => negb (blank kv)) kwargs = true ->
  exists u : string,
    update_url_params url kwargs = inr u /\ update_url_params u kwargs = inr u.
Proof.
  intros Hp Hn Hk Hall Hnb.
  destruct (update_url_params_spec url kwargs p Hp Hk) as (H1 & _ & H3 & H4).
  set (old := map (fun kv => (fst kv, QList (snd kv))) (parse_qs (query p))) in *.
  set (m := merged_params p kwargs) in *.
  exists (urlunparse (set_query p (urlencode m))). split; [exact H1 |].
  unfold update_url_params. rewrite (H4 Hn), set_query_twice.
  enough (Hm2 : merged_params (set_query p (urlencode m)) kwargs = m)
    by now rewrite Hm2.
  unfold merged_params at 1. cbn [query set_query].
  assert (Hold : unique_keys old = true) by apply unique_keys_old.
  assert (Hkeys : forallb (fun k => key_in k kwargs) (Dict.keys old) = true).
  { unfold old, Dict.keys. rewrite map_map. exact Hall. }
  assert (Hitems : forall kv, In kv m -> Dict.get (fst kv) kwargs = Some (snd kv)).
  { intros kv Hin. exact (update_items old kwargs kv Hk Hold Hkeys Hin). }
  assert (Hfull : filter (fun kv => negb (blank kv)) m = m).
  { apply forallb_filter_id. apply forallb_forall. intros kv Hin.
    rewrite forallb_forall in Hnb. specialize (Hitems kv Hin).
    apply Hnb. destruct kv as [k v]. cbn [fst snd] in Hitems.
    clear - Hitems. induction kwargs as [| [k' v'] kw IH]; [discriminate |].
    cbn [Dict.get] in Hitems. destruct (String.eqb_spec k' k) as [-> | _].
    - injection Hitems as ->. now left.
    - right. now apply IH. }
  rewrite H3, Hfull, map_map.
  set (d2 := map (fun x => (fst (read_back x), QList (snd (read_back x)))) m).
  assert (Hk2 : Dict.keys d2 = Dict.keys m).
  { unfold d2, Dict.keys. rewrite map_map. reflexivity. }
  assert (Hu2 : unique_keys d2 = true).
  { rewrite (unique_keys_keys_eq d2 m Hk2). now apply unique_keys_update. }
  rewrite (update_spec _ _ Hk Hu2).
  rewrite (fresh_after_update old d2 kwargs Hk Hold Hk2), app_nil_r.
  unfold overwrite, d2. rewrite map_map. cbn [fst snd read_back].
  rewrite <- (map_id m) at 2. apply map_ext_in. intros [k v] Hin.
  now rewrite (Hitems _ Hin).
Qed.

End UpdateUrlParams.

(** ** [update_url_params] on examples *)

(** C3.  [update_url_params("http://x/y?id=1", id=2)] is the URL
    [http://x/y?id=2]: its scheme is [http], its host [x], its path [/y],
    and its query holds the one parameter [id], with the value [2].  *)
Theorem update_url_params_replaces_id :
  update_url_params "http://x/y?id=1" [("id", QInt 2)] = inr "http://x/y?id=2"
  /\ Urllib.urlparse "http://x/y?id=2"
     = inr (Urllib.mkParseResult "http" "x" "/y" "" "id=2" "")
  /\ Urllib.parse_qs "id=2" = [("id", ["2"])].
Proof. repeat split; reflexivity. Qed.

(** Two edges of [urllib.parse].  With keyword arguments of which one
    has an empty text, [parse_qs] drops that parameter at the second application
    and [update] puts it back last: the second URL differs from the first.
    With a URL that names no host, the first application can return a URL
    that [urlparse] rejects, so that the second application raises. *)
Lemma update_url_params_not_idempotent :
  (update_url_params "http://x/y?a=1&b=2" [("a", QStr ""); ("b", QStr "x")]
   = inr "http://x/y?a=&b=x"
   /\ update_url_params "http://x/y?a=&b=x" [("a", QStr ""); ("b", QStr "x")]
      = inr "http://x/y?b=x&a="
   /\ "http://x/y?b=x&a=" <> "http://x/y?a=&b=x")
  /\ (update_url_params "http:////[x" [("id", QInt 2)] = inr "http://[x?id=2"
      /\ update_url_params "http://[x?id=2" [("id", QInt 2)]
         = inl (ValueError "Invalid IPv6 URL")).
Proof. repeat split; try reflexivity. discriminate. Qed.

(** C2.  [update_url_params] is not idempotent on a URL that has a
    parameter other than those given: [parse_qs] returns the values of
    each name as a list, [urlencode] is called without [doseq] and writes
    the text of that list, [['1']], as the value; the second application
    reads that text as the value and writes the text of its list in turn,
    so that the URL changes at every application. *)
Lemma update_url_params_encodes_again :
  update_url_params "http://x/y?a=1" [("id", QInt 2)]
  = inr "http://x/y?a=%5B%271%27%5D&id=2"
  /\ update_url_params "http://x/y?a=%5B%271%27%5D&id=2" [("id", QInt 2)]
     = inr "http://x/y?a=%5B%22%5B%271%27%5D%22%5D&id=2"
  /\ "http://x/y?a=%5B%22%5B%271%27%5D%22%5D&id=2"
     <> "http://x/y?a=%5B%271%27%5D&id=2".
Proof. repeat split; try reflexivity. discriminate. Qed.

(** For a URL that names no host, the path or the
    host of the URL returned is not the one of the input: [urlunparse]
    writes [//] after the scheme [http], and what follows it is read as the
    host. *)
Lemma update_url_params_moves_path_and_host :
  (Urllib.urlparse "http:y?id=1"
   = inr (Urllib.mkParseResult "http" "" "y" "" "id=1" "")
   /\ update_url_params "http:y?id=1" [("id", QInt 2)] = inr "http:///y?id=2"
   /\ Urllib.urlparse "http:///y?id=2"
      = inr (Urllib.mkParseResult "http" "" "/y" "" "id=2" ""))
  /\ (Urllib.urlparse "http:////x/y?id=1"
      = inr (Urllib.mkParseResult "http" "" "//x/y" "" "id=1" "")
      /\ update_url_params "http:////x/y?id=1" [("id", QInt 2)] = inr "http://x/y?id=2"
      /\ Urllib.urlparse "http://x/y?id=2"
         = inr (Urllib.mkParseResult "http" "x" "/y" "" "id=2" "")).
Proof. repeat split; reflexivity. Qed.

(** C4.  A parameter that is not among the keyword arguments does not
    keep its value: the value of [a] was [1], and is the text [['1']] in
    the URL returned, [urlencode] having written the list of [parse_qs] as
    its text; the given parameter [id] is set, and the scheme, host and
    path are those of the input. *)
Lemma update_url_params_rewrites_other_values :
  Urllib.parse_qs "a=1" = [("a", ["1"])]
  /\ update_url_params "http://x/y?a=1" [("id", QInt 2)]
     = inr "http://x/y?a=%5B%271%27%5D&id=2"
  /\ Urllib.urlparse "http://x/y?a=%5B%271%27%5D&id=2"
     = inr (Urllib.mkParseResult "http" "x" "/y" "" "a=%5B%271%27%5D&id=2" "")
  /\ Urllib.parse_qs "a=%5B%271%27%5D&id=2" = [("a", ["['1']"]); ("id", ["2"])].
Proof. repeat split; reflexivity. Qed.

Lemma update_url_params_merges_witness :
  Urllib.urlparse "http://x/y?a=1&id=1#top"
  = inr (Urllib.mkParseResult "http" "x" "/y" "" "a=1&id=1" "top")
  /\ update_url_params "http://x/y?a=1&id=1#top" [("id", QInt 2); ("lang", QStr "fr")]
     = inr "http://x/y?a=%5B%271%27%5D&id=2&lang=fr#top"
  /\ Dict.get "id" (Urllib.parse_qs "a=%5B%271%27%5D&id=2&lang=fr") = Some ["2"]
  /\ key_in "a" (Urllib.parse_qs "a=%5B%271%27%5D&id=2&lang=fr") = true
  /\ Urllib.urlparse "http://x/y?a=%5B%271%27%5D&id=2&lang=fr#top"
     = inr (Urllib.mkParseResult "http" "x" "/y" "" "a=%5B%271%27%5D&id=2&lang=fr" "top").
Proof.
  destruct (update_url_params_merges "http://x/y?a=1&id=1#top"
              [("id", QInt 2); ("lang", QStr "fr")]
              (Urllib.mkParseResult "http" "x" "/y" "" "a=1&id=1" "top")
              eq_refl eq_refl) as (H1 & H2 & H3 & H4).
  split; [reflexivity |]. split; [exact H1 |].
  split; [exact (H2 "id" (QInt 2) eq_refl eq_refl) |].
  split; [exact (H3 "a" eq_refl eq_refl) |].
  apply H4. discriminate.
Defined.

Lemma update_url_params_idempotent_witness :
  exists u : string,
    update_url_params "http://x/y?id=1&lang=en#top" [("id", QInt 2); ("lang", QStr "fr")]
    = inr u
    /\ update_url_params u [("id", QInt 2); ("lang", QStr "fr")] = inr u.
Proof.
  apply (update_url_params_idempotent "http://x/y?id=1&lang=en#top"
           [("id", QInt 2); ("lang", QStr "fr")]
           (Urllib.mkParseResult "http" "x" "/y" "" "id=1&lang=en" "top"));
    [reflexivity | discriminate | reflexivity | reflexivity | reflexivity].
Defined.

(** ** The values [update_url_params] does not keep *)

Section KeptParameters.
Import PyStr Urllib.

Lemma length_app (a b : string) :
  String.length (a ++ b) = String.length a + String.length b.
Proof. induction a as [| c a IH]; cbn; [reflexivity | now rewrite IH]. Qed.

Lemma repr_char_length (q c : ascii) : 1 <= String.length (PyRepr.repr_char q c).
Proof.
  unfold PyRepr.repr_char.
  repeat match goal with |- context [if ?b then _ else _] => destruct b end;
    cbn; lia.
Qed.

Lemma repr_body_length (q : ascii) (s : string) :
  String.length s <= String.length (PyRepr.repr_body q s).
Proof.
  induction s as [| c s IH]; cbn [PyRepr.repr_body String.length]; [lia |].
  rewrite length_app. pose proof (repr_char_length q c). lia.
Qed.

(** The text of a list is longer than each of its elements: it is never
    the one element of the list. *)
Lemma str_list_not_self (vs : list string) : [PyRepr.str (QList vs)] <> vs.
Proof.
  intro H. destruct vs as [| x [| y vs]]; try discriminate H.
  injection H as H. apply (f_equal String.length) in H.
  cbn [PyRepr.str map join] in H. unfold PyRepr.repr_str in H.
  cbn [append String.length] in H. rewrite !length_app in H.
  cbn [String.length] in H.
  pose proof (repr_body_length (PyRepr.repr_quote x) x). lia.
Qed.

(** Every parameter of the input that is not a keyword argument comes
    back with one value, the text of the list of its values, which is not
    what its values were. *)
Lemma update_url_params_rewrites_kept (url : string) (kwargs : Dict.t qvalue)
    (p : ParseResult) (k : string) (vs : list string) :
  urlparse url = inr p ->
  unique_keys kwargs = true ->
  Dict.get k (parse_qs (query p)) = Some vs ->
  key_in k kwargs = false ->
  let new_query := urlencode (merged_params p kwargs) in
  update_url_params url kwargs = inr (urlunparse (set_query p new_query))
  /\ Dict.get k (parse_qs new_query) = Some [PyRepr.str (QList vs)]
  /\ [PyRepr.str (QList vs)] <> vs.
Proof.
  intros Hp Hk Hg Hout new_query.
  destruct (update_url_params_spec url kwargs p Hp Hk) as (H1 & H2 & _ & _).
  split; [exact H1 |]. split; [| apply str_list_not_self].
  apply read_back_get.
  - apply unique_keys_update, unique_keys_old.
  - now rewrite H2, (get_absent _ _ Hout), Hg.
  - reflexivity.
Qed.

(** On a URL that names a host and has a parameter that is not a keyword
    argument, the second application of [update_url_params] returns
    another URL than the first. *)
Lemma update_url_params_twice_differs (url : string) (kwargs : Dict.t qvalue)
    (p : ParseResult) (k : string) (vs : list string) :
  urlparse url = inr p ->
  netloc p <> "" ->
  unique_keys kwargs = true ->
  Dict.get k (parse_qs (query p)) = Some vs ->
  key_in k kwargs = false ->
  exists once twice : string,
    update_url_params url kwargs = inr once
    /\ update_url_params once kwargs = inr twice
    /\ once <> twice.
Proof.
  intros Hp Hn Hk Hg Hout.
  destruct (update_url_params_spec url kwargs p Hp Hk) as (H1 & _ & _ & H4).
  destruct (update_url_params_rewrites_kept url kwargs p k vs Hp Hk Hg Hout)
    as (_ & Hq1 & _).
  set (q1 := urlencode (merged_params p kwargs)) in *.
  set (p1 := set_query p q1) in *.
  specialize (H4 Hn).
  assert (Hn1 : netloc p1 <> "") by exact Hn.
  destruct (update_url_params_spec (urlunparse p1) kwargs p1 H4 Hk)
    as (H1' & _ & _ & H4').
  destruct (update_url_params_rewrites_kept (urlunparse p1) kwargs p1 k
              [PyRepr.str (QList vs)] H4 Hk Hq1 Hout) as (_ & Hq2 & Hne).
  set (q2 := urlencode (merged_params p1 kwargs)) in *.
  exists (urlunparse p1), (urlunparse (set_query p1 q2)).
  split; [exact H1 |]. split; [exact H1' |].
  intro Heq. specialize (H4' Hn1). rewrite <- Heq, H4 in H4'.
  injection H4' as Hq. apply Hne.
  assert (Hsame : Dict.get k (parse_qs q1) = Dict.get k (parse_qs q2))
    by now rewrite Hq.
  rewrite Hq1, Hq2 in Hsame. congruence.
Qed.

End KeptParameters.

(** * Properties of the browser code *)

(** ** Running programs *)

Section RunFacts.
Variable World : Type.
Variable respond : forall ev : event, World -> result (resp ev) * World.

(** The calls of [p], then those of [f] on what [p] returned; when [p]
    raises, nothing of [f] runs. *)
Lemma run_bind {A B} (p : prog A) (f : A -> prog B) (w : World) :
  run respond (bind p f) w =
  match run respond p w with
  | (inr a, w1, tr1) =>
      let '(out, w2, tr2) := run respond (f a) w1 in (out, w2, (tr1 ++ tr2)%list)
  | (inl e, w1, tr1) => (inl e, w1, tr1)
  end.
Proof.
  revert w. induction p as [a | e | ev k IH]; intro w; simpl.
  - destruct (run respond (f a) w) as [[out w2] tr2]. reflexivity.
  - reflexivity.
  - destruct (respond ev w) as [r w1]. rewrite IH.
    destruct (run respond (k r) w1) as [[[e | a] w2] tr1]; [reflexivity |].
    destruct (run respond (f a) w2) as [[out w3] tr2]. reflexivity.
Qed.

Lemma run_call_ok (ev : event) (x : resp ev) (w w1 : World) :
  respond ev w = (inr x, w1) ->
  run respond (call ev) w = (inr x, w1, [ev]).
Proof. intro H. simpl. rewrite H. reflexivity. Qed.

Lemma run_call_raises (ev : event) (e : exn) (w w1 : World) :
  respond ev w = (inl e, w1) ->
  run respond (call ev) w = (inl e, w1, [ev]).
Proof. intro H. simpl. rewrite H. reflexivity. Qed.

End RunFacts.

(** Split a script of answered calls into one equation per call. *)
Ltac split_answers H :=
  simpl in H;
  repeat match type of H with
         | answers _ _ (_ :: _) _ =>
             let w := fresh "w" in
             let Hr := fresh "Hr" in
             destruct H as (w & Hr & H); simpl in Hr
         | exists _, _ /\ _ =>
             let w := fresh "w" in
             let Hr := fresh "Hr" in
             destruct H as (w & Hr & H); simpl in Hr
         | _ = _ => subst
         | answers _ _ [] _ => simpl in H; subst
         end.

(** ** The element wrapper *)

Section Lookups.
Variable World : Type.
Variable respond : forall ev : event, World -> result (resp ev) * World.

(** The decorator: for each of the nine lookups, when the find under it
    raises NoSuchElementException, the lookup called with a default
    returns exactly that default and does not raise, and called without a
    default it raises NoSuchElementException to its caller.  *)
Lemma lookup_no_match_default (l : lookup) (self : handle) (selector : string)
    (w w' : World) :
  respond (lookup_find l self selector) w = (inl NoSuchElementException, w') ->
  (forall d : pyval,
      run respond (lookup_fn l self selector (Some d)) w
      = (inr d, w', [lookup_find l self selector]))
  /\ run respond (lookup_fn l self selector None) w
     = (inl NoSuchElementException, w', [lookup_find l self selector]).
Proof.
  intro H. split; [intro d |]; destruct l; simpl in *; rewrite H; reflexivity.
Qed.

(** C1, as amended.  When the selector matches no element (see
    [no_match]): each of the five lookups of one element, [by_tag],
    [by_name], [by_css], [by_xpath] and [by_id], returns exactly the
    default when it is called with one, and raises NoSuchElementException
    to its caller when it is called without; each of the four lookups of
    all elements, [all_tag], [all_name], [all_css] and [all_xpath], returns
    the empty list, with a default or without, and does not raise.  In all
    cases the find is the one call made.  *)
Theorem lookup_no_match (l : lookup) (self : handle) (selector : string)
    (w w' : World) :
  answers respond w [no_match l self selector] w' ->
  (forall d : pyval,
      run respond (lookup_fn l self selector (Some d)) w
      = (inr (if is_plural l then VList [] else d), w',
         [lookup_find l self selector]))
  /\ run respond (lookup_fn l self selector None) w
     = ((if is_plural l then inr (VList []) else inl NoSuchElementException), w',
        [lookup_find l self selector]).
Proof.
  intro H. destruct l; cbn [answers no_match gives fails] in H;
    destruct H as (w1 & Hr & ->);
    (split; [intro d |]); simpl; rewrite Hr; reflexivity.
Qed.

(** X17.  Any other exception of the find goes through, default or not. *)
Lemma lookup_other_exception (l : lookup) (self : handle) (selector : string)
    (default : option pyval) (e : exn) (w w' : World) :
  respond (lookup_find l self selector) w = (inl e, w') ->
  is_NoSuchElementException e = false ->
  run respond (lookup_fn l self selector default) w
  = (inl e, w', [lookup_find l self selector]).
Proof.
  intros H He. destruct l; simpl in *; rewrite H; simpl; rewrite He; reflexivity.
Qed.

End Lookups.

Lemma lookup_no_match_witness :
  (run Demo.respond (by_css Driver ".alert-error" (Some (VList []))) Demo.blank
   = (inr (VList []), Demo.blank, [FindElement ByCss Driver ".alert-error"])
   /\ run Demo.respond (by_css Driver ".alert-error" None) Demo.blank
      = (inl NoSuchElementException, Demo.blank,
         [FindElement ByCss Driver ".alert-error"]))
  /\ (run Demo.respond (all_name Driver "jform[title]" (Some (VStr "none")))
        Demo.blank
      = (inr (VList []), Demo.blank, [FindElements ByName Driver "jform[title]"])
      /\ run Demo.respond (all_name Driver "jform[title]" None) Demo.blank
         = (inr (VList []), Demo.blank, [FindElements ByName Driver "jform[title]"])).
Proof.
  pose proof (lookup_no_match Demo.page Demo.respond By_css Driver ".alert-error"
                Demo.blank Demo.blank) as H1.
  pose proof (lookup_no_match Demo.page Demo.respond All_name Driver "jform[title]"
                Demo.blank Demo.blank) as H2.
  split.
  - destruct H1 as [Hd Hn]; [simpl; eexists; split; reflexivity |].
    split; [exact (Hd (VList [])) | exact Hn].
  - destruct H2 as [Hd Hn]; [simpl; eexists; split; reflexivity |].
    split; [exact (Hd (VStr "none")) | exact Hn].
Defined.

(** C1, as stated, fails.  On a page where no element has the name,
    [find_elements_by_name] returns the empty list and raises nothing:
    [all_name] called with a default returns the empty list, not the
    default. *)
Lemma all_name_no_match_not_default :
  Demo.matching ByName Driver "jform[title]" (Demo.matches Demo.blank) = []
  /\ run Demo.respond (all_name Driver "jform[title]" (Some (VStr "none")))
       Demo.blank
     = (inr (VList []), Demo.blank, [FindElements ByName Driver "jform[title]"])
  /\ VList [] <> VStr "none".
Proof. repeat split; try reflexivity. discriminate. Qed.

(** ** The form driver *)

Section FormFacts.
Variable World : Type.
Variable respond : forall ev : event, World -> result (resp ev) * World.

(** C6, as amended.  When the value is not the path of an existing
    regular file, [fill_input_file] first clears the field, then resolves
    and checks the path and raises ValueError; the clear is the only call
    it makes on the field, and nothing is typed into it.  *)
Theorem fill_input_file_rejects (fname : string) (field : handle)
    (value fpath : string) (exists_ : bool) (w w' : World) :
  answers respond w
    ([gives (Clear field) tt;
      gives (OsPathAbspath value) fpath;
      gives (OsPathExists fpath) exists_]
     ++ (if exists_ then [gives (OsPathIsfile fpath) false] else []))%list w' ->
  run respond (fill_input_file fname (VElt field) value) w
  = (inl (ValueError (not_a_file_message value exists_)), w',
     file_checks field value fpath exists_)
  /\ filter is_action (file_checks field value fpath exists_) = [Clear field].
Proof.
  intro H. split.
  - destruct exists_; split_answers H; unfold fill_input_file, file_checks;
      repeat match goal with Hr : respond _ _ = _ |- _ =>
               progress (simpl; rewrite Hr; simpl) end; reflexivity.
  - destruct exists_; reflexivity.
Qed.

(** C7.  When no [option] of the select has the requested value, that is
    when the find of [.//option[@value='<value>']] under the field raises
    NoSuchElementException, [fill_select] raises NoSuchElementException
    and has made no other call: it does not complete silently.  *)
Theorem fill_select_unknown_value (fname : string) (field : handle)
    (value : string) (w w' : World) :
  respond (FindElement ByXpath field (".//option[@value='" ++ value ++ "']")) w
  = (inl NoSuchElementException, w') ->
  run respond (fill_select fname (VElt field) value) w
  = (inl NoSuchElementException, w',
     [FindElement ByXpath field (".//option[@value='" ++ value ++ "']")]).
Proof.
  intro H. unfold fill_select. simpl in *. rewrite H. reflexivity.
Qed.

(** What [fill_input_radio] does: it reads the attribute whose name is
    the requested value, and clicks when the text of that attribute is
    the requested value. *)
Lemma fill_input_radio_reads (fname : string) (field : handle) (value : string)
    (fvalue : option string) (w w1 : World) :
  respond (GetAttribute field value) w = (inr fvalue, w1) ->
  run respond (fill_input_radio fname (VElt field) value) w
  = if String.eqb (PyStr.of_option fvalue) value
    then let '(out, w2, tr) := run respond (call (Click field)) w1 in
         (out, w2, GetAttribute field value :: tr)
    else (inr tt, w1, [GetAttribute field value]).
Proof.
  intro H. unfold fill_input_radio. simpl. rewrite H. simpl.
  destruct (String.eqb (PyStr.of_option fvalue) value); simpl; [| reflexivity].
  destruct (respond (Click field) w1) as [[e | []] w2]; reflexivity.
Qed.

(** C8.  On a select drawn as a search box (the field is not displayed),
    once the text of the option is typed into the box and the results are
    listed: when their number is not one, [fill_select] reads the text of
    the option and raises AssertionError with the message naming the
    number, that text, the field and the value, and no result is clicked;
    when there is exactly one result, it clicks that result.  *)
Theorem fill_select_chosen (fname : string) (field : handle) (value : string)
    (opt sel link box listing : handle) (txt : string) (results : list handle)
    (w w1 : World) :
  answers respond w (chosen_search fname field value opt sel link box listing
                       txt results) w1 ->
  (length results <> 1 ->
   forall (option_text : string) (w2 : World),
     respond (Text opt) w1 = (inr option_text, w2) ->
     run respond (fill_select fname (VElt field) value) w
     = (inl (AssertionError
               (found_results_message (length results) option_text fname value)),
        w2,
        (map asked (chosen_search fname field value opt sel link box listing
                      txt results)
         ++ [Text opt])%list))
  /\ (forall (r : handle) (w2 : World),
        results = [r] ->
        respond (Click r) w1 = (inr tt, w2) ->
        run respond (fill_select fname (VElt field) value) w
        = (inr tt, w2,
           (map asked (chosen_search fname field value opt sel link box listing
                         txt results)
            ++ [Click r])%list)).
Proof.
  intro H. unfold chosen_search in *. split_answers H.
  split.
  - intros Hn option_text wf Ht.
    unfold fill_select.
    repeat match goal with Hr : respond _ _ = _ |- _ =>
             progress (simpl in *; rewrite Hr; simpl) end.
    rewrite length_map.
    destruct (Nat.eqb_spec (length results) 1) as [E | _]; [contradiction |].
    simpl. rewrite Ht. reflexivity.
  - intros r wf -> Hc.
    unfold fill_select.
    repeat match goal with Hr : respond _ _ = _ |- _ =>
             progress (simpl in *; rewrite Hr; simpl) end.
    reflexivity.
Qed.

End FormFacts.

(** ** [fill_field] and [add_article] *)

Section DriverFacts.
Variable World : Type.
Variable respond : forall ev : event, World -> result (resp ev) * World.
Variable again : string -> pyval -> string -> prog unit.

Lemma for_each_ext {A} (items : list A) (f g : A -> prog unit) :
  (forall x, f x = g x) -> for_each items f = for_each items g.
Proof.
  intro H. induction items as [| x items IH]; simpl; [reflexivity |].
  now rewrite H, IH.
Qed.

Lemma for_each_times {A} (items : list A) (p : prog unit) :
  for_each items (fun _ => p) = times (length items) p.
Proof. induction items as [| x items IH]; simpl; [reflexivity | now rewrite IH]. Qed.

(** Whatever the loop variable holds, a round of the loop works on the
    first element found. *)
Lemma fill_field_body_first (name value : string) (first : handle)
    (rest : list handle) (field : pyval) :
  fill_field_body again name value (VList (map VElt (first :: rest))) field
  = fill_element again name value first.
Proof. reflexivity. Qed.

(** C10.  When [fill_field] finds the elements [first :: rest] under the
    field name, it applies tab activation and filler dispatch to [first],
    once per element found, and to nothing else: what it does depends on
    [rest] only through the number of its elements.  When it finds no
    element it does nothing.  *)
Theorem fill_field_first_only (name value : string) (jform : bool)
    (first : handle) (rest : list handle) (w w1 : World) :
  respond (FindElements ByName b (field_name name jform)) w
  = (inr (first :: rest), w1) ->
  run respond (fill_field again name value jform) w
  = after (FindElements ByName b (field_name name jform))
      (run respond
         (times (S (length rest)) (fill_element again name value first)) w1).
Proof.
  intro H. unfold fill_field. fold (field_name name jform).
  unfold all_name, no_such_element_default, find_all.
  cbn [bind call try_except run]. rewrite H.
  cbn [bind call try_except run iter_of].
  rewrite (for_each_ext _ _ (fun _ => fill_element again name value first))
    by (intro x; apply fill_field_body_first).
  rewrite for_each_times. cbn [length map]. rewrite length_map.
  unfold after.
  destruct (run respond (times (S (length rest)) (fill_element again name value first)) w1)
    as [[out w2] tr].
  reflexivity.
Qed.

(** X16.  When no element has the name, [fill_field] does nothing after the
    lookup, and returns. *)
Lemma fill_field_nothing_found (name value : string) (jform : bool)
    (w w1 : World) :
  respond (FindElements ByName b (field_name name jform)) w = (inr [], w1) ->
  run respond (fill_field again name value jform) w
  = (inr tt, w1, [FindElements ByName b (field_name name jform)]).
Proof.
  intro H. unfold fill_field. fold (field_name name jform).
  unfold all_name, no_such_element_default, find_all.
  cbn [bind call try_except run]. rewrite H. reflexivity.
Qed.

(** C5.  When the save went through and the page shows an error banner
    (the lookup of [.alert-error] finds an element, at the test and again
    inside the [raise] statement), [add_article] raises TypeError, from
    the subscript applied to the wrapper of the banner, before any text of
    the banner is read: it returns no article id, and the exception is not
    AdminError.  *)
Theorem add_article_banner_TypeError (fields : list (string * string))
    (banner banner' : handle) (w w1 w2 w3 : World) (tr : list event) :
  run respond (add_article_submit again fields) w = (inr tt, w1, tr) ->
  respond (FindElement ByCss b ".alert-error") w1 = (inr banner, w2) ->
  respond (FindElement ByCss b ".alert-error") w2 = (inr banner', w3) ->
  run respond (add_article again fields) w
  = (inl (TypeError "'EltWrapper' object is not subscriptable"), w3,
     (tr ++ [FindElement ByCss b ".alert-error";
             FindElement ByCss b ".alert-error"])%list).
Proof.
  intros Hs H1 H2. unfold add_article. rewrite run_bind, Hs.
  unfold add_article_result. simpl. rewrite H1. simpl. rewrite H2. reflexivity.
Qed.

(** X20.  Without a banner, [add_article] returns the first value of the [id]
    parameter of the address the browser shows, after a click on the
    cancel button. *)
Lemma add_article_returns_id (fields : list (string * string))
    (current_url article_id : string) (ids : list string)
    (parsed_url : Urllib.ParseResult) (cancel : handle)
    (w w1 w2 : World) (tr : list event) :
  run respond (add_article_submit again fields) w = (inr tt, w1, tr) ->
  answers respond w1
    [ fails (FindElement ByCss b ".alert-error") NoSuchElementException;
      gives CurrentUrl current_url;
      gives (FindElement ByXpath b "//button[contains(@onclick, 'article.cancel')]")
            cancel;
      gives (Click cancel) tt ] w2 ->
  Urllib.urlparse current_url = inr parsed_url ->
  Dict.get "id" (Urllib.parse_qs (Urllib.query parsed_url))
  = Some (article_id :: ids) ->
  run respond (add_article again fields) w
  = (inr article_id, w2,
     (tr ++ [ FindElement ByCss b ".alert-error"; CurrentUrl;
              FindElement ByXpath b "//button[contains(@onclick, 'article.cancel')]";
              Click cancel ])%list).
Proof.
  intros Hs Ha Hp Hid. unfold add_article. rewrite run_bind, Hs.
  split_answers Ha. unfold add_article_result.
  simpl. rewrite Hr. simpl. rewrite Hr0. simpl. rewrite Hp, Hid. simpl.
  rewrite Hr1. simpl. rewrite Hr2. reflexivity.
Qed.

End DriverFacts.

(** ** The properties on the demonstration page *)

Lemma fill_input_file_rejects_witness :
  run Demo.respond (fill_input_file "upload" (VElt (WebElement 50)) "missing.pdf")
    (Demo.article_form false)
  = (inl (ValueError "missing.pdf does not exists, can't feed it as an upload value"),
     Demo.article_form false,
     [Clear (WebElement 50); OsPathAbspath "missing.pdf";
      OsPathExists "/home/missing.pdf"])
  /\ filter is_action (file_checks (WebElement 50) "missing.pdf" "/home/missing.pdf" false)
     = [Clear (WebElement 50)].
Proof.
  apply (fill_input_file_rejects Demo.page Demo.respond "upload" (WebElement 50)
           "missing.pdf" "/home/missing.pdf" false
           (Demo.article_form false) (Demo.article_form false)).
  simpl. repeat (eexists; split; [reflexivity |]). reflexivity.
Defined.

(** C6, as stated, fails: with a path that does not exist, the field has
    been cleared by the time ValueError is raised.  *)
Lemma fill_input_file_clears_before_raising :
  Demo.respond (OsPathExists "/home/missing.pdf") (Demo.article_form false)
  = (inr false, Demo.article_form false)
  /\ outcome Demo.respond
       (fill_input_file "upload" (VElt (WebElement 50)) "missing.pdf")
       (Demo.article_form false)
     = inl (ValueError "missing.pdf does not exists, can't feed it as an upload value")
  /\ In (Clear (WebElement 50))
       (trace Demo.respond
          (fill_input_file "upload" (VElt (WebElement 50)) "missing.pdf")
          (Demo.article_form false)).
Proof.
  split; [reflexivity | split; [reflexivity |]]. left. reflexivity.
Qed.

Lemma fill_select_unknown_value_witness :
  run Demo.respond (fill_select "state" (VElt (WebElement 30)) "7")
    (Demo.article_form false)
  = (inl NoSuchElementException, Demo.article_form false,
     [FindElement ByXpath (WebElement 30) ".//option[@value='7']"]).
Proof.
  apply (fill_select_unknown_value Demo.page Demo.respond "state" (WebElement 30) "7"
           (Demo.article_form false) (Demo.article_form false)).
  reflexivity.
Defined.

Lemma fill_select_chosen_witness :
  run Demo.respond (fill_select "catid" (VElt (WebElement 40)) "8")
    (Demo.article_form false)
  = (inl (AssertionError "Found 2 results for News for catid = 8"),
     Demo.article_form false,
     [ FindElement ByXpath (WebElement 40) ".//option[@value='8']";
       IsDisplayed (WebElement 40);
       GetAttribute (WebElement 41) "text";
       FindElement ById Driver "jform_catid_chzn";
       FindElement ByTag (WebElement 42) "a";
       Click (WebElement 43);
       FindElement ByTag (WebElement 42) "input";
       SendKeys (WebElement 44) "News";
       FindElement ByCss (WebElement 42) ".chzn-results";
       FindElements ByTag (WebElement 45) "li";
       Text (WebElement 41) ])
  /\ run Demo.respond (fill_select "language" (VElt (WebElement 60)) "fr-FR")
       (Demo.article_form false)
     = (inr tt, Demo.article_form false,
        [ FindElement ByXpath (WebElement 60) ".//option[@value='fr-FR']";
          IsDisplayed (WebElement 60);
          GetAttribute (WebElement 61) "text";
          FindElement ById Driver "jform_language_chzn";
          FindElement ByTag (WebElement 62) "a";
          Click (WebElement 63);
          FindElement ByTag (WebElement 62) "input";
          SendKeys (WebElement 64) "French";
          FindElement ByCss (WebElement 62) ".chzn-results";
          FindElements ByTag (WebElement 65) "li";
          Click (WebElement 66) ]).
Proof.
  split.
  - refine (proj1 (fill_select_chosen Demo.page Demo.respond "catid" (WebElement 40) "8"
             (WebElement 41) (WebElement 42) (WebElement 43) (WebElement 44)
             (WebElement 45) "News" [WebElement 46; WebElement 47]
             (Demo.article_form false) (Demo.article_form false) _)
            _ "News" (Demo.article_form false) eq_refl).
    + simpl. repeat (eexists; split; [reflexivity |]). reflexivity.
    + simpl. discriminate.
  - refine (proj2 (fill_select_chosen Demo.page Demo.respond "language" (WebElement 60)
             "fr-FR" (WebElement 61) (WebElement 62) (WebElement 63) (WebElement 64)
             (WebElement 65) "French" [WebElement 66]
             (Demo.article_form false) (Demo.article_form false) _)
            (WebElement 66) (Demo.article_form false) eq_refl eq_refl).
    simpl. repeat (eexists; split; [reflexivity |]). reflexivity.
Defined.

(** C9, on the page: the radio button whose [value] attribute is [1] is
    asked for its attribute named [1], which it does not have, and is not
    clicked.  *)
Lemma fill_input_radio_matching_not_clicked :
  Demo.attribute (WebElement 21) "value" (Demo.attributes (Demo.article_form false))
  = Some "1"
  /\ run Demo.respond (fill_input_radio "featured" (VElt (WebElement 21)) "1")
       (Demo.article_form false)
     = (inr tt, Demo.article_form false, [GetAttribute (WebElement 21) "1"]).
Proof. split; reflexivity. Qed.

Lemma fill_field_first_only_witness :
  Demo.respond (FindElements ByName b (field_name "featured" true))
    (Demo.article_form false)
  = (inr [WebElement 20; WebElement 21], Demo.article_form false)
  /\ run Demo.respond (fill_field Demo.again "featured" "1" true)
       (Demo.article_form false)
     = after (FindElements ByName b (field_name "featured" true))
         (run Demo.respond
            (times 2 (fill_element Demo.again "featured" "1" (WebElement 20)))
            (Demo.article_form false)).
Proof.
  split; [reflexivity |].
  apply (fill_field_first_only Demo.page Demo.respond Demo.again "featured" "1" true
           (WebElement 20) [WebElement 21]
           (Demo.article_form false) (Demo.article_form false)).
  reflexivity.
Defined.

Lemma add_article_banner_TypeError_witness :
  run Demo.respond (add_article Demo.again [("title", "Hello")])
    (Demo.article_form true)
  = (inl (TypeError "'EltWrapper' object is not subscriptable"),
     Demo.article_form true,
     ([ FindElement ByXpath Driver
          "//a[contains(@class, 'menu-article')]/ancestor::ul/preceding-sibling::a";
        Click (WebElement 1);
        FindElement ByCss Driver "a.menu-article";
        Click (WebElement 2);
        FindElement ByXpath Driver "//button[contains(@onclick, 'article.add')]";
        Click (WebElement 3);
        FindElements ByName Driver "jform[title]";
        IsDisplayed (WebElement 10);
        TagName (WebElement 10);
        GetAttribute (WebElement 10) "type";
        Clear (WebElement 10);
        SendKeys (WebElement 10) "Hello";
        FindElement ByXpath Driver "//button[contains(@onclick, 'article.apply')]";
        Click (WebElement 4) ]
      ++ [ FindElement ByCss b ".alert-error";
           FindElement ByCss b ".alert-error" ])%list).
Proof.
  apply (add_article_banner_TypeError Demo.page Demo.respond Demo.again
           [("title", "Hello")] (WebElement 6) (WebElement 6)
           (Demo.article_form true) (Demo.article_form true)
           (Demo.article_form true) (Demo.article_form true));
    reflexivity.
Defined.

(** * Properties of the rest of the module *)

(** ** All the runs of a program *)

Section AlwaysFacts.
Variable World : Type.
Variable respond : forall ev : event, World -> result (resp ev) * World.

(** What holds whatever the browser answers holds of each run. *)
Lemma run_always {A} (P : list answer -> result A -> Prop) (p : prog A) (w : World) :
  always P p -> P (history respond p w) (outcome respond p w).
Proof.
  unfold outcome. revert P w. induction p as [a | e | ev k IH]; intros P w H.
  - exact H.
  - exact H.
  - cbn [always] in H. cbn [history run].
    destruct (respond ev w) as [r w1]. specialize (IH r _ w1 (H r)).
    destruct (run respond (k r) w1) as [[out w2] tr]. exact IH.
Qed.

(** The calls of the history are the trace of the run. *)
Lemma calls_history {A} (p : prog A) (w : World) :
  calls (history respond p w) = trace respond p w.
Proof.
  unfold trace, calls. revert w. induction p as [a | e | ev k IH]; intro w;
    [reflexivity | reflexivity |].
  cbn [history run]. destruct (respond ev w) as [r w1]. specialize (IH r w1).
  destruct (run respond (k r) w1) as [[out w2] tr]. cbn [map asked projT1 snd] in *.
  now rewrite IH.
Qed.

Lemma always_weaken {A} (P Q : list answer -> result A -> Prop) (p : prog A) :
  (forall h out, P h out -> Q h out) -> always P p -> always Q p.
Proof.
  revert P Q. induction p as [a | e | ev k IH]; intros P Q HPQ H; cbn [always] in *;
    [auto | auto |].
  intro r. apply (IH r (fun h out => P (existT _ ev r :: h) out)); [| apply H].
  intros h out. apply HPQ.
Qed.

End AlwaysFacts.

(** An answered call determines its answer. *)
Lemma answer_inj (ev : event) (r r' : result (resp ev)) :
  existT (fun ev => result (resp ev)) ev r = existT _ ev r' -> r = r'.
Proof. apply Eqdep_dec.inj_pair2_eq_dec, event_eq_dec. Qed.

Lemma some_answer_inj (a a' : answer) : Some a = Some a' -> a = a'.
Proof. intro H. now injection H. Qed.

Lemma answer_asked (a a' : answer) : a = a' -> asked a = asked a'.
Proof. now intros ->. Qed.

(** Use an equation between two answered calls. *)
Ltac answer_eq H :=
  first [ apply answer_asked in H; cbn in H; discriminate H
        | let H' := fresh in
          pose proof (answer_asked _ _ H) as H'; cbn in H';
          injection H' as H'; subst; apply answer_inj in H
        | apply answer_inj in H ].

(** Go through a program call by call, in both ways a call can end. *)
Ltac branch :=
  match goal with
  | |- forall r : result _, _ => intros [?e | ?x]
  | |- forall r : (exn + _)%type, _ => intros [?e | ?x]
  | |- context [if PyStr.contains ?a ?b then _ else _] =>
      let E := fresh "E" in destruct (PyStr.contains a b) eqn:E
  | |- context [is_NoSuchElementException ?e] => is_var e; destruct e
  | |- context [if negb ?x then _ else _] => is_var x; destruct x
  | |- context [if ?x then _ else _] => is_var x; destruct x
  | |- context [match ?x with Some _ => _ | None => _ end] => is_var x; destruct x
  end.

Ltac explore := repeat (cbn; unfold assert_; cbn; branch); cbn.

(** Settle what is to be shown at the end of one run. *)
Ltac settle :=
  cbn in *;
  repeat match goal with
         | |- _ /\ _ => split
         | |- _ -> _ => intro
         | |- forall _, _ => intro
         | H : False |- _ => destruct H
         | u : unit |- _ => destruct u
         | H : _ \/ _ |- _ => destruct H
         | H : Some _ = Some _ |- _ => apply some_answer_inj in H
         | H : existT _ _ _ = existT _ _ _ |- _ => answer_eq H
         | H : gives _ _ = _ |- _ => unfold gives in H
         | H : fails _ _ = _ |- _ => unfold fails in H
         | H : _ = gives _ _ |- _ => unfold gives in H
         | H : _ = fails _ _ |- _ => unfold fails in H
         | H : inl _ = inl _ |- _ => first [discriminate H | injection H as H]
         | H : inr _ = inr _ |- _ => first [discriminate H | injection H as H]
         | H : inl _ = inr _ |- _ => discriminate H
         | H : inr _ = inl _ |- _ => discriminate H
         | H : @eq event _ _ |- _ => first [discriminate H | injection H; intros; subst; clear H]
         | H : @eq (list _) _ _ |- _ => discriminate H
         | H : @eq bool _ _ |- _ => discriminate H
         | H : @eq exn _ _ |- _ => first [discriminate H | injection H as H]
         end;
  subst; cbn in *.

(** Point at an answered call in a history. *)
Ltac find_in := cbn; first [left; reflexivity | right; find_in].

(** Point at the call that raised. *)
Ltac find_failed :=
  match goal with
  | |- context [existT _ ?ev (inl _)] => solve [exists ev; find_in]
  end.

(** ** [ensure_field_tab] *)

Section EnsureFieldTab.
Variable World : Type.
Variable respond : forall ev : event, World -> result (resp ev) * World.

(** X1.  Whatever the browser answers, [ensure_field_tab] makes one call only
    when the field is displayed, raises NoSuchElementException only when the
    reading of the visibility of the field itself raised it, and acts on the
    page by one click at most. *)
Theorem ensure_field_tab_quiet (field : handle) (w : World) :
  let h := history respond (ensure_field_tab (VElt field)) w in
  let out := outcome respond (ensure_field_tab (VElt field)) w in
  (hd_error h = Some (gives (IsDisplayed field) true) ->
   h = [gives (IsDisplayed field) true] /\ out = inr tt)
  /\ (out = inl NoSuchElementException ->
      h = [fails (IsDisplayed field) NoSuchElementException])
  /\ (actions h = [] \/ exists e, actions h = [Click e]).
Proof.
  apply (run_always World respond
           (fun h out =>
              (hd_error h = Some (gives (IsDisplayed field) true) ->
               h = [gives (IsDisplayed field) true] /\ out = inr tt)
              /\ (out = inl NoSuchElementException ->
                  h = [fails (IsDisplayed field) NoSuchElementException])
              /\ (actions h = [] \/ exists e, actions h = [Click e]))).
  unfold ensure_field_tab.
  explore.
  all: settle; auto; try (right; eexists; reflexivity).
Qed.

End EnsureFieldTab.

(** ** The fillers *)

Section FillerFacts.
Variable World : Type.
Variable respond : forall ev : event, World -> result (resp ev) * World.

(** X2.  An input whose [type] attribute is missing, empty, or anything but
    [file] and [radio] is filled as a text input: it is cleared, and the
    value is typed into it. *)
Theorem fill_input_other_types (fname : string) (field : handle) (value : string)
    (ftype : option string) (w w' : World) :
  or_text ftype <> "file" -> or_text ftype <> "radio" ->
  answers respond w
    [ gives (GetAttribute field "type") ftype;
      gives (Clear field) tt;
      gives (SendKeys field value) tt ] w' ->
  run respond (fill_input fname (VElt field) value) w
  = (inr tt, w', [GetAttribute field "type"; Clear field; SendKeys field value]).
Proof.
  intros Hf Hr H. split_answers H. unfold fill_input, fill_input_filler.
  cbn. rewrite Hr0. cbn.
  destruct (String.eqb_spec (or_text ftype) "text");
    [| destruct (String.eqb_spec (or_text ftype) "file"); [contradiction |];
       destruct (String.eqb_spec (or_text ftype) "radio"); [contradiction |]];
    cbn; rewrite Hr1; cbn; rewrite Hr2; reflexivity.
Qed.

(** X3.  Whatever the browser and the disk answer, [fill_input_file] types
    into the field at most what [os.path.abspath] returned for the value,
    and only after [os.path.exists] and [os.path.isfile] answered true for
    that path; when it returns normally it has typed it. *)
Theorem fill_input_file_types_checked_path (fname : string) (field : handle)
    (value : string) (w : World) :
  let h := history respond (fill_input_file fname (VElt field) value) w in
  let out := outcome respond (fill_input_file fname (VElt field) value) w in
  (forall e keys,
      In (SendKeys e keys) (calls h) ->
      e = field
      /\ In (gives (OsPathAbspath value) keys) h
      /\ In (gives (OsPathExists keys) true) h
      /\ In (gives (OsPathIsfile keys) true) h)
  /\ (out = inr tt -> exists fpath, In (gives (SendKeys field fpath) tt) h).
Proof.
  apply (run_always World respond
           (fun h out =>
              (forall e keys,
                  In (SendKeys e keys) (calls h) ->
                  e = field
                  /\ In (gives (OsPathAbspath value) keys) h
                  /\ In (gives (OsPathExists keys) true) h
                  /\ In (gives (OsPathIsfile keys) true) h)
              /\ (out = inr tt -> exists fpath, In (gives (SendKeys field fpath) tt) h))).
  unfold fill_input_file. explore.
  all: settle; auto 8.
  all: try (eexists; do 4 right; left; reflexivity).
Qed.

(** X4.  On a select that is displayed as a native dropdown, [fill_select]
    clicks the option that has the value, and does nothing else. *)
Theorem fill_select_native (fname : string) (field opt : handle) (value : string)
    (w w' : World) :
  answers respond w
    [ gives (FindElement ByXpath field (".//option[@value='" ++ value ++ "']")) opt;
      gives (IsDisplayed field) true;
      gives (Click opt) tt ] w' ->
  run respond (fill_select fname (VElt field) value) w
  = (inr tt, w',
     [ FindElement ByXpath field (".//option[@value='" ++ value ++ "']");
       IsDisplayed field; Click opt ]).
Proof.
  intro H. split_answers H. unfold fill_select.
  repeat match goal with Hr : respond _ _ = _ |- _ =>
           progress (simpl in *; rewrite Hr; simpl) end.
  reflexivity.
Qed.

End FillerFacts.

Section SelectFacts.
Variable World : Type.
Variable respond : forall ev : event, World -> result (resp ev) * World.

(** X5.  Whatever the browser answers, [fill_select] returns only after a
    click, and it clicks nothing but: the option that has the value, when
    the select is displayed; and when it is not, the link of the search
    widget and an entry of the result list that is the only entry. *)
Theorem fill_select_clicks (fname : string) (field : handle) (value : string)
    (w : World) :
  let h := history respond (fill_select fname (VElt field) value) w in
  let option_xpath := ".//option[@value='" ++ value ++ "']" in
  (outcome respond (fill_select fname (VElt field) value) w = inr tt ->
   exists e, In (gives (Click e) tt) h)
  /\ (forall e, In (Click e) (calls h) ->
      (In (gives (IsDisplayed field) true) h
       /\ In (gives (FindElement ByXpath field option_xpath) e) h)
      \/ (In (gives (IsDisplayed field) false) h
          /\ ((exists sel, In (gives (FindElement ByTag sel "a") e) h)
              \/ exists listing, In (gives (FindElements ByTag listing "li") [e]) h))).
Proof.
  cbv zeta.
  apply (run_always World respond
           (fun h (out : result unit) =>
              (out = inr tt -> exists e, In (gives (Click e) tt) h)
              /\ (forall e, In (Click e) (calls h) ->
                  (In (gives (IsDisplayed field) true) h
                   /\ In (gives (FindElement ByXpath field
                                   (".//option[@value='" ++ value ++ "']")) e) h)
                  \/ (In (gives (IsDisplayed field) false) h
                      /\ ((exists sel, In (gives (FindElement ByTag sel "a") e) h)
                          \/ exists listing,
                               In (gives (FindElements ByTag listing "li") [e]) h))))).
  unfold fill_select, send_keys_opt.
  repeat (cbn; unfold assert_; cbn;
          first [ branch
                | match goal with
                  | |- context [Nat.eqb (List.length (map VElt ?l)) 1] =>
                      is_var l; destruct l as [| ? [| ? ?]]
                  end ]); cbn.
  all: settle; auto.
  all: try solve [eexists; find_in].
  all: try solve [left; split; find_in].
  all: try solve [right; split; [find_in | left; eexists; find_in]].
  all: try solve [right; split; [find_in | right; eexists; find_in]].
Qed.

End SelectFacts.

Section TextareaFacts.
Variable World : Type.
Variable respond : forall ev : event, World -> result (resp ev) * World.

(** X6.  Whatever the browser answers, [fill_textarea] clears no element but
    the field, and clears it only when it was displayed at the start, or
    when its class holds [mce_editable] and the wait for its display after
    the click on the toggle went through; it types nothing but the value,
    into the field, after the field was cleared. *)
Theorem fill_textarea_guarded (fname : string) (field : handle) (value : string)
    (w : World) :
  let h := history respond (fill_textarea fname (VElt field) value) w in
  (forall e,
      In (Clear e) (calls h) ->
      e = field
      /\ (hd_error h = Some (gives (IsDisplayed field) true)
          \/ exists cl,
               In (gives (GetAttribute field "class") (Some cl)) h
               /\ PyStr.contains "mce_editable" cl = true
               /\ In (gives (WaitDisplayed field) tt) h))
  /\ (forall e keys,
        In (SendKeys e keys) (calls h) ->
        e = field /\ keys = value /\ In (gives (Clear field) tt) h).
Proof.
  apply (run_always World respond
           (fun h (out : result unit) =>
              (forall e,
                  In (Clear e) (calls h) ->
                  e = field
                  /\ (hd_error h = Some (gives (IsDisplayed field) true)
                      \/ exists cl,
                           In (gives (GetAttribute field "class") (Some cl)) h
                           /\ PyStr.contains "mce_editable" cl = true
                           /\ In (gives (WaitDisplayed field) tt) h))
              /\ (forall e keys,
                    In (SendKeys e keys) (calls h) ->
                    e = field /\ keys = value /\ In (gives (Clear field) tt) h))).
  unfold fill_textarea. explore.
  all: settle; auto 12.
  all: try (right; eexists; repeat split; [| eassumption |]; cbn; auto 12).
Qed.

(** X7.  A hidden textarea that is not one of the rich editor is not touched:
    when the field is not displayed and its class does not hold
    [mce_editable], [fill_textarea] raises AssertionError after reading the
    class, and when the field has no class attribute it raises TypeError. *)
Theorem fill_textarea_hidden_plain (fname : string) (field : handle) (value : string)
    (class : option string) (w w' : World) :
  answers respond w
    [ gives (IsDisplayed field) false;
      gives (GetAttribute field "class") class ] w' ->
  match class with
  | Some cl => PyStr.contains "mce_editable" cl = false
  | None => True
  end ->
  run respond (fill_textarea fname (VElt field) value) w
  = (inl (match class with
          | Some _ => AssertionError "field not visible and not a tinymce one"
          | None => TypeError "argument of type 'NoneType' is not iterable"
          end),
     w', [IsDisplayed field; GetAttribute field "class"]).
Proof.
  intros H Hc. split_answers H. unfold fill_textarea.
  cbn. rewrite Hr. cbn. rewrite Hr0. cbn.
  destruct class as [cl |]; cbn; [rewrite Hc |]; reflexivity.
Qed.

End TextareaFacts.

(** ** [select_article_in_popup] *)

Section PopupFacts.
Variable World : Type.
Variable respond : forall ev : event, World -> result (resp ev) * World.

(** X8.  Whatever the browser answers: [select_article_in_popup] returns only
    after it switched back to the parent frame; it switches back only after
    a click on the link of the article (found at once, or after the search)
    and after the popup has gone; and it types into the search box nothing
    but the title, and only when the first lookup of the link raised
    NoSuchElementException. *)
Theorem select_article_in_popup_frames (article_id : Z) (article_title fname : string)
    (w : World) :
  let p := select_article_in_popup article_id article_title fname in
  let h := history respond p w in
  let link_found (link : handle) :=
    In (gives (FindElement ByXpath b (link_xpath fname article_id)) link) h
    \/ In (gives (WaitPresence (link_xpath fname article_id)) link) h in
  (forall a, outcome respond p w = inr a -> In (gives SwitchToParentFrame tt) h)
  /\ (In SwitchToParentFrame (calls h) ->
      In (gives (WaitNotPresence (popup_xpath fname)) tt) h
      /\ exists link, link_found link /\ In (gives (Click link) tt) h)
  /\ (forall e keys,
        In (SendKeys e keys) (calls h) ->
        keys = article_title
        /\ In (fails (FindElement ByXpath b (link_xpath fname article_id))
                 NoSuchElementException) h).
Proof.
  cbv zeta.
  apply (run_always World respond
           (fun h (out : result unit) =>
              (forall a, out = inr a -> In (gives SwitchToParentFrame tt) h)
              /\ (In SwitchToParentFrame (calls h) ->
                  In (gives (WaitNotPresence (popup_xpath fname)) tt) h
                  /\ exists link,
                       (In (gives (FindElement ByXpath b (link_xpath fname article_id)) link) h
                        \/ In (gives (WaitPresence (link_xpath fname article_id)) link) h)
                       /\ In (gives (Click link) tt) h)
              /\ (forall e keys,
                    In (SendKeys e keys) (calls h) ->
                    keys = article_title
                    /\ In (fails (FindElement ByXpath b (link_xpath fname article_id))
                             NoSuchElementException) h))).
  unfold select_article_in_popup. explore.
  all: settle; auto; try solve [find_in].
  all: eexists; split; [first [left; find_in | right; find_in] | find_in].
Qed.

(** X9.  When the link of the article is found at once, nothing is searched:
    the link is clicked, the popup goes and the parent frame is back. *)
Theorem select_article_in_popup_direct (article_id : Z) (article_title fname : string)
    (link : handle) (w w' : World) :
  answers respond w
    [ gives (WaitFrameAvailable (popup_xpath fname)) tt;
      gives (Sleep 1) tt;
      gives (FindElement ByXpath b (link_xpath fname article_id)) link;
      gives (Click link) tt;
      gives (WaitNotPresence (popup_xpath fname)) tt;
      gives SwitchToParentFrame tt;
      gives (Sleep 1) tt ] w' ->
  run respond (select_article_in_popup article_id article_title fname) w
  = (inr tt, w',
     [ WaitFrameAvailable (popup_xpath fname); Sleep 1;
       FindElement ByXpath b (link_xpath fname article_id);
       Click link; WaitNotPresence (popup_xpath fname);
       SwitchToParentFrame; Sleep 1 ]).
Proof.
  intro H. unfold popup_xpath, link_xpath in *. split_answers H.
  unfold select_article_in_popup.
  repeat match goal with Hr : respond _ _ = _ |- _ =>
           progress (simpl in *; rewrite Hr; simpl) end.
  reflexivity.
Qed.

(** X10.  When the first lookup of the link raises NoSuchElementException, the
    title is typed into the search box, the search button is clicked, and
    the link waited for is the one clicked. *)
Theorem select_article_in_popup_search (article_id : Z) (article_title fname : string)
    (box button link : handle) (w w' : World) :
  answers respond w
    [ gives (WaitFrameAvailable (popup_xpath fname)) tt;
      gives (Sleep 1) tt;
      fails (FindElement ByXpath b (link_xpath fname article_id)) NoSuchElementException;
      gives (FindElement ByName b "filter[search]") box;
      gives (Clear box) tt;
      gives (SendKeys box article_title) tt;
      gives (FindElement ByXpath box "./following-sibling::button") button;
      gives (Click button) tt;
      gives (WaitPresence (link_xpath fname article_id)) link;
      gives (Click link) tt;
      gives (WaitNotPresence (popup_xpath fname)) tt;
      gives SwitchToParentFrame tt;
      gives (Sleep 1) tt ] w' ->
  run respond (select_article_in_popup article_id article_title fname) w
  = (inr tt, w',
     [ WaitFrameAvailable (popup_xpath fname); Sleep 1;
       FindElement ByXpath b (link_xpath fname article_id);
       FindElement ByName b "filter[search]"; Clear box;
       SendKeys box article_title;
       FindElement ByXpath box "./following-sibling::button"; Click button;
       WaitPresence (link_xpath fname article_id);
       Click link; WaitNotPresence (popup_xpath fname);
       SwitchToParentFrame; Sleep 1 ]).
Proof.
  intro H. unfold popup_xpath, link_xpath in *. split_answers H.
  unfold select_article_in_popup.
  repeat match goal with Hr : respond _ _ = _ |- _ =>
           progress (simpl in *; rewrite Hr; simpl) end.
  reflexivity.
Qed.

End PopupFacts.

(** ** [fill_association] *)

Section AssociationFacts.
Variable World : Type.
Variable respond : forall ev : event, World -> result (resp ev) * World.

(** X11.  A field name without a bracket is refused before any call is made:
    [fill_association] raises ValueError, whatever the value. *)
Theorem fill_association_without_language (fname value : string) (w : World) :
  no_bracket fname = true ->
  run respond (fill_association fname value) w
  = (inl (ValueError "not enough values to unpack (expected 2, got 1)"), w, []).
Proof.
  intro H. unfold fill_association.
  rewrite (split_by_last is_bracket fname H). reflexivity.
Qed.

(** X12.  For the field name [base[lang]], the field looked up first is the one
    named [jform[base][lang]] with the underscores of the language code
    turned into hyphens. *)
Theorem fill_association_field_looked_up (base lang rest value : string) (w : World) :
  no_bracket base = true -> no_bracket lang = true ->
  hd_error (trace respond
              (fill_association (base ++ "[" ++ lang ++ "]" ++ rest) value) w)
  = Some (FindElement ByName b
            ("jform[" ++ base ++ "][" ++ PyStr.replace_char "_" "-" lang ++ "]")).
Proof.
  intros Hb Hl. unfold fill_association, trace.
  change (base ++ "[" ++ lang ++ "]" ++ rest)
    with (base ++ String "[" (lang ++ String "]" rest)).
  rewrite (split_by_part is_bracket base _ "[" Hb eq_refl).
  rewrite (split_by_part is_bracket lang _ "]" Hl eq_refl).
  cbn [firstn unpack2 bind].
  unfold by_name, no_such_element_default, find_one.
  cbn [bind call try_except run].
  destruct (respond _ w) as [r w1].
  match goal with |- context [run respond ?p w1] =>
    destruct (run respond p w1) as [[out w2] tr] end.
  reflexivity.
Qed.

(** X13.  A value without a hyphen is refused only after the chooser of the
    field was clicked: [fill_association] raises ValueError then, with the
    popup already asked for. *)
Theorem fill_association_value_without_hyphen (base lang value : string)
    (field button : handle) (w w' : World) :
  no_bracket base = true -> no_bracket lang = true ->
  PyStr.mem "-" value = false ->
  answers respond w
    [ gives (FindElement ByName b
               ("jform[" ++ base ++ "][" ++ PyStr.replace_char "_" "-" lang ++ "]"))
            field;
      gives (IsDisplayed field) true;
      gives (FindElement ByXpath field "..//a") button;
      gives (Click button) tt ] w' ->
  run respond (fill_association (base ++ "[" ++ lang ++ "]") value) w
  = (inl (ValueError "not enough values to unpack (expected 2, got 1)"), w',
     [ FindElement ByName b
         ("jform[" ++ base ++ "][" ++ PyStr.replace_char "_" "-" lang ++ "]");
       IsDisplayed field;
       FindElement ByXpath field "..//a";
       Click button ]).
Proof.
  intros Hb Hl Hv H. unfold fill_association.
  change (base ++ "[" ++ lang ++ "]")
    with (base ++ String "[" (lang ++ String "]" "")).
  rewrite (split_by_part is_bracket base _ "[" Hb eq_refl).
  rewrite (split_by_part is_bracket lang _ "]" Hl eq_refl).
  rewrite (split_once_absent _ _ Hv).
  split_answers H.
  unfold ensure_field_tab.
  repeat match goal with Hr : respond _ _ = _ |- _ =>
           progress (simpl in *; rewrite Hr; simpl) end.
  reflexivity.
Qed.

End AssociationFacts.

(** ** [fill_field] *)

Section FieldFacts.
Variable World : Type.
Variable respond : forall ev : event, World -> result (resp ev) * World.
Variable again : string -> pyval -> string -> prog unit.


(** X15.  A field that is one displayed [input] element of a type other than
    [file] and [radio] is filled through the whole chain: looked up by
    name ([jform[name]] unless [jform] is false), checked for display, its
    tag and type read, then cleared and typed into. *)
Theorem fill_field_text_input (name value : string) (jform : bool)
    (field : handle) (ftype : option string) (w w' : World) :
  or_text ftype <> "file" -> or_text ftype <> "radio" ->
  answers respond w
    [ gives (FindElements ByName b (field_name name jform)) [field];
      gives (IsDisplayed field) true;
      gives (TagName field) "input";
      gives (GetAttribute field "type") ftype;
      gives (Clear field) tt;
      gives (SendKeys field value) tt ] w' ->
  run respond (fill_field again name value jform) w
  = (inr tt, w',
     [ FindElements ByName b (field_name name jform);
       IsDisplayed field; TagName field; GetAttribute field "type";
       Clear field; SendKeys field value ]).
Proof.
  intros Hf Hr H. split_answers H.
  unfold fill_field. fold (field_name name jform).
  cbn. rewrite Hr0. cbn. unfold ensure_field_tab. cbn. rewrite Hr1. cbn.
  rewrite Hr2. cbn. unfold fill_input, fill_input_filler. cbn. rewrite Hr3. cbn.
  destruct (String.eqb_spec (or_text ftype) "text");
    [| destruct (String.eqb_spec (or_text ftype) "file"); [contradiction |];
       destruct (String.eqb_spec (or_text ftype) "radio"); [contradiction |]];
    cbn; rewrite Hr4; cbn; rewrite Hr5; reflexivity.
Qed.

End FieldFacts.

(** ** The check for the error banner and the id read from the address *)

Section ResultFacts.
Variable World : Type.
Variable respond : forall ev : event, World -> result (resp ev) * World.

(** X18.  Whatever the browser answers, the check made after a save returns
    only when the lookup of the banner raised NoSuchElementException; it
    never asks an element for its text or for an attribute; and it raises
    AdminError only if a call to the browser raised that very exception:
    with a banner on the page it ends on TypeError or IndexError, from the
    subscript. *)
Theorem raise_on_error_hides_banner (w : World) :
  let h := history respond raise_on_error w in
  let out := outcome respond raise_on_error w in
  (out = inr tt ->
   h = [fails (FindElement ByCss b ".alert-error") NoSuchElementException])
  /\ (forall e, In (Text e) (calls h) -> False)
  /\ (forall e name, In (GetAttribute e name) (calls h) -> False)
  /\ (forall msg, out = inl (AdminError msg) ->
      exists ev, In (fails ev (AdminError msg)) h)
  /\ (forall banner, hd_error h = Some (gives (FindElement ByCss b ".alert-error") banner) ->
      out = inl (TypeError "'EltWrapper' object is not subscriptable")
      \/ out = inl (IndexError "list index out of range")
      \/ exists e, In (fails (FindElement ByCss b ".alert-error") e) h /\ out = inl e).
Proof.
  cbv zeta.
  apply (run_always World respond
           (fun h (out : result unit) =>
              (out = inr tt ->
               h = [fails (FindElement ByCss b ".alert-error") NoSuchElementException])
              /\ (forall e, In (Text e) (calls h) -> False)
              /\ (forall e name, In (GetAttribute e name) (calls h) -> False)
              /\ (forall msg, out = inl (AdminError msg) ->
                  exists ev, In (fails ev (AdminError msg)) h)
              /\ (forall banner,
                    hd_error h = Some (gives (FindElement ByCss b ".alert-error") banner) ->
                    out = inl (TypeError "'EltWrapper' object is not subscriptable")
                    \/ out = inl (IndexError "list index out of range")
                    \/ exists e, In (fails (FindElement ByCss b ".alert-error") e) h
                                 /\ out = inl e))).
  unfold raise_on_error, jap.jform_error. explore.
  all: settle; auto.
  all: try find_failed.
  all: try solve [right; right; eexists; split; [find_in | reflexivity]].
Qed.

(** X19.  [add_article] hands out nothing but what the address shows: its last
    part (lines 393-401) returns an id only when no banner was found, the
    id is the first value of the [id] parameter of the address the browser
    gave, and the cancel button was found and clicked after that. *)
Theorem add_article_result_reads_url (w : World) (id : string) :
  outcome respond add_article_result w = inr id ->
  exists url p ids cancel,
    history respond add_article_result w
    = [ fails (FindElement ByCss b ".alert-error") NoSuchElementException;
        gives CurrentUrl url;
        gives (FindElement ByXpath b "//button[contains(@onclick, 'article.cancel')]")
              cancel;
        gives (Click cancel) tt ]
    /\ Urllib.urlparse url = inr p
    /\ Dict.get "id" (Urllib.parse_qs (Urllib.query p)) = Some (id :: ids).
Proof.
  revert id.
  apply (run_always World respond
           (fun h (out : result string) =>
              forall id, out = inr id ->
              exists url p ids cancel,
                h = [ fails (FindElement ByCss b ".alert-error") NoSuchElementException;
                      gives CurrentUrl url;
                      gives (FindElement ByXpath b
                               "//button[contains(@onclick, 'article.cancel')]") cancel;
                      gives (Click cancel) tt ]
                /\ Urllib.urlparse url = inr p
                /\ Dict.get "id" (Urllib.parse_qs (Urllib.query p)) = Some (id :: ids))).
  unfold add_article_result, jap.jform_error, jap.jform_action.
  repeat (cbn; first
    [ branch
    | match goal with
      | |- context [Urllib.urlparse ?u] =>
          let E := fresh "Eu" in destruct (Urllib.urlparse u) eqn:E
      | |- context [Dict.get ?k ?d] =>
          let E := fresh "Ed" in destruct (Dict.get k d) as [[| ? ?] |] eqn:E
      end ]); cbn.
  all: intros id' Hid; try discriminate Hid.
  injection Hid as <-.
  repeat match goal with u : unit |- _ => destruct u end.
  repeat eexists; eassumption.
Qed.

(** X21.  What [update_url_params] writes, the id lookup reads: when the
    browser shows the address that [update_url_params] made of a URL
    naming a host by setting [key] to a value whose text is not empty,
    the parameter read from the address is the text of that value. *)
Theorem url_param_update_url_params (url new_url key : string) (value : qvalue)
    (p : Urllib.ParseResult) (w w1 : World) :
  Urllib.urlparse url = inr p ->
  Urllib.netloc p <> "" ->
  blank (key, value) = false ->
  update_url_params url [(key, value)] = inr new_url ->
  respond CurrentUrl w = (inr new_url, w1) ->
  run respond (url_param key) w = (inr (PyRepr.str value), w1, [CurrentUrl]).
Proof.
  intros Hp Hn Hb Hu Hr.
  destruct (update_url_params_spec url [(key, value)] p Hp eq_refl)
    as (H1 & H2 & _ & H4).
  rewrite H1 in Hu. injection Hu as <-.
  unfold url_param, call. cbn [bind run]. rewrite Hr. cbn [bind run].
  rewrite (H4 Hn).
  change (Urllib.query (set_query p ?q)) with q.
  rewrite (read_back_get _ key value).
  - reflexivity.
  - apply unique_keys_update, unique_keys_old.
  - rewrite H2. cbn. now rewrite String.eqb_refl.
  - exact Hb.
Qed.

(** X22.  Without a banner, [add_attachment] returns the first value of the
    [cid[]] parameter of the address the browser shows, after a click on
    the cancel button. *)
Theorem add_attachment_returns_id (again : string -> pyval -> string -> prog unit)
    (article_id : Z) (article_title : string) (fields : list (string * string))
    (current_url attachment_id : string) (ids : list string)
    (parsed_url : Urllib.ParseResult) (cancel : handle)
    (w w1 w2 : World) (tr : list event) :
  run respond (add_attachment_submit again article_id article_title fields) w
  = (inr tt, w1, tr) ->
  answers respond w1
    [ fails (FindElement ByCss b ".alert-error") NoSuchElementException;
      gives CurrentUrl current_url;
      gives (FindElement ByXpath b "//button[contains(@onclick, 'attachment.cancel')]")
            cancel;
      gives (Click cancel) tt ] w2 ->
  Urllib.urlparse current_url = inr parsed_url ->
  Dict.get "cid[]" (Urllib.parse_qs (Urllib.query parsed_url))
  = Some (attachment_id :: ids) ->
  run respond (add_attachment again article_id article_title fields) w
  = (inr attachment_id, w2,
     (tr ++ [ FindElement ByCss b ".alert-error"; CurrentUrl;
              FindElement ByXpath b "//button[contains(@onclick, 'attachment.cancel')]";
              Click cancel ])%list).
Proof.
  intros Hs Ha Hp Hid. unfold add_attachment. rewrite run_bind, Hs.
  split_answers Ha. unfold add_attachment_result, raise_on_error, url_param.
  simpl. rewrite Hr. simpl. rewrite Hr0. simpl. rewrite Hp, Hid. simpl.
  rewrite Hr1. simpl. rewrite Hr2. reflexivity.
Qed.

(** X23.  With a banner on the page after the save, [add_attachment] ends on
    TypeError, from the subscript applied to the wrapper of the banner: the
    text of the banner is not read, and the exception is not AdminError. *)
Theorem add_attachment_banner_TypeError (again : string -> pyval -> string -> prog unit)
    (article_id : Z) (article_title : string) (fields : list (string * string))
    (banner banner' : handle) (w w1 w2 w3 : World) (tr : list event) :
  run respond (add_attachment_submit again article_id article_title fields) w
  = (inr tt, w1, tr) ->
  respond (FindElement ByCss b ".alert-error") w1 = (inr banner, w2) ->
  respond (FindElement ByCss b ".alert-error") w2 = (inr banner', w3) ->
  run respond (add_attachment again article_id article_title fields) w
  = (inl (TypeError "'EltWrapper' object is not subscriptable"), w3,
     (tr ++ [FindElement ByCss b ".alert-error";
             FindElement ByCss b ".alert-error"])%list).
Proof.
  intros Hs H1 H2. unfold add_attachment. rewrite run_bind, Hs.
  unfold add_attachment_result, raise_on_error. simpl. rewrite H1. simpl.
  rewrite H2. reflexivity.
Qed.

End ResultFacts.

(** ** [modify_article], [login] and [logout] *)

Section AdminFacts.
Variable World : Type.
Variable respond : forall ev : event, World -> result (resp ev) * World.
Variable urljoin : string -> string -> string.
Variable base_url : string.
Variable again : string -> pyval -> string -> prog unit.

(** X24.  Whatever the browser answers, [modify_article] never returns, never
    opens the edit page and never touches a field: it makes no call but
    the lookups and clicks that open the list of articles, and once these
    went through it stops on AttributeError, the browser having no
    [jaction_link]. *)
Theorem modify_article_never_edits (id : qvalue) (fields : list (string * string))
    (w : World) :
  let p := modify_article urljoin base_url again id fields in
  let h := history respond p w in
  (forall x, outcome respond p w = inr x -> False)
  /\ (forall ev, In ev (calls h) ->
      (exists selector, ev = FindElement ByXpath b selector
                        \/ ev = FindElement ByCss b selector)
      \/ exists e, ev = Click e)
  /\ (forallb (fun a => negb (failed a)) h = true ->
      outcome respond p w = inl (AttributeError "jaction_link")
      /\ List.length h = 4).
Proof.
  cbv zeta.
  apply (run_always World respond
           (fun h (out : result qvalue) =>
              (forall x, out = inr x -> False)
              /\ (forall ev, In ev (calls h) ->
                  (exists selector, ev = FindElement ByXpath b selector
                                    \/ ev = FindElement ByCss b selector)
                  \/ exists e, ev = Click e)
              /\ (forallb (fun a => negb (failed a)) h = true ->
                  out = inl (AttributeError "jaction_link") /\ List.length h = 4))).
  unfold modify_article, open_articles, jap.menu_contents, jap.menu_article,
    b_jaction_link.
  explore.
  all: settle; auto.
  all: try solve [left; eexists; left; reflexivity
                 | left; eexists; right; reflexivity
                 | right; eexists; reflexivity].
Qed.

(** X25.  Whatever the browser answers, [login] opens the administrator page of
    the site first; it types the password only into the field named
    [passwd], after the user name went into the field named [username]; it
    returns only when the logout link was found; and its own assertion
    never fails: AssertionError comes out only if a call to the browser
    raised it. *)
Theorem login_checks_logout_link (username passwd : string) (w : World) :
  let p := login urljoin base_url username passwd in
  let h := history respond p w in
  hd_error (calls h) = Some (Get (urljoin base_url "/administrator"))
  /\ (outcome respond p w = inr tt ->
      exists user_box passwd_box button link,
        h = [ gives (Get (urljoin base_url "/administrator")) tt;
              gives (FindElement ByName b "username") user_box;
              gives (SendKeys user_box username) tt;
              gives (FindElement ByName b "passwd") passwd_box;
              gives (SendKeys passwd_box passwd) tt;
              gives (FindElement ByCss b "button.btn-primary") button;
              gives (Click button) tt;
              gives (FindElement ByXpath b "//a[contains(@href, 'task=logout')]")
                    link ])
  /\ (forall msg, outcome respond p w = inl (AssertionError msg) ->
      exists ev, In (fails ev (AssertionError msg)) h).
Proof.
  cbv zeta.
  apply (run_always World respond
           (fun h (out : result unit) =>
              hd_error (calls h) = Some (Get (urljoin base_url "/administrator"))
              /\ (out = inr tt ->
                  exists user_box passwd_box button link,
                    h = [ gives (Get (urljoin base_url "/administrator")) tt;
                          gives (FindElement ByName b "username") user_box;
                          gives (SendKeys user_box username) tt;
                          gives (FindElement ByName b "passwd") passwd_box;
                          gives (SendKeys passwd_box passwd) tt;
                          gives (FindElement ByCss b "button.btn-primary") button;
                          gives (Click button) tt;
                          gives (FindElement ByXpath b
                                   "//a[contains(@href, 'task=logout')]") link ])
              /\ (forall msg, out = inl (AssertionError msg) ->
                  exists ev, In (fails ev (AssertionError msg)) h))).
  unfold login, abs_url, jap.logout.
  explore.
  all: settle; auto.
  all: try solve [repeat eexists].
  all: find_failed.
Qed.

(** X26.  Whatever the browser answers, [logout] clicks at most twice, first on
    the user menu and then on the logout link, and it returns only after
    both clicks. *)
Theorem logout_clicks_menu_then_link (w : World) :
  let h := history respond logout w in
  (outcome respond logout w = inr tt ->
   exists menu link,
     h = [ gives (FindElement ByXpath b "//a[./span[contains(@class, 'icon-user')]]") menu;
           gives (Click menu) tt;
           gives (FindElement ByXpath b "//a[contains(@href, 'task=logout')]") link;
           gives (Click link) tt ])
  /\ (forall e, In (Click e) (calls h) ->
      In (gives (FindElement ByXpath b "//a[./span[contains(@class, 'icon-user')]]") e) h
      \/ In (gives (FindElement ByXpath b "//a[contains(@href, 'task=logout')]") e) h).
Proof.
  cbv zeta.
  apply (run_always World respond
           (fun h (out : result unit) =>
              (out = inr tt ->
               exists menu link,
                 h = [ gives (FindElement ByXpath b
                                "//a[./span[contains(@class, 'icon-user')]]") menu;
                       gives (Click menu) tt;
                       gives (FindElement ByXpath b
                                "//a[contains(@href, 'task=logout')]") link;
                       gives (Click link) tt ])
              /\ (forall e, In (Click e) (calls h) ->
                  In (gives (FindElement ByXpath b
                               "//a[./span[contains(@class, 'icon-user')]]") e) h
                  \/ In (gives (FindElement ByXpath b
                                  "//a[contains(@href, 'task=logout')]") e) h))).
  unfold logout, jap.menu_user, jap.logout.
  explore.
  all: settle; auto.
  all: try solve [repeat eexists].
  all: try solve [left; find_in | right; find_in].
Qed.

End AdminFacts.

(** ** [chord] *)

Section ChordFacts.

Lemma fold_left_snoc {A B} (f : A -> B) (l : list A) (acc : list B) :
  fold_left (fun a k => (a ++ [f k])%list) l acc = (acc ++ map f l)%list.
Proof.
  revert acc. induction l as [| x l IH]; intro acc; cbn [fold_left map].
  - now rewrite app_nil_r.
  - rewrite IH, <- app_assoc. reflexivity.
Qed.

Lemma map_constant {A B} (b : B) (l : list A) :
  map (fun _ => b) l = repeat b (List.length l).
Proof. induction l as [| x l IH]; cbn; [reflexivity | now rewrite IH]. Qed.

(** X27.  [chord] presses the keys in the order given, sends the key, and then
    releases [Keys.CONTROL] once for every key pressed, whichever keys
    these were: a key other than [Keys.CONTROL] that it pressed is never
    released. *)
Theorem chord_releases_control_only (ctrl_keys : ctrl_keys_arg) (key : string) :
  chord ctrl_keys key
  = (map key_down (pressed ctrl_keys)
     ++ chain_send_keys key
     :: repeat (key_up Keys_CONTROL) (List.length (pressed ctrl_keys)))%list
  /\ (forall k, In (key_down k) (chord ctrl_keys key) ->
      k <> Keys_CONTROL -> In (key_up k) (chord ctrl_keys key) -> False).
Proof.
  assert (H : chord ctrl_keys key
              = (map key_down (pressed ctrl_keys)
                 ++ chain_send_keys key
                 :: repeat (key_up Keys_CONTROL) (List.length (pressed ctrl_keys)))%list).
  { unfold chord. fold (pressed ctrl_keys).
    rewrite (fold_left_snoc key_down), (fold_left_snoc (fun _ => key_up Keys_CONTROL)).
    rewrite map_constant, length_rev, <- app_assoc. reflexivity. }
  split; [exact H |].
  intros k _ Hk Hin. rewrite H in Hin. apply in_app_or in Hin as [Hin | [Hin | Hin]].
  - apply in_map_iff in Hin as (x & Hx & _). discriminate Hx.
  - discriminate Hin.
  - apply repeat_spec in Hin. injection Hin as ->. now apply Hk.
Qed.

End ChordFacts.

(** ** [update_url_params]: the order of the fields *)

Section UpdateUrlParamsMore.
Import Urllib.

Lemma keys_fresh {V} (d other : Dict.t V) :
  Dict.keys (fresh d other)
  = filter (fun k => negb (key_in k d)) (Dict.keys other).
Proof.
  unfold fresh, Dict.keys. induction other as [| [k v] other IH]; [reflexivity |].
  cbn [filter map fst]. destruct (negb (key_in k d)); cbn [map fst]; now rewrite IH.
Qed.

Lemma keys_app {V} (a b : Dict.t V) :
  Dict.keys (a ++ b)%list = (Dict.keys a ++ Dict.keys b)%list.
Proof. apply map_app. Qed.

(** X29.  The fields of the query [update_url_params] writes come in a fixed
    order: the names of the query of the input, each once, in the order
    they first stand there, then the keyword arguments that are new names,
    in the order they were given. *)
Theorem update_url_params_field_order (url : string) (kwargs : Dict.t qvalue)
    (p : ParseResult) :
  urlparse url = inr p ->
  unique_keys kwargs = true ->
  exists fields : Dict.t qvalue,
    update_url_params url kwargs
    = inr (urlunparse (set_query p (PyStr.join "&" (map encoded fields))))
    /\ unique_keys fields = true
    /\ Dict.keys fields
       = (Dict.keys (parse_qs (query p))
          ++ filter (fun k => negb (key_in k (parse_qs (query p)))) (Dict.keys kwargs))%list.
Proof.
  intros Hp Hk. exists (merged_params p kwargs). split; [| split].
  - unfold update_url_params. rewrite Hp. reflexivity.
  - apply unique_keys_update, unique_keys_old.
  - unfold merged_params.
    rewrite (update_spec _ _ Hk (unique_keys_old p)).
    rewrite keys_app, keys_overwrite, keys_fresh. f_equal.
    + unfold Dict.keys. rewrite map_map. reflexivity.
    + apply filter_ext. intro k. f_equal.
      apply key_in_keys_eq. unfold Dict.keys. rewrite map_map. reflexivity.
Qed.

End UpdateUrlParamsMore.

(** ** The properties on the demonstration page and on scripted browsers *)

(** Check a script call by call. *)
Ltac scripted :=
  repeat (cbn [answers gives fails app]; eexists; split; [reflexivity |]);
  reflexivity.

Lemma lookup_other_exception_witness :
  run replay (by_css b ".alert-error" (Some (VList [])))
    [fails (FindElement ByCss b ".alert-error") (WebDriverException "chrome not reachable")]
  = (inl (WebDriverException "chrome not reachable"), [],
     [FindElement ByCss b ".alert-error"]).
Proof.
  apply (lookup_other_exception (list answer) replay By_css b ".alert-error"
           (Some (VList [])) (WebDriverException "chrome not reachable")).
  - reflexivity.
  - reflexivity.
Defined.

Lemma fill_input_other_types_witness :
  run replay (fill_input "email" (VElt (WebElement 3)) "me@joomla.test")
    [ gives (GetAttribute (WebElement 3) "type") (Some "email");
      gives (Clear (WebElement 3)) tt;
      gives (SendKeys (WebElement 3) "me@joomla.test") tt ]
  = (inr tt, [],
     [ GetAttribute (WebElement 3) "type"; Clear (WebElement 3);
       SendKeys (WebElement 3) "me@joomla.test" ]).
Proof.
  apply (fill_input_other_types (list answer) replay "email" (WebElement 3)
           "me@joomla.test" (Some "email")).
  - discriminate.
  - discriminate.
  - scripted.
Defined.

Lemma fill_select_native_witness :
  run Demo.respond (fill_select "state" (VElt (WebElement 30)) "1")
    (Demo.article_form false)
  = (inr tt, Demo.article_form false,
     [ FindElement ByXpath (WebElement 30) ".//option[@value='1']";
       IsDisplayed (WebElement 30); Click (WebElement 31) ]).
Proof.
  apply (fill_select_native Demo.page Demo.respond "state" (WebElement 30)
           (WebElement 31) "1").
  scripted.
Defined.

Lemma fill_textarea_hidden_plain_witness :
  run replay (fill_textarea "articletext" (VElt (WebElement 50)) "<p>Hello</p>")
    [ gives (IsDisplayed (WebElement 50)) false;
      gives (GetAttribute (WebElement 50) "class") (Some "inputbox") ]
  = (inl (AssertionError "field not visible and not a tinymce one"), [],
     [IsDisplayed (WebElement 50); GetAttribute (WebElement 50) "class"]).
Proof.
  apply (fill_textarea_hidden_plain (list answer) replay "articletext" (WebElement 50)
           "<p>Hello</p>" (Some "inputbox")).
  - scripted.
  - reflexivity.
Defined.

Lemma select_article_in_popup_direct_witness :
  run replay (select_article_in_popup 42 "Hello" "jSelectArticle")
    [ gives (WaitFrameAvailable (popup_xpath "jSelectArticle")) tt;
      gives (Sleep 1) tt;
      gives (FindElement ByXpath b (link_xpath "jSelectArticle" 42)) (WebElement 7);
      gives (Click (WebElement 7)) tt;
      gives (WaitNotPresence (popup_xpath "jSelectArticle")) tt;
      gives SwitchToParentFrame tt;
      gives (Sleep 1) tt ]
  = (inr tt, [],
     [ WaitFrameAvailable (popup_xpath "jSelectArticle"); Sleep 1;
       FindElement ByXpath b (link_xpath "jSelectArticle" 42);
       Click (WebElement 7); WaitNotPresence (popup_xpath "jSelectArticle");
       SwitchToParentFrame; Sleep 1 ]).
Proof.
  apply (select_article_in_popup_direct (list answer) replay 42 "Hello"
           "jSelectArticle" (WebElement 7)).
  scripted.
Defined.

Lemma select_article_in_popup_search_witness :
  run replay (select_article_in_popup 42 "Hello" "jSelectArticle")
    [ gives (WaitFrameAvailable (popup_xpath "jSelectArticle")) tt;
      gives (Sleep 1) tt;
      fails (FindElement ByXpath b (link_xpath "jSelectArticle" 42))
            NoSuchElementException;
      gives (FindElement ByName b "filter[search]") (WebElement 8);
      gives (Clear (WebElement 8)) tt;
      gives (SendKeys (WebElement 8) "Hello") tt;
      gives (FindElement ByXpath (WebElement 8) "./following-sibling::button")
            (WebElement 9);
      gives (Click (WebElement 9)) tt;
      gives (WaitPresence (link_xpath "jSelectArticle" 42)) (WebElement 7);
      gives (Click (WebElement 7)) tt;
      gives (WaitNotPresence (popup_xpath "jSelectArticle")) tt;
      gives SwitchToParentFrame tt;
      gives (Sleep 1) tt ]
  = (inr tt, [],
     [ WaitFrameAvailable (popup_xpath "jSelectArticle"); Sleep 1;
       FindElement ByXpath b (link_xpath "jSelectArticle" 42);
       FindElement ByName b "filter[search]"; Clear (WebElement 8);
       SendKeys (WebElement 8) "Hello";
       FindElement ByXpath (WebElement 8) "./following-sibling::button";
       Click (WebElement 9);
       WaitPresence (link_xpath "jSelectArticle" 42);
       Click (WebElement 7); WaitNotPresence (popup_xpath "jSelectArticle");
       SwitchToParentFrame; Sleep 1 ]).
Proof.
  apply (select_article_in_popup_search (list answer) replay 42 "Hello"
           "jSelectArticle" (WebElement 8) (WebElement 9) (WebElement 7)).
  scripted.
Defined.

Lemma fill_association_without_language_witness :
  run Demo.respond (fill_association "associations" "42 - Hello")
    (Demo.article_form false)
  = (inl (ValueError "not enough values to unpack (expected 2, got 1)"),
     Demo.article_form false, []).
Proof.
  apply (fill_association_without_language Demo.page Demo.respond "associations"
           "42 - Hello" (Demo.article_form false)).
  reflexivity.
Defined.

Lemma fill_association_field_looked_up_witness :
  hd_error (trace Demo.respond
              (fill_association ("associations" ++ "[" ++ "en_GB" ++ "]" ++ "")
                 "42 - Hello")
              (Demo.article_form false))
  = Some (FindElement ByName b
            ("jform[" ++ "associations" ++ "][" ++ PyStr.replace_char "_" "-" "en_GB"
             ++ "]")).
Proof.
  apply (fill_association_field_looked_up Demo.page Demo.respond "associations"
           "en_GB" "" "42 - Hello" (Demo.article_form false)).
  - reflexivity.
  - reflexivity.
Defined.

Lemma fill_association_value_without_hyphen_witness :
  run replay (fill_association ("associations" ++ "[" ++ "en_GB" ++ "]") "42 Hello")
    [ gives (FindElement ByName b "jform[associations][en-GB]") (WebElement 70);
      gives (IsDisplayed (WebElement 70)) true;
      gives (FindElement ByXpath (WebElement 70) "..//a") (WebElement 71);
      gives (Click (WebElement 71)) tt ]
  = (inl (ValueError "not enough values to unpack (expected 2, got 1)"), [],
     [ FindElement ByName b "jform[associations][en-GB]";
       IsDisplayed (WebElement 70);
       FindElement ByXpath (WebElement 70) "..//a";
       Click (WebElement 71) ]).
Proof.
  apply (fill_association_value_without_hyphen (list answer) replay "associations"
           "en_GB" "42 Hello" (WebElement 70) (WebElement 71)).
  - reflexivity.
  - reflexivity.
  - reflexivity.
  - scripted.
Defined.


Lemma fill_field_text_input_witness :
  run Demo.respond (fill_field Demo.again "title" "Hello" true)
    (Demo.article_form false)
  = (inr tt, Demo.article_form false,
     [ FindElements ByName b (field_name "title" true);
       IsDisplayed (WebElement 10); TagName (WebElement 10);
       GetAttribute (WebElement 10) "type";
       Clear (WebElement 10); SendKeys (WebElement 10) "Hello" ]).
Proof.
  apply (fill_field_text_input Demo.page Demo.respond Demo.again "title" "Hello" true
           (WebElement 10) (Some "text")).
  - discriminate.
  - discriminate.
  - scripted.
Defined.

Lemma fill_field_nothing_found_witness :
  run Demo.respond (fill_field Demo.again "title" "Hello" true) Demo.blank
  = (inr tt, Demo.blank, [FindElements ByName b (field_name "title" true)]).
Proof.
  apply (fill_field_nothing_found Demo.page Demo.respond Demo.again "title" "Hello"
           true Demo.blank Demo.blank).
  reflexivity.
Defined.

Lemma add_article_result_reads_url_witness :
  exists url p ids cancel,
    history Demo.respond add_article_result (Demo.article_form false)
    = [ fails (FindElement ByCss b ".alert-error") NoSuchElementException;
        gives CurrentUrl url;
        gives (FindElement ByXpath b "//button[contains(@onclick, 'article.cancel')]")
              cancel;
        gives (Click cancel) tt ]
    /\ Urllib.urlparse url = inr p
    /\ Dict.get "id" (Urllib.parse_qs (Urllib.query p)) = Some ("42" :: ids).
Proof.
  apply (add_article_result_reads_url Demo.page Demo.respond (Demo.article_form false)
           "42").
  reflexivity.
Defined.

Lemma add_article_returns_id_witness :
  let page := Demo.article_form false in
  let fields := [("title", "Hello")] in
  run Demo.respond (add_article Demo.again fields) page
  = (inr "42", page,
     (trace Demo.respond (add_article_submit Demo.again fields) page
      ++ [ FindElement ByCss b ".alert-error"; CurrentUrl;
           FindElement ByXpath b "//button[contains(@onclick, 'article.cancel')]";
           Click (WebElement 5) ])%list).
Proof.
  cbv zeta.
  apply (add_article_returns_id Demo.page Demo.respond Demo.again [("title", "Hello")]
           (Demo.url (Demo.article_form false)) "42" []
           (Urllib.mkParseResult "http" "joomla.test" "/administrator/index.php" ""
              "option=com_content&view=article&layout=edit&id=42" "")
           (WebElement 5) (Demo.article_form false) (Demo.article_form false)).
  - reflexivity.
  - scripted.
  - reflexivity.
  - reflexivity.
Defined.

Lemma url_param_update_url_params_witness :
  run replay (url_param "id")
    [gives CurrentUrl
       "http://joomla.test/administrator/index.php?option=%5B%27com_content%27%5D&task=%5B%27article.edit%27%5D&id=42"]
  = (inr (PyRepr.str (QInt 42)), [], [CurrentUrl]).
Proof.
  apply (url_param_update_url_params (list answer) replay
           "http://joomla.test/administrator/index.php?option=com_content&task=article.edit&id=1"
           "http://joomla.test/administrator/index.php?option=%5B%27com_content%27%5D&task=%5B%27article.edit%27%5D&id=42"
           "id" (QInt 42)
           (Urllib.mkParseResult "http" "joomla.test" "/administrator/index.php" ""
              "option=com_content&task=article.edit&id=1" "")).
  - reflexivity.
  - discriminate.
  - reflexivity.
  - reflexivity.
  - reflexivity.
Defined.


Lemma update_url_params_field_order_witness :
  exists fields : Dict.t qvalue,
    update_url_params "http://x/y?b=1&a=2&b=3" [("c", QInt 1); ("a", QInt 5)]
    = inr (Urllib.urlunparse
             (set_query (Urllib.mkParseResult "http" "x" "/y" "" "b=1&a=2&b=3" "")
                (PyStr.join "&" (map encoded fields))))
    /\ unique_keys fields = true
    /\ Dict.keys fields = ["b"; "a"; "c"].
Proof.
  exact (update_url_params_field_order "http://x/y?b=1&a=2&b=3"
           [("c", QInt 1); ("a", QInt 5)]
           (Urllib.mkParseResult "http" "x" "/y" "" "b=1&a=2&b=3" "")
           eq_refl eq_refl).
Defined.

Lemma add_attachment_returns_id_witness :
  run replay (add_attachment Demo.again 42 "Hello" [("display_name", "Report")])
    (Script.attachment_submit ++ Script.attachment_saved)%list
  = (inr "7", [],
     (calls Script.attachment_submit
      ++ [ FindElement ByCss b ".alert-error"; CurrentUrl;
           FindElement ByXpath b "//button[contains(@onclick, 'attachment.cancel')]";
           Click (WebElement 6) ])%list).
Proof.
  apply (add_attachment_returns_id (list answer) replay Demo.again 42 "Hello"
           [("display_name", "Report")]
           "http://joomla.test/administrator/index.php?option=com_attachments&task=attachment.edit&cid[]=7"
           "7" []
           (Urllib.mkParseResult "http" "joomla.test" "/administrator/index.php" ""
              "option=com_attachments&task=attachment.edit&cid[]=7" "")
           (WebElement 6)
           (Script.attachment_submit ++ Script.attachment_saved)%list
           Script.attachment_saved []).
  - vm_compute. reflexivity.
  - scripted.
  - reflexivity.
  - reflexivity.
Defined.

Lemma add_attachment_banner_TypeError_witness :
  run replay (add_attachment Demo.again 42 "Hello" [("display_name", "Report")])
    (Script.attachment_submit ++ Script.attachment_refused)%list
  = (inl (TypeError "'EltWrapper' object is not subscriptable"), [],
     (calls Script.attachment_submit
      ++ [FindElement ByCss b ".alert-error"; FindElement ByCss b ".alert-error"])%list).
Proof.
  apply (add_attachment_banner_TypeError (list answer) replay Demo.again 42 "Hello"
           [("display_name", "Report")] (WebElement 9) (WebElement 9)
           (Script.attachment_submit ++ Script.attachment_refused)%list
           Script.attachment_refused
           [gives (FindElement ByCss b ".alert-error") (WebElement 9)] []).
  - vm_compute. reflexivity.
  - reflexivity.
  - reflexivity.
Defined.
